(** * HoloViews annotators and geometry plot adapters

    A shallow embedding of [holoviews/plotting/bokeh/geometry.py] and
    [holoviews/annotators.py], with the properties of the natural-language
    specification stated and settled against it.

    Layout of the development:
    - [Numpy]: the array arithmetic the rectangle adapter computes with;
    - [Geometry]: the two [get_data] adapters ([SegmentPlot], [RectanglesPlot]);
    - [Py]: Python exceptions and the result type used by fallible code;
    - [Elem]: the element library interface consumed by the annotators;
    - [Annot]: the [Annotator] hierarchy;
    - [Manager]: the [AnnotationManager] over a store of Python objects;
    - [Notions]: predicates and worked inputs used to state the properties;
    - [GeometryFacts], [AnnotFacts], [ManagerFacts]: the properties. *)

From Stdlib Require Import ZArith Lia QArith Qpower SpecFloat.
From stdpp Require Import gmap strings list fin_maps.

(* ===================================================================== *)
(** * Array arithmetic *)
(* ===================================================================== *)

(** [geometry.py] computes on the arrays [dimension_values] returns, with
    numpy's element-wise operations.  Coordinates come as [int64] or as
    [float64] arrays; the operations below are numpy's on each of the two. *)
Module Numpy.

Local Open Scope Z_scope.

(** [int64] holds the integers from [-2^63] to [2^63 - 1].  Element-wise
    [+] and [-] on [int64] arrays wrap around on overflow and raise
    nothing. *)
Definition wrap64 (z : Z) : Z := (z + 2 ^ 63) mod 2 ^ 64 - 2 ^ 63.

(** [float64] is IEEE 754 binary64 (53 bits of precision, infinities at
    exponent 1024), rounding to nearest, ties to even. *)
Definition float64 : Type := spec_float.

Definition float64_add : float64 → float64 → float64 := SFadd 53 1024.
Definition float64_subtract : float64 → float64 → float64 := SFsub 53 1024.
Definition float64_divide : float64 → float64 → float64 := SFdiv 53 1024.

(** The conversion of an integer, as [astype(float64)] and the promotion in
    [int64_array / 2.] make it: the nearest float. *)
Definition float64_of_int64 (z : Z) : float64 := binary_normalize 53 1024 z 0 false.

(** The Python float [2.] *)
Definition two : float64 := float64_of_int64 2.

Definition float64_isnan (f : float64) : bool :=
  match f with S754_nan => true | _ => false end.

(** [np.minimum] and [np.maximum] on floats, as numpy's scalar loop has
    them, [(a <= b || isnan(a)) ? a : b] and the same with [>=]: a NaN
    operand is returned, otherwise the smaller (the larger) one.  Of two
    zeros of opposite sign the loop returns the first; other builds of numpy
    may return the other, and no property below depends on the choice. *)
Definition float64_minimum (a b : float64) : float64 :=
  if float64_isnan a || SFleb a b then a else b.
Definition float64_maximum (a b : float64) : float64 :=
  if float64_isnan a || SFleb b a then a else b.

(** The rational a float stands for; the infinities and NaN stand for
    none. *)
Definition float64_value (f : float64) : option Q :=
  match f with
  | S754_zero _ => Some 0%Q
  | S754_finite s m e =>
      Some ((if s then - inject_Z (Zpos m) else inject_Z (Zpos m)) * Qpower 2 e)%Q
  | S754_infinity _ | S754_nan => None
  end.

(** The element type of an array, with the element-wise operations
    [get_data] uses: [np.min] and [np.max] of two stacked arrays along the
    first axis, [+], [-], and the conversion that [/ 2.] applies to its left
    operand. *)
Class Dtype (A : Type) := {
  np_minimum : A → A → A;
  np_maximum : A → A → A;
  np_add : A → A → A;
  np_subtract : A → A → A;
  np_float64 : A → float64;
}.

#[global] Instance int64 : Dtype Z := {|
  np_minimum := Z.min;
  np_maximum := Z.max;
  np_add a b := wrap64 (a + b);
  np_subtract a b := wrap64 (a - b);
  np_float64 := float64_of_int64;
|}.

#[global] Instance float64_dtype : Dtype float64 := {|
  np_minimum := float64_minimum;
  np_maximum := float64_maximum;
  np_add := float64_add;
  np_subtract := float64_subtract;
  np_float64 f := f;
|}.

End Numpy.

(* ===================================================================== *)
(** * Geometry adapters ([plotting/bokeh/geometry.py]) *)
(* ===================================================================== *)

Module Geometry.

(** A geometry element is tabular: one array per dimension, the four key
    dimensions first.  [dimension_values] with an integer argument returns
    the array of that dimension; an index past the last dimension is an
    error in the element library, here [None]. *)
Record GeomElement (A : Type) := { columns : list (list A) }.
Arguments columns {A} _.

Definition dimension_values {A} (element : GeomElement A) (kd : nat)
  : option (list A) := columns element !! kd.

(** [inds = (1, 0, 3, 2) if self.invert_axes else (0, 1, 2, 3)] *)
Definition inds (invert_axes : bool) : nat * nat * nat * nat :=
  if invert_axes then (1, 0, 3, 2)%nat else (0, 1, 2, 3)%nat.

(** The generator [(element.dimension_values(kd) for kd in inds)] unpacked
    into four names. *)
Definition unpack_dims {A} (invert_axes : bool) (element : GeomElement A)
  : option (list A * list A * list A * list A) :=
  let '(i0, i1, i2, i3) := inds invert_axes in
  a ← dimension_values element i0;
  b ← dimension_values element i1;
  c ← dimension_values element i2;
  d ← dimension_values element i3;
  Some (a, b, c, d).

(** ** SegmentPlot *)
Module SegmentPlot.

Record data (A : Type) := { x0 : list A; x1 : list A; y0 : list A; y1 : list A }.
Arguments x0 {A} _.
Arguments x1 {A} _.
Arguments y0 {A} _.
Arguments y1 {A} _.

(** [mapping = dict(x0='x0', x1='x1', y0='y0', y1='y1')] *)
Definition mapping : list (string * string) :=
  [("x0", "x0"); ("x1", "x1"); ("y0", "y0"); ("y1", "y1")]%string.

Definition get_data {A Style} (invert_axes : bool) (element : GeomElement A)
    (style : Style) : option (data A * list (string * string) * Style) :=
  '(x0s, y0s, x1s, y1s) ← unpack_dims invert_axes element;
  Some ({| x0 := x0s; x1 := x1s; y0 := y0s; y1 := y1s |}, mapping, style).

End SegmentPlot.

(** ** RectanglesPlot *)
Module RectanglesPlot.
Import Numpy.

(** [np.min([a, b], axis=0)] and [np.max([a, b], axis=0)] on two arrays of
    one length and one element type: the element-wise minimum and
    maximum. *)
Definition np_min `{Dtype A} (a b : list A) : list A := zip_with np_minimum a b.
Definition np_max `{Dtype A} (a b : list A) : list A := zip_with np_maximum a b.

(** [(a + b) / 2.]: the sum is taken in the arrays' element type, the
    division in [float64]. *)
Definition half_sum `{Dtype A} (a b : A) : float64 :=
  float64_divide (np_float64 (np_add a b)) two.

(** [x] and [y] are [float64] arrays, [width] and [height] have the element
    type of the corners. *)
Record data (A : Type) := {
  x : list float64; y : list float64; width : list A; height : list A
}.
Arguments x {A} _.
Arguments y {A} _.
Arguments width {A} _.
Arguments height {A} _.

Definition mapping : list (string * string) :=
  [("x", "x"); ("y", "y"); ("width", "width"); ("height", "height")]%string.

Definition get_data `{Dtype A} {Style} (invert_axes : bool) (element : GeomElement A)
    (style : Style) : option (data A * list (string * string) * Style) :=
  '(x0, y0, x1, y1) ← unpack_dims invert_axes element;
  (* x0, x1 = np.min([x0, x1], axis=0), np.max([x0, x1], axis=0) *)
  let '(x0, x1) := (np_min x0 x1, np_max x0 x1) in
  let '(y0, y1) := (np_min y0 y1, np_max y0 y1) in
  Some ({| x := zip_with half_sum x1 x0;
           y := zip_with half_sum y1 y0;
           width := zip_with np_subtract x1 x0;
           height := zip_with np_subtract y1 y0 |}, mapping, style).

End RectanglesPlot.

End Geometry.

(* ===================================================================== *)
(** * Python values, exceptions and fallible results *)
(* ===================================================================== *)

Module Py.

(** The exceptions the modelled code can raise. *)
Inductive exn :=
| ValueError (msg : string)
| AttributeError (attr : string)
| TypeError (msg : string)
| KeyError (key : string)
| IndexError
| ReferenceError (id : nat).

Inductive result (A : Type) :=
| Ok (a : A)
| Raise (e : exn).
Arguments Ok {A} _.
Arguments Raise {A} _.

#[global] Instance exn_eq_dec : EqDecision exn.
Proof. solve_decision. Defined.

#[global] Instance result_ret : MRet result := @Ok.
#[global] Instance result_bind : MBind result :=
  λ A B f m, match m with Ok a => f a | Raise e => Raise e end.
#[global] Instance result_fmap : FMap result :=
  λ A B f m, match m with Ok a => Ok (f a) | Raise e => Raise e end.

(** Left-to-right evaluation of a comprehension whose body may raise. *)
Fixpoint for_each {A B} (f : A → result B) (l : list A) : result (list B) :=
  match l with
  | [] => Ok []
  | a :: l' => b ← f a; bs ← for_each f l'; Ok (b :: bs)
  end.

(** Plain data that ends up in element columns.  A zero-argument callable
    (a type such as [str], or a lambda) is represented by the value it
    returns when called. *)
Inductive value :=
| VNone
| VBool (b : bool)
| VInt (z : Z)
| VStr (s : string)
| VCallable (returns : value).

#[global] Instance value_eq_dec : EqDecision value.
Proof. solve_decision. Defined.

(** [f()] *)
Definition call (f : value) : result value :=
  match f with
  | VCallable r => Ok r
  | _ => Raise (TypeError "object is not callable")
  end.

(** [repr] of a list of strings, as ['%s' % validate] prints it. *)
Definition repr_str (s : string) : string := "'" +:+ s +:+ "'".
Fixpoint join (sep : string) (l : list string) : string :=
  match l with
  | [] => ""
  | [s] => s
  | s :: l' => s +:+ sep +:+ join sep l'
  end.
Definition repr_list (l : list string) : string :=
  "[" +:+ join ", " (repr_str <$> l) +:+ "]".

(** Option values of [opts] dictionaries. *)
Inductive optval :=
| ONone
| OBool (b : bool)
| ONum (q : Q)
| OStr (s : string)
| OTools (tools : list string).

End Py.

(* ===================================================================== *)
(** * The element library consumed by the annotators *)
(* ===================================================================== *)

(** [annotators.py] imports [Element], [Path], [Polygons], [Points],
    [Table] and [Overlay] from the element library, whose code is not part
    of the two files embedded here.  Each operation the annotators call is
    given below with the behaviour the specification lists for it under
    "consumed from the element/geometry library". *)
Module Elem.
Import Py.

(** Element classes; [Polygons] derives from [Path]. *)
Inductive etype := Path | Polygons | Points.

#[global] Instance etype_eq_dec : EqDecision etype.
Proof. solve_decision. Defined.

Definition type_name (t : etype) : string :=
  match t with Path => "Path" | Polygons => "Polygons" | Points => "Points" end.

(** A column of one object holds either one value for the whole object or
    an array with one value per vertex. *)
Inductive cell :=
| Scalar (v : value)
| Array (vs : list value).

(** The data of one object (a path, a polygon, a point): a column mapping,
    held in a Python [dict] or in some other container. *)
Inductive object_data :=
| DictData (d : gmap string cell)
| OtherData (d : gmap string cell).

Definition fields (o : object_data) : gmap string cell :=
  match o with DictData d | OtherData d => d end.

Definition is_dict (o : object_data) : bool :=
  match o with DictData _ => true | OtherData _ => false end.

Definition map_fields (f : gmap string cell → gmap string cell) (o : object_data) :=
  match o with DictData d => DictData (f d) | OtherData d => OtherData (f d) end.

(** Modelled from the spec: the element ("typed geometric dataset with
    key/value dimensions"), replaced wholesale on every edit.  The class
    itself lives in the element library. *)
Record Element := {
  el_type : etype;
  interface_datatype : string;
  kdims : list string;
  vdims : list string;
  data : list object_data;
  el_opts : gmap string optval;
}.

Definition with_data (e : Element) (d : list object_data) : Element :=
  {| el_type := el_type e; interface_datatype := interface_datatype e;
     kdims := kdims e; vdims := vdims e; data := d; el_opts := el_opts e |}.

(** [isinstance(element, cls)] *)
Definition isinstance (e : Element) (cls : etype) : bool :=
  match cls, el_type e with
  | Path, (Path | Polygons) => true
  | Polygons, Polygons => true
  | Points, Points => true
  | _, _ => false
  end.

(** Modelled from the spec: the [datatype] class attribute of the path
    element classes, the list of storage formats in order of preference. *)
Definition class_datatype (cls : etype) : list string :=
  match cls with
  | Path | Polygons => ["multitabular"; "dataframe"; "dictionary"; "dask"; "array"]
  | Points => ["dataframe"; "dictionary"; "grid"; "dask"; "array"]
  end.

(** [list.remove(x)]: drops the first occurrence, [ValueError] when absent. *)
Fixpoint list_remove (x : string) (l : list string) : result (list string) :=
  match l with
  | [] => Raise (ValueError "list.remove(x): x not in list")
  | y :: l' => if decide (x = y) then Ok l' else (y ::.) <$> list_remove x l'
  end.

(** Modelled from the spec: element construction, [cls(data, datatype=...)].
    With [None] an empty element over the default key dimensions; with an
    element of another class, that element's dimensions and data under the
    new class.  The storage format is the first one of the list. *)
Definition construct (cls : etype) (arg : option Element) (datatype : list string)
  : Element :=
  match arg with
  | None =>
      {| el_type := cls; interface_datatype := default "" (head datatype);
         kdims := ["x"; "y"]; vdims := []; data := []; el_opts := ∅ |}
  | Some e =>
      {| el_type := cls; interface_datatype := default "" (head datatype);
         kdims := kdims e; vdims := vdims e; data := data e; el_opts := ∅ |}
  end.

(** Modelled from the spec: [col in element], whether the element has a
    dimension of that name. *)
Definition contains (e : Element) (col : string) : bool :=
  bool_decide (col ∈ kdims e ++ vdims e).

Definition insert_at {A} (pos : nat) (x : A) (l : list A) : list A :=
  take pos l ++ x :: drop pos l.

(** Modelled from the spec: the copy [add_dimension] returns, with the
    dimension inserted at [dim_pos] among the value (or key) dimensions and
    [dim_val] as its value on every object. *)
Definition with_dimension (e : Element) (col : string) (dim_pos : nat)
    (dim_val : value) (vdim : bool) : Element :=
  {| el_type := el_type e; interface_datatype := interface_datatype e;
     kdims := if vdim then kdims e else insert_at dim_pos col (kdims e);
     vdims := if vdim then insert_at dim_pos col (vdims e) else vdims e;
     data := map_fields (<[col := Scalar dim_val]>) <$> data e;
     el_opts := el_opts e |}.

(** What the storage formats take for one value on every object: [None] and
    scalars.  A type or a function is neither. *)
Definition is_scalar (v : value) : bool :=
  match v with VCallable _ => false | _ => true end.

(** Modelled from the spec: [add_dimension(dimension, dim_pos, dim_val,
    vdim)].  The library makes a dimension object of the name and refuses the
    empty name with a [ValueError]; the multitabular format of the path
    classes takes [len(dim_val)] of a value that is not a scalar, a
    [TypeError] for a type or a function.  The annotators call it only with
    a name that is not on the element. *)
Definition add_dimension (e : Element) (col : string) (dim_pos : nat)
    (dim_val : value) (vdim : bool) : result Element :=
  if decide (col = "") then Raise (ValueError "dimension name must not be empty")
  else if bool_decide (interface_datatype e = "multitabular") && negb (is_scalar dim_val)
  then Raise (TypeError "object has no len()")
  else Ok (with_dimension e col dim_pos dim_val vdim).

(** The distinct values of a column on one object. *)
Definition unique_values (c : cell) : list value :=
  match c with
  | Scalar v => [v]
  | Array vs => remove_dups vs
  end.

(** Modelled from the spec: [dimension_values(dim, expanded=False)], the
    distinct values of the dimension object by object, concatenated; one
    entry per object exactly when the dimension is constant on each. *)
Definition dimension_values_unexpanded (e : Element) (dim : string)
  : result (list value) :=
  if contains e dim then
    (λ l, concat l) <$> for_each (λ o, match fields o !! dim with
                              | Some c => Ok (unique_values c)
                              | None => Raise (KeyError dim)
                              end) (data e)
  else Raise (KeyError dim).

(** Modelled from the spec: [options] with keyword arguments, a copy with
    the keywords merged over the present options. *)
Definition options (e : Element) (kwargs : gmap string optval) : Element :=
  {| el_type := el_type e; interface_datatype := interface_datatype e;
     kdims := kdims e; vdims := vdims e; data := data e;
     el_opts := kwargs ∪ el_opts e |}.

(** Modelled from the spec: [split()], one single-object element per
    object. *)
Definition split (e : Element) : list Element :=
  (λ o, with_data e [o]) <$> data e.

(** Modelled from the spec: [clone(data)] with a list of elements, the same
    class, dimensions and options with the objects of the given elements as
    data. *)
Definition clone (e : Element) (parts : list Element) : Element :=
  with_data e (concat (data <$> parts)).

(** Modelled from the spec: [iloc[index]] with a list of row positions. *)
Definition iloc (e : Element) (index : list nat) : result Element :=
  with_data e <$> for_each (λ i, match data e !! i with
                                 | Some o => Ok o
                                 | None => Raise IndexError
                                 end) index.

(** Modelled from the spec: a [Table] as constructed, [Table(data, kdims,
    vdims)] followed by [opts].  The data argument is kept as passed. *)
Inductive table_data :=
| Columns (cols : list (string * list value))
| Rows (rows : list (list value))
| FromElement (e : Element).

Record Table := {
  t_data : table_data;
  t_kdims : option (list string);
  t_vdims : option (list string);
  t_opts : gmap string optval;
}.

Definition mkTable (d : table_data) (kd vd : option (list string)) : Table :=
  {| t_data := d; t_kdims := kd; t_vdims := vd; t_opts := ∅ |}.

Definition table_opts_apply (t : Table) (kwargs : gmap string optval) : Table :=
  {| t_data := t_data t; t_kdims := t_kdims t; t_vdims := t_vdims t;
     t_opts := kwargs ∪ t_opts t |}.

(** Modelled from the spec: [Overlay(layers)], [collate()] and [opts]; the
    overlay records its items, whether it was collated, and its options. *)
Record Overlay := {
  ov_items : list Element;
  ov_collated : bool;
  ov_opts : gmap string optval;
}.

End Elem.

(* ===================================================================== *)
(** * The Annotator hierarchy ([annotators.py]) *)
(* ===================================================================== *)

Module Annot.
Import Py Elem.

(** The concrete annotator classes.  The abstract base leaves
    [_init_element] and [_init_table] empty and cannot complete
    [_initialize] on its own. *)
Inductive cls := PathAnnotator | PolyAnnotator | PointAnnotator | BoxAnnotator.

#[global] Instance cls_eq_dec : EqDecision cls.
Proof. solve_decision. Defined.

(** [_element_type]: the class of the [object] parameter. *)
Definition element_type (c : cls) : etype :=
  match c with
  | PathAnnotator => Path
  | PolyAnnotator => Polygons
  | PointAnnotator => Points
  | BoxAnnotator => Path
  end.

(** An annotations spec: a list of column names, or a [dict] from column
    name to a value (insertion-ordered, keys distinct). *)
Inductive spec :=
| SList (cols : list string)
| SDict (items : list (string * value)).

Definition is_dict_spec (s : spec) : bool :=
  match s with SDict _ => true | SList _ => false end.

(** Iterating a spec yields the column names in order. *)
Definition columns_of (s : spec) : list string :=
  match s with SList cols => cols | SDict items => items.*1 end.

Fixpoint assoc {V} (k : string) (d : list (string * V)) : option V :=
  match d with
  | [] => None
  | (k', v) :: d' => if decide (k = k') then Some v else assoc k d'
  end.

(** [d[k] = v] on an insertion-ordered dictionary. *)
Fixpoint dict_set {V} (k : string) (v : V) (d : list (string * V)) : list (string * V) :=
  match d with
  | [] => [(k, v)]
  | (k', v') :: d' =>
      if decide (k = k') then (k, v) :: d' else (k', v') :: dict_set k v d'
  end.

(** A dictionary comprehension over already evaluated items. *)
Definition dict_of_items {V} (items : list (string * V)) : list (string * V) :=
  foldl (λ d kv, dict_set kv.1 kv.2 d) [] items.

(** [self.annotations[col]] *)
Definition spec_getitem (s : spec) (col : string) : result value :=
  match s with
  | SDict items =>
      match assoc col items with Some v => Ok v | None => Raise (KeyError col) end
  | SList _ => Raise (TypeError "list indices must be integers")
  end.

(** ** Streams, links and widgets held by an annotator *)

Inductive stream_kind := PolyDraw | PolyEdit | PointDraw | BoxEdit | Selection1D.

(** The only subscriber the file registers is the bound method
    [self._update_element]. *)
Inductive subscriber := UpdateElement.

(** Modelled from the spec: an interaction stream, "draw/edit/selection
    event sources exposing a current-snapshot [.element] or [.index] and a
    subscriber-registration call".  [s_data] and [s_index] are written by
    the user's edits. *)
Record Stream := {
  s_kind : stream_kind;
  s_source : option Element;
  s_data : list object_data;
  s_num_objects : option nat;
  s_show_vertices : option bool;
  s_tooltip : option string;
  s_vertex_style : option (gmap string optval);
  s_index : list nat;
  s_subscribers : list subscriber;
}.

Definition with_source (s : Stream) (src : option Element) : Stream :=
  {| s_kind := s_kind s; s_source := src; s_data := s_data s;
     s_num_objects := s_num_objects s; s_show_vertices := s_show_vertices s;
     s_tooltip := s_tooltip s; s_vertex_style := s_vertex_style s;
     s_index := s_index s; s_subscribers := s_subscribers s |}.

Definition add_subscriber (s : Stream) (f : subscriber) : Stream :=
  {| s_kind := s_kind s; s_source := s_source s; s_data := s_data s;
     s_num_objects := s_num_objects s; s_show_vertices := s_show_vertices s;
     s_tooltip := s_tooltip s; s_vertex_style := s_vertex_style s;
     s_index := s_index s; s_subscribers := s_subscribers s ++ [f] |}.

(** The edits of the user: new drawn data, a new selection. *)
Definition with_stream_data (s : Stream) (d : list object_data) : Stream :=
  {| s_kind := s_kind s; s_source := s_source s; s_data := d;
     s_num_objects := s_num_objects s; s_show_vertices := s_show_vertices s;
     s_tooltip := s_tooltip s; s_vertex_style := s_vertex_style s;
     s_index := s_index s; s_subscribers := s_subscribers s |}.

Definition with_index (s : Stream) (ix : list nat) : Stream :=
  {| s_kind := s_kind s; s_source := s_source s; s_data := s_data s;
     s_num_objects := s_num_objects s; s_show_vertices := s_show_vertices s;
     s_tooltip := s_tooltip s; s_vertex_style := s_vertex_style s;
     s_index := ix; s_subscribers := s_subscribers s |}.

(** Modelled from the spec: [stream.element], the source cloned around the
    stream's current data. *)
Definition stream_element (s : Stream) : result Element :=
  match s_source s with
  | Some src => Ok (with_data src (s_data s))
  | None => Raise (AttributeError "clone")
  end.

Inductive link_kind := DataLink | VertexTableLink | SelectionLink.

(** What an instance attribute can hold. *)
Inductive pyobj :=
| OElement (e : Element)
| OStream (s : Stream)
| OTable (t : Table)
| OTables (ts : list (string * Table))
| OTabs (ts : list (string * Table))
| OLink (k : link_kind) (source : option Element) (target : Table)
| OParamMethod (method : string)
| ORow (items : list string).

Definition as_stream (o : pyobj) (attr : string) : result Stream :=
  match o with OStream s => Ok s | _ => Raise (AttributeError attr) end.

Definition as_element (o : pyobj) (attr : string) : result Element :=
  match o with OElement e => Ok e | _ => Raise (AttributeError attr) end.

(** ** Instances *)

(** The declared parameters other than [object], and the two class
    attributes [_tools] and [_extra_opts] ("allows patching on custom
    behavior"). *)
Record Params := {
  annotations : spec;
  num_objects : option nat;
  opts : gmap string optval;
  table_transforms : list (Element → Element);
  table_opts : gmap string optval;
  edit_vertices : bool;
  show_vertices : bool;
  vertex_annotations : spec;
  vertex_style : gmap string optval;
  _tools : list string;
  _extra_opts : gmap string optval;
}.

(** A watcher registered with [param.watch(callback, name)]; the callback
    of the manager re-triggers the manager's [layers]. *)
Inductive callback := TriggerLayers (manager : nat).

Record watcher := { w_name : string; w_callback : callback }.

(** An annotator instance: its class, display name ([param_name(self.name)]),
    parameters, the event state of the parameter framework and the instance
    dictionary holding every attribute assigned with [self.attr = ...]. *)
Record Annotator := {
  a_cls : cls;
  a_name : string;
  params : Params;
  object : option Element;
  batch_watch : bool;
  events : list string;
  watchers : list watcher;
  attrs : gmap string pyobj;
}.

Definition set_object_field (o : option Element) (a : Annotator) : Annotator :=
  {| a_cls := a_cls a; a_name := a_name a; params := params a; object := o;
     batch_watch := batch_watch a; events := events a; watchers := watchers a;
     attrs := attrs a |}.

Definition set_event_state (b : bool) (ev : list string) (a : Annotator) : Annotator :=
  {| a_cls := a_cls a; a_name := a_name a; params := params a; object := object a;
     batch_watch := b; events := ev; watchers := watchers a; attrs := attrs a |}.

Definition set_watchers (ws : list watcher) (a : Annotator) : Annotator :=
  {| a_cls := a_cls a; a_name := a_name a; params := params a; object := object a;
     batch_watch := batch_watch a; events := events a; watchers := ws;
     attrs := attrs a |}.

Definition set_attrs (d : gmap string pyobj) (a : Annotator) : Annotator :=
  {| a_cls := a_cls a; a_name := a_name a; params := params a; object := object a;
     batch_watch := batch_watch a; events := events a; watchers := watchers a;
     attrs := d |}.

Definition set_params (p : Params) (a : Annotator) : Annotator :=
  {| a_cls := a_cls a; a_name := a_name a; params := p; object := object a;
     batch_watch := batch_watch a; events := events a; watchers := watchers a;
     attrs := attrs a |}.

(** The parameter defaults declared by the classes. *)
Definition default_opts (c : cls) : gmap string optval :=
  let base := <["responsive" := OBool true]>
                (<["min_height" := ONum 400]> {["padding" := ONum (1 # 10)]}) in
  match c with
  | PointAnnotator => <["size" := ONum 10]> base
  | _ => base
  end.

Definition default_params (c : cls) : Params :=
  {| annotations := SList [];
     num_objects := None;
     opts := default_opts c;
     table_transforms := [];
     table_opts := {["editable" := OBool true]};
     edit_vertices := true;
     show_vertices := true;
     vertex_annotations := SList [];
     vertex_style := {["nonselection_alpha" := ONum (1 # 2)]};
     _tools := [];
     _extra_opts := ∅ |}.

Definition with_annotations (s : spec) (p : Params) : Params :=
  {| annotations := s; num_objects := num_objects p; opts := opts p;
     table_transforms := table_transforms p; table_opts := table_opts p;
     edit_vertices := edit_vertices p; show_vertices := show_vertices p;
     vertex_annotations := vertex_annotations p; vertex_style := vertex_style p;
     _tools := _tools p; _extra_opts := _extra_opts p |}.

(** ** Methods run on an instance: state and exceptions *)

(** A method body maps the instance to a result or an exception, together
    with the instance as the body left it (mutations made before a raise
    stay). *)
Definition M (A : Type) : Type := Annotator → result A * Annotator.

Definition ret {A} (x : A) : M A := λ a, (Ok x, a).
Definition raise {A} (e : exn) : M A := λ a, (Raise e, a).
Definition bind {A B} (m : M A) (k : A → M B) : M B :=
  λ a, match m a with
       | (Ok x, a') => k x a'
       | (Raise e, a') => (Raise e, a')
       end.
Definition lift {A} (r : result A) : M A := λ a, (r, a).
Definition get : M Annotator := λ a, (Ok a, a).
Definition modify (f : Annotator → Annotator) : M unit := λ a, (Ok tt, f a).

#[local] Notation "'let!' x ':=' m 'in' k" := (bind m (λ x, k))
  (at level 10, x name, m at level 100, k at level 200).
#[local] Notation "m ';;;' k" := (bind m (λ _, k))
  (at level 100, k at level 200, right associativity).

(** [self.attr] for an attribute that is not a declared parameter. *)
Definition getattr (n : string) : M pyobj :=
  λ a, match attrs a !! n with
       | Some o => (Ok o, a)
       | None => (Raise (AttributeError n), a)
       end.

(** [self.attr = o] *)
Definition setattr (n : string) (o : pyobj) : M unit :=
  modify (λ a, set_attrs (<[n := o]> (attrs a)) a).

(** [self.object = e] while events are batched or discarded: the value is
    stored and the change event queued, no watcher runs. *)
Definition set_object (e : Element) : M unit :=
  modify (λ a, set_event_state (batch_watch a) (events a ++ ["object"])
                 (set_object_field (Some e) a)).

(** [with param.discard_events(self): body]: events are batched during the
    body; on the way out, also when the body raises, [_BATCH_WATCH] is set
    back and the queue is assigned the list object it was on entry.  That is
    the very list the body appended to, so what the body queued stays
    queued. *)
Definition discard_events {A} (body : M A) : M A :=
  λ a, let '(r, a') := body (set_event_state true (events a) a) in
       (r, set_event_state (batch_watch a) (events a') a').

(** The [preprocess] decorator: [inner] sets [_BATCH_WATCH], calls the
    function, then clears the flag and drops the queued watchers and
    events.  When the function raises, the three resets are not reached. *)
Definition preprocess {A} (function : M A) : M unit :=
  modify (λ a, set_event_state true (events a) a) ;;;
  function ;;;
  modify (set_event_state false []).

(** ** Adding the annotation columns *)

(** The loop over [self.annotations] of [PathAnnotator._init_element]: a
    column already on the element is queued for validation, a missing one is
    added with [self.annotations[col]()] for a dict spec and [''] for a
    list. *)
Fixpoint path_add_annotations (s : spec) (cols : list string)
    (element : Element) (validate : list string) : result (Element * list string) :=
  match cols with
  | [] => Ok (element, validate)
  | col :: cols' =>
      if contains element col then
        path_add_annotations s cols' element (validate ++ [col])
      else
        init ← (if is_dict_spec s then spec_getitem s col ≫= call
                else Ok (VStr ""));
        element ← add_dimension element col 0 init true;
        path_add_annotations s cols' element validate
  end.

(** The loop over [self.vertex_annotations]. *)
Fixpoint path_add_vertex_annotations (s : spec) (cols : list string)
    (element : Element) : result Element :=
  match cols with
  | [] => Ok element
  | col :: cols' =>
      if contains element col then path_add_vertex_annotations s cols' element
      else
        init ← (if is_dict_spec s then spec_getitem s col ≫= call
                else Ok (VStr ""));
        element ← add_dimension element col 0 init true;
        path_add_vertex_annotations s cols' element
  end.

(** The loop of [PointAnnotator._init_element] and
    [BoxAnnotator._init_element]: [init = self.annotations[col]] for a dict
    spec, [None] for a list. *)
Fixpoint point_add_annotations (s : spec) (cols : list string)
    (object : Element) : result Element :=
  match cols with
  | [] => Ok object
  | col :: cols' =>
      if contains object col then point_add_annotations s cols' object
      else
        init ← (if is_dict_spec s then spec_getitem s col else Ok VNone);
        object ← add_dimension object col 0 init true;
        point_add_annotations s cols' object
  end.

(** ** Validation in [PathAnnotator._init_element] *)

(** [{c: self.element.dimension_values(c, expanded=False) for c in validate}]:
    [self.element] is looked up on the instance for every [c]. *)
Definition poly_data (validate : list string) : M (list (string * list value)) :=
  λ a, (dict_of_items <$>
          for_each (λ c, match attrs a !! "element" with
                         | None => Raise (AttributeError "element")
                         | Some o =>
                             e ← as_element o "dimension_values";
                             v ← dimension_values_unexpanded e c;
                             Ok (c, v)
                         end) validate, a).

(** [set(len(v) for v in poly_data.values())] *)
Definition length_set (pd : list (string * list value)) : gset nat :=
  list_to_set (length <$> pd.*2).

(** [validate and len(set(...)) != 1] *)
Definition validation_fails (validate : list string)
    (pd : list (string * list value)) : bool :=
  bool_decide (validate ≠ []) && bool_decide (size (length_set pd) ≠ 1%nat).

Definition validation_error (validate : list string) : exn :=
  ValueError ("annotations must refer to value dimensions which vary per path while at least one of "
              +:+ repr_list validate +:+ " varies by vertex.").

(** [dict(tools=tools, color_index=None, **self.opts)] and the like: a
    keyword given twice is a [TypeError]. *)
Definition dict_kwargs (fixed : list (string * optval)) (kw : gmap string optval)
  : result (gmap string optval) :=
  if bool_decide (Forall (λ k, kw !! k = None) fixed.*1)
  then Ok (kw ∪ list_to_map fixed)
  else Raise (TypeError "dict() got multiple values for keyword argument").

(** ** [_init_element] *)

Definition PathAnnotator_init_element (element : option Element) : M unit :=
  let! a := get in
  let cls := element_type (a_cls a) in
  let! element :=
    match element with
    | Some e => if isinstance e cls then ret e
                else let! datatype := lift (list_remove "multitabular" (class_datatype cls)) in
                     ret (construct cls element (datatype ++ ["multitabular"]))
    | None => let! datatype := lift (list_remove "multitabular" (class_datatype cls)) in
              ret (construct cls element (datatype ++ ["multitabular"]))
    end in
  (* Add annotation columns to poly data *)
  let! ev := lift (path_add_annotations (annotations (params a))
                     (columns_of (annotations (params a))) element []) in
  let validate := ev.2 in
  let! element := lift (path_add_vertex_annotations (vertex_annotations (params a))
                          (columns_of (vertex_annotations (params a))) ev.1) in
  (* Validate annotations *)
  let! pd := poly_data validate in
  if validation_fails validate pd then raise (validation_error validate)
  else
    (* Add options to element *)
    let tools := OTools (_tools (params a)) in
    let! opts := lift (dict_kwargs [("tools", tools); ("color_index", ONone)]
                         (opts (params a))) in
    let opts := _extra_opts (params a) ∪ opts in
    set_object (options element opts).

Definition PointAnnotator_init_element (object : option Element) : M unit :=
  let! a := get in
  let cls := element_type (a_cls a) in
  let object :=
    match object with
    | Some e => if isinstance e cls then e else construct cls object (class_datatype cls)
    | None => construct cls object (class_datatype cls)
    end in
  (* Add annotations *)
  let! object := lift (point_add_annotations (annotations (params a))
                         (columns_of (annotations (params a))) object) in
  (* Add options *)
  let tools := OTools (_tools (params a)) in
  let! opts := lift (dict_kwargs [("tools", tools)] (opts (params a))) in
  let opts := _extra_opts (params a) ∪ opts in
  set_object (options object opts).

(** [BoxAnnotator._init_element] is the same text with [element] for
    [object]. *)
Definition BoxAnnotator_init_element (element : option Element) : M unit :=
  PointAnnotator_init_element element.

Definition _init_element (element : option Element) : M unit :=
  let! a := get in
  match a_cls a with
  | PathAnnotator | PolyAnnotator => PathAnnotator_init_element element
  | PointAnnotator => PointAnnotator_init_element element
  | BoxAnnotator => BoxAnnotator_init_element element
  end.

(** ** [_init_table] *)

Definition new_stream (k : stream_kind) (source : option Element)
    (num_objects : option nat) (show_vertices : option bool)
    (tooltip : option string) (vertex_style : option (gmap string optval)) : Stream :=
  {| s_kind := k; s_source := source; s_data := []; s_num_objects := num_objects;
     s_show_vertices := show_vertices; s_tooltip := tooltip;
     s_vertex_style := vertex_style; s_index := []; s_subscribers := [] |}.

(** [_table_data]: the object with the [table_transforms] applied in order. *)
Definition _table_data : M (option Element) :=
  let! a := get in
  ret (foldl (λ o transform, transform <$> o) (object a)
         (table_transforms (params a))).

(** [x[0]] on an array. *)
Definition first_value (vs : list value) : result value :=
  match vs with v :: _ => Ok v | [] => Raise IndexError end.

(** [self.object.attr] when the parameter may still be [None]. *)
Definition object_attr (attr : string) : M Element :=
  let! a := get in
  match object a with
  | Some e => ret e
  | None => raise (AttributeError attr)
  end.

Definition PathAnnotator_init_table : M unit :=
  let! a := get in
  let p := params a in
  let name := a_name a in
  setattr "_stream"
    (OStream (new_stream PolyDraw (object a) (num_objects p) (Some (show_vertices p))
                (Some (name +:+ " Tool")) (Some (vertex_style p)))) ;;;
  (if edit_vertices p then
     setattr "_vertex_stream"
       (OStream (new_stream PolyEdit (object a) None None
                   (Some (name +:+ " Edit Tool")) (Some (vertex_style p))))
   else ret tt) ;;;
  let annotations := columns_of (annotations p) in
  let! table_data := _table_data in
  let! table_data :=
    match table_data with
    | Some e => ret (split e)
    | None => raise (AttributeError "split")
    end in
  let! table_data :=
    lift (dict_of_items <$>
            for_each (λ c, vs ← for_each (λ d, dimension_values_unexpanded d c
                                                 ≫= first_value) table_data;
                           Ok (c, vs)) annotations) in
  let table := table_opts_apply
                 (mkTable (Columns table_data) (Some annotations) (Some []))
                 (table_opts p) in
  setattr "_table" (OTable table) ;;;
  setattr "_link" (OLink DataLink (object a) table) ;;;
  let! obj := object_attr "kdims" in
  let vertex_table := table_opts_apply
                        (mkTable (Rows []) (Some (kdims obj))
                           (Some (columns_of (vertex_annotations p))))
                        (table_opts p) in
  setattr "_vertex_table" (OTable vertex_table) ;;;
  setattr "_vertex_link" (OLink VertexTableLink (object a) vertex_table) ;;;
  setattr "_tables" (OTables [(name, table); (name +:+ " Vertices", vertex_table)]).

(** [Table(x)] where [x] is the object, possibly still [None]. *)
Definition table_source (o : option Element) : table_data :=
  match o with Some e => FromElement e | None => Rows [] end.

Definition PointAnnotator_init_table : M unit :=
  let! a := get in
  let p := params a in
  let name := a_name a in
  setattr "_stream"
    (OStream (new_stream PointDraw (object a) (num_objects p) None
                (Some (name +:+ " Tool")) None)) ;;;
  let! table_data := _table_data in
  let table := table_opts_apply (mkTable (table_source table_data) None None)
                 (table_opts p) in
  setattr "_table" (OTable table) ;;;
  setattr "_point_link" (OLink DataLink (object a) table) ;;;
  setattr "_point_selection_link" (OLink SelectionLink (object a) table) ;;;
  setattr "_tables" (OTables [(name, table)]).

(** [Table(data, [], self.annotations)]: the annotations are passed as they
    are; the [Table] constructor takes a list of column names for its value
    dimensions and refuses a [dict] of defaults. *)
Definition box_table (data : table_data) (annotations : spec) : result Table :=
  match annotations with
  | SList cols => Ok (mkTable data (Some []) (Some cols))
  | SDict _ => Raise (ValueError "vdims must be dimensions")
  end.

Definition BoxAnnotator_init_table : M unit :=
  let! a := get in
  let p := params a in
  let name := a_name a in
  setattr "_stream"
    (OStream (new_stream BoxEdit (object a) (num_objects p) None
                (Some (name +:+ " Tool")) None)) ;;;
  let! table_data := _table_data in
  let! table := lift (box_table (table_source table_data) (annotations p)) in
  let table := table_opts_apply table (table_opts p) in
  setattr "_table" (OTable table) ;;;
  setattr "_point_link" (OLink DataLink (object a) table) ;;;
  setattr "_tables" (OTables [(name, table)]).

Definition _init_table : M unit :=
  let! a := get in
  match a_cls a with
  | PathAnnotator | PolyAnnotator => PathAnnotator_init_table
  | PointAnnotator => PointAnnotator_init_table
  | BoxAnnotator => BoxAnnotator_init_table
  end.

(** ** [_initialize] *)

(** The body of [_initialize], before decoration. *)
Definition _initialize_body (object : option Element) : M unit :=
  let! a := get in
  let object := match object with None => Annot.object a | Some _ => object end in
  _init_element object ;;;
  _init_table ;;;
  (* self._selection.source = self.object *)
  let! sel := getattr "_selection" in
  let! sel := lift (as_stream sel "source") in
  let! a := get in
  setattr "_selection" (OStream (with_source sel (Annot.object a))) ;;;
  (* self.editor[:] = self._tables *)
  let! editor := getattr "editor" in
  let! tables := getattr "_tables" in
  match editor, tables with
  | OTabs _, OTables ts => setattr "editor" (OTabs ts)
  | OTabs _, _ => raise (TypeError "object is not iterable")
  | _, _ => raise (TypeError "object does not support item assignment")
  end ;;;
  (* self._stream.add_subscriber(self._update_element) *)
  let! stream := getattr "_stream" in
  let! stream := lift (as_stream stream "add_subscriber") in
  setattr "_stream" (OStream (add_subscriber stream UpdateElement)).

Definition _initialize (object : option Element) : M unit :=
  preprocess (_initialize_body object).

(** ** [__init__] *)

(** Modelled from the spec: the constructor of the pane base class of the
    widget toolkit, which stores the parameters, refuses an [object] that is
    not of the class declared for the parameter, and creates the [layout]
    row. *)
Definition PaneBase_init (c : cls) (name : string) (p : Params)
    (object : option Element) : result unit * Annotator :=
  let a := {| a_cls := c; a_name := name; params := p; object := object;
              batch_watch := false; events := []; watchers := [];
              attrs := {["layout" := ORow []]} |} in
  match object with
  | Some e => if isinstance e (element_type c) then (Ok tt, a)
              else (Raise (ValueError "object is not of the declared class"),
                    set_object_field None a)
  | None => (Ok tt, a)
  end.

Definition Annotator_init_body (object : option Element) : M unit :=
  setattr "_tables" (OTables []) ;;;
  setattr "editor" (OTabs []) ;;;
  setattr "_selection"
    (OStream (new_stream Selection1D None None None None None)) ;;;
  _initialize object ;;;
  setattr "plot" (OParamMethod "_get_plot") ;;;
  (* self.layout[:] = [self.plot, self.editor] *)
  getattr "layout" ;;;
  getattr "plot" ;;;
  getattr "editor" ;;;
  setattr "layout" (ORow ["plot"; "editor"]).

Definition Annotator_init (c : cls) (name : string) (p : Params)
    (object : option Element) : result unit * Annotator :=
  match PaneBase_init c name p object with
  | (Ok _, a) => Annotator_init_body object a
  | (Raise e, a) => (Raise e, a)
  end.

(** ** [_update_element] *)

(** The base method, used by the point and box annotators. *)
Definition Annotator_update_element : M unit :=
  discard_events (
    let! stream := getattr "_stream" in
    let! stream := lift (as_stream stream "element") in
    let! element := lift (stream_element stream) in
    set_object element).

(** [len(x)] and [x[0]] on the column of one path. *)
Definition cell_len (c : cell) : result nat :=
  match c with
  | Array vs => Ok (length vs)
  | Scalar (VStr s) => Ok (String.length s)
  | Scalar _ => Raise (TypeError "object has no len()")
  end.

Definition cell_first (c : cell) : result cell :=
  match c with
  | Array (v :: _) => Ok (Scalar v)
  | Array [] => Raise IndexError
  | Scalar (VStr (String ch _)) => Ok (Scalar (VStr (String ch EmptyString)))
  | Scalar (VStr EmptyString) => Raise IndexError
  | Scalar _ => Raise (TypeError "object is not subscriptable")
  end.

(** [for col in self.annotations: if len(path[col]): path[col] = path[col][0]] *)
Fixpoint collapse_path (cols : list string) (path : gmap string cell)
  : result (gmap string cell) :=
  match cols with
  | [] => Ok path
  | col :: cols' =>
      match path !! col with
      | None => Raise (KeyError col)
      | Some c =>
          n ← cell_len c;
          if bool_decide (n ≠ 0%nat) then
            c0 ← cell_first c; collapse_path cols' (<[col := c0]> path)
          else collapse_path cols' path
      end
  end.

Definition collapse (cols : list string) (element : Element) : result Element :=
  match data element with
  | first :: _ =>
      if bool_decide (interface_datatype element = "multitabular") && is_dict first
      then with_data element <$>
             for_each (λ o, match o with
                            | DictData d => DictData <$> collapse_path cols d
                            | OtherData d => OtherData <$> collapse_path cols d
                            end) (data element)
      else Ok element
  | [] => Ok element
  end.

Definition PathAnnotator_update_element : M unit :=
  let! a := get in
  let! stream := getattr "_poly_stream" in
  let! stream := lift (as_stream stream "element") in
  let! element := lift (stream_element stream) in
  let! element := lift (collapse (columns_of (annotations (params a))) element) in
  discard_events (set_object element).

Definition _update_element : M unit :=
  let! a := get in
  match a_cls a with
  | PathAnnotator | PolyAnnotator => PathAnnotator_update_element
  | PointAnnotator | BoxAnnotator => Annotator_update_element
  end.

(** ** What the user does to a displayed annotator *)

(** Drawing or editing writes the stream's data, selecting writes the
    selection stream's index. *)
Definition user_draw (d : list object_data) (a : Annotator) : Annotator :=
  match attrs a !! "_stream" with
  | Some (OStream s) => set_attrs (<["_stream" := OStream (with_stream_data s d)]> (attrs a)) a
  | _ => a
  end.

Definition user_select (ix : list nat) (a : Annotator) : Annotator :=
  match attrs a !! "_selection" with
  | Some (OStream s) => set_attrs (<["_selection" := OStream (with_index s ix)]> (attrs a)) a
  | _ => a
  end.

(** ** [selected] *)

(** [[p for i, p in enumerate(parts) if i in index]] *)
Definition pick_selected (index : list nat) (parts : list Element) : list Element :=
  (imap (λ i p, (i, p)) parts) ≫= (λ ip, if bool_decide (ip.1 ∈ index) then [ip.2] else []).

Definition PathAnnotator_selected : M Element :=
  let! sel := getattr "_selection" in
  let! sel := lift (as_stream sel "index") in
  let index := s_index sel in
  let! stream := getattr "_stream" in
  let! stream := lift (as_stream stream "element") in
  let! element := lift (stream_element stream) in
  let data := pick_selected index (split element) in
  let! output := getattr "output" in
  let! output := lift (as_element output "clone") in
  ret (clone output data).

Definition PointAnnotator_selected : M Element :=
  let! obj := object_attr "iloc" in
  let! sel := getattr "_point_selection" in
  let! sel := lift (as_stream sel "index") in
  lift (iloc obj (s_index sel)).

Definition BoxAnnotator_selected : M Element := PathAnnotator_selected.

Definition selected : M Element :=
  let! a := get in
  match a_cls a with
  | PathAnnotator | PolyAnnotator => PathAnnotator_selected
  | PointAnnotator => PointAnnotator_selected
  | BoxAnnotator => BoxAnnotator_selected
  end.

End Annot.

(* ===================================================================== *)
(** * The AnnotationManager ([annotators.py]) *)
(* ===================================================================== *)

Module Manager.
Import Py Elem Annot.

(** ** The store *)

(** What can be handed to [add_layer]: an annotator (by reference), an
    element, or any other object. *)
Inductive Layer :=
| LAnnotator (id : nat)
| LElement (e : Element)
| LOther (v : value).

(** A manager instance.  [m_layers] is a reference to the list object that
    the [layers] parameter holds; [plot], [editor] and [layout] are [None]
    until [__init__] assigns them. *)
Record AnnotationManager := {
  m_layers : nat;
  m_opts : gmap string optval;
  m_table_opts : gmap string optval;
  m_plot : option Overlay;
  m_editor : option (list (string * Table));
  m_layout : option (list string);
}.

Definition set_plot (ov : Overlay) (m : AnnotationManager) : AnnotationManager :=
  {| m_layers := m_layers m; m_opts := m_opts m; m_table_opts := m_table_opts m;
     m_plot := Some ov; m_editor := m_editor m; m_layout := m_layout m |}.

Definition set_editor (ts : list (string * Table)) (m : AnnotationManager)
  : AnnotationManager :=
  {| m_layers := m_layers m; m_opts := m_opts m; m_table_opts := m_table_opts m;
     m_plot := m_plot m; m_editor := Some ts; m_layout := m_layout m |}.

Definition set_layout (items : list string) (m : AnnotationManager)
  : AnnotationManager :=
  {| m_layers := m_layers m; m_opts := m_opts m; m_table_opts := m_table_opts m;
     m_plot := m_plot m; m_editor := m_editor m; m_layout := Some items |}.

(** Python objects with identity: list objects, annotators and managers,
    each under the reference it was created with. *)
Record World := {
  lists : gmap nat (list Layer);
  annotators : gmap nat Annotator;
  managers : gmap nat AnnotationManager;
  next_ref : nat;
}.

Definition W (A : Type) : Type := World → result A * World.

Definition ret {A} (x : A) : W A := λ w, (Ok x, w).
Definition raise {A} (e : exn) : W A := λ w, (Raise e, w).
Definition bind {A B} (m : W A) (k : A → W B) : W B :=
  λ w, match m w with
       | (Ok x, w') => k x w'
       | (Raise e, w') => (Raise e, w')
       end.

#[local] Notation "'let!' x ':=' m 'in' k" := (bind m (λ x, k))
  (at level 10, x name, m at level 100, k at level 200).
#[local] Notation "m ';;;' k" := (bind m (λ _, k))
  (at level 100, k at level 200, right associativity).

Fixpoint for_ {A} (l : list A) (body : A → W unit) : W unit :=
  match l with
  | [] => ret tt
  | x :: l' => body x ;;; for_ l' body
  end.

Definition get_list (l : nat) : W (list Layer) :=
  λ w, match lists w !! l with
       | Some items => (Ok items, w)
       | None => (Raise (ReferenceError l), w)
       end.

Definition get_manager (m : nat) : W AnnotationManager :=
  λ w, match managers w !! m with
       | Some mg => (Ok mg, w)
       | None => (Raise (ReferenceError m), w)
       end.

Definition get_annotator (id : nat) : W Annotator :=
  λ w, match annotators w !! id with
       | Some a => (Ok a, w)
       | None => (Raise (ReferenceError id), w)
       end.

Definition put_list (l : nat) (items : list Layer) : W unit :=
  λ w, (Ok tt, {| lists := <[l := items]> (lists w); annotators := annotators w;
                  managers := managers w; next_ref := next_ref w |}).

Definition put_manager (m : nat) (mg : AnnotationManager) : W unit :=
  λ w, (Ok tt, {| lists := lists w; annotators := annotators w;
                  managers := <[m := mg]> (managers w); next_ref := next_ref w |}).

Definition put_annotator (id : nat) (a : Annotator) : W unit :=
  λ w, (Ok tt, {| lists := lists w; annotators := <[id := a]> (annotators w);
                  managers := managers w; next_ref := next_ref w |}).

(** A new reference. *)
Definition new_ref : W nat :=
  λ w, (Ok (next_ref w),
        {| lists := lists w; annotators := annotators w; managers := managers w;
           next_ref := S (next_ref w) |}).

(** Runs a method of the annotator behind a reference; what the method did
    to the instance stays, also when it raises. *)
Definition on_annotator {A} (id : nat) (method : Annot.M A) : W A :=
  let! a := get_annotator id in
  let '(r, a') := method a in
  put_annotator id a' ;;;
  match r with Ok x => ret x | Raise e => raise e end.

(** ** The parameter framework *)

(** The parameters an annotator class declares in this file, with [name],
    which every parameterized object has.  What the pane base class adds are
    layout and sizing parameters. *)
Definition declared_params (c : cls) : list string :=
  ["name"; "annotations"; "object"; "num_objects"; "opts"; "table_transforms";
   "table_opts"]
  ++ match c with
     | PathAnnotator | PolyAnnotator =>
         ["edit_vertices"; "show_vertices"; "vertex_annotations"; "vertex_style"]
     | PointAnnotator | BoxAnnotator => []
     end.

(** [obj.param.watch(callback, name)].  [validates] says whether the
    framework refuses a name that is not a declared parameter; the released
    framework does, and the properties below are settled for both. *)
Definition param_watch (validates : bool) (cb : callback) (pname : string)
  : Annot.M unit :=
  λ a, if validates && negb (bool_decide (pname ∈ declared_params (a_cls a)))
       then (Raise (ValueError (pname +:+ " parameter was not found in list of parameters of class")), a)
       else (Ok tt, set_watchers (watchers a ++ [{| w_name := pname; w_callback := cb |}]) a).

(** A parameter declared with [param.List].  [instantiate] says whether each
    instance receives its own deep copy of the default. *)
Record ListParameter := { default_ref : nat; instantiate : bool }.

(** The list object created by [default=[]] in the declaration of [layers],
    and the one created by [layers=[]] in the signature of [__init__]. *)
Definition layers_default_ref : nat := 0.
Definition init_default_ref : nat := 1.

(** [layers = param.List(default=[], doc=...)]: [instantiate] is not given
    and [param.List] defaults it to [True]. *)
Definition layers_param : ListParameter :=
  {| default_ref := layers_default_ref; instantiate := true |}.

(** The value an instance gets for the parameter at construction. *)
Definition instantiate_param (p : ListParameter) : W nat :=
  if instantiate p then
    let! items := get_list (default_ref p) in
    let! l := new_ref in
    put_list l items ;;;
    ret l
  else ret (default_ref p).

(** The store a program starts with: the two default lists, both empty. *)
Definition initial_world : World :=
  {| lists := <[layers_default_ref := []]> {[init_default_ref := []]};
     annotators := ∅; managers := ∅; next_ref := 2 |}.

(** Creating an annotator puts it in the store. *)
Definition new_annotator (c : cls) (name : string) (p : Params)
    (object : option Element) : W nat :=
  let! id := new_ref in
  let '(r, a) := Annotator_init c name p object in
  match r with
  | Ok _ => put_annotator id a ;;; ret id
  | Raise e => raise e
  end.

(** ** Methods of the manager *)

(** [_get_plot] *)
Definition _get_plot (m : nat) : W Overlay :=
  let! self := get_manager m in
  let! self_layers := get_list (m_layers self) in
  let! layers :=
    (fix loop (todo : list Layer) (layers : list Element) : W (list Element) :=
       match todo with
       | [] => ret layers
       | LAnnotator id :: todo' =>
           (* layers.append(layer.element) *)
           let! o := on_annotator id (getattr "element") in
           match o with
           | OElement e => loop todo' (layers ++ [e])
           | _ => raise (TypeError "layer is not an element")
           end
       | LElement e :: todo' => loop todo' (layers ++ [e])
       | LOther _ :: todo' => raise (TypeError "layer is not an element")
       end) self_layers [] in
  let overlay := {| ov_items := layers; ov_collated := false; ov_opts := ∅ |} in
  let overlay := if bool_decide (length layers ≠ 0%nat)
                 then {| ov_items := layers; ov_collated := true; ov_opts := ∅ |}
                 else overlay in
  ret {| ov_items := ov_items overlay; ov_collated := ov_collated overlay;
         ov_opts := m_opts self ∪ ov_opts overlay |}.

(** [_update_editor] *)
Definition _update_editor (m : nat) : W unit :=
  let! self := get_manager m in
  let! self_layers := get_list (m_layers self) in
  let! tables :=
    (fix loop (todo : list Layer) (tables : list (string * Table))
       : W (list (string * Table)) :=
       match todo with
       | [] => ret tables
       | LAnnotator id :: todo' =>
           let! o := on_annotator id (getattr "_tables") in
           match o with
           | OTables ts =>
               loop todo' (tables ++ ((λ nt, (nt.1, table_opts_apply nt.2 (m_table_opts self))) <$> ts))
           | _ => raise (TypeError "object is not iterable")
           end
       | _ :: todo' => loop todo' tables
       end) self_layers [] in
  (* self.editor[:] = tables *)
  let! self := get_manager m in
  match m_editor self with
  | Some _ => put_manager m (set_editor tables self)
  | None => raise (AttributeError "editor")
  end.

(** [self.param.trigger('layers')]: the watchers of [layers] run in the
    order they were set up, [_update_editor] (declared with [watch=True])
    and then the pane made by [ParamMethod(self._get_plot)], once it
    exists. *)
Definition trigger_layers (m : nat) : W unit :=
  _update_editor m ;;;
  let! self := get_manager m in
  match m_plot self with
  | Some _ => let! overlay := _get_plot m in
              let! self := get_manager m in
              put_manager m (set_plot overlay self)
  | None => ret tt
  end.

(** [add_layer] *)
Definition add_layer (validates : bool) (m : nat) (layer : Layer) : W unit :=
  match layer with
  | LAnnotator id =>
      (* layer.param.watch(lambda event: self.param.trigger('layers'), 'element') *)
      on_annotator id (param_watch validates (TriggerLayers m) "element")
  | LElement _ => ret tt
  | LOther _ =>
      raise (ValueError "Annotator layer must be a Annotator subclass or a HoloViews/GeoViews element.")
  end ;;;
  (* self.layers.append(layer) *)
  let! self := get_manager m in
  let! items := get_list (m_layers self) in
  put_list (m_layers self) (items ++ [layer]) ;;;
  trigger_layers m.

(** The [layers] argument of [__init__]: left out, or a list given by the
    caller. *)
Inductive layers_arg := Default | Given (layers : list Layer).

(** [__init__] *)
Definition AnnotationManager_init (validates : bool) (layers : layers_arg)
    (opts table_opts : gmap string optval) : W nat :=
  (* super().__init__: the instance gets its parameter values *)
  let! l := instantiate_param layers_param in
  let! m := new_ref in
  put_manager m {| m_layers := l; m_opts := opts; m_table_opts := table_opts;
                   m_plot := None; m_editor := None; m_layout := None |} ;;;
  let! layers := match layers with
                 | Default => get_list init_default_ref
                 | Given layers => ret layers
                 end in
  for_ layers (add_layer validates m) ;;;
  (* self.plot = ParamMethod(self._get_plot) *)
  let! overlay := _get_plot m in
  let! self := get_manager m in
  put_manager m (set_plot overlay self) ;;;
  (* self.editor = Tabs() *)
  let! self := get_manager m in
  put_manager m (set_editor [] self) ;;;
  _update_editor m ;;;
  let! self := get_manager m in
  put_manager m (set_layout ["plot"; "editor"] self) ;;;
  ret m.

Definition manager_default_opts : gmap string optval :=
  <["responsive" := OBool true]> {["min_height" := ONum 400]}.

Definition manager_default_table_opts : gmap string optval :=
  {["width" := ONum 400]}.

(** [self.layers] of a manager in a store. *)
Definition layers_of (w : World) (m : nat) : option (list Layer) :=
  mg ← managers w !! m; lists w !! m_layers mg.

(** ** Changes of an annotator's element *)

Definition run_callback (cb : callback) : W unit :=
  match cb with TriggerLayers m => trigger_layers m end.

(** [annotator.object = e] from outside the class.  With events batched the
    change is only queued; otherwise the watchers of [object] run, first the
    annotator's own [_initialize] (declared with [watch=True]), then those
    registered with [param.watch] under the name [object]. *)
Definition assign_object (id : nat) (e : Element) : W unit :=
  let! a := get_annotator id in
  if batch_watch a then on_annotator id (set_object e)
  else
    put_annotator id (set_object_field (Some e) a) ;;;
    on_annotator id (_initialize None) ;;;
    let! a := get_annotator id in
    for_ (filter (λ w, w_name w = "object") (watchers a))
      (λ w, run_callback (w_callback w)).

(** The user draws: the stream takes the new data and calls its
    subscribers. *)
Definition stream_edit (id : nat) (d : list object_data) : W unit :=
  let! a := get_annotator id in
  put_annotator id (user_draw d a) ;;;
  let! a := get_annotator id in
  match attrs a !! "_stream" with
  | Some (OStream s) =>
      for_ (s_subscribers s) (λ f, match f with
                                   | UpdateElement => on_annotator id _update_element
                                   end)
  | _ => ret tt
  end.

End Manager.

(* ===================================================================== *)
(** * Notions used to state the properties *)
(* ===================================================================== *)

Module Notions.
Import Py Elem Annot Manager.

(** ** Geometry *)

(** The corner arrays in the order [get_data] unpacks them: the element's
    dimensions 0..3, or 1, 0, 3, 2 when the plot's axes are inverted. *)
Definition corner_arrays {A} (invert_axes : bool) (k0 k1 k2 k3 : list A) :=
  if invert_axes then (k1, k0, k3, k2) else (k0, k1, k2, k3).

(** ** Annotators *)

(** Attribute names that methods of the file read from the instance and
    that no statement of the file assigns. *)
Definition unassigned : list string :=
  ["element"; "output"; "_poly_stream"; "_point_selection"].

(** An instance dictionary that holds none of them. *)
Definition clean (a : Annotator) : Prop :=
  Forall (λ n, attrs a !! n = None) unassigned.

(** How an invariant stands to the three kinds of writes a method makes:
    to one attribute, to the event state, to the [object] parameter. *)
Definition attr_stable (I : Annotator → Prop) (n : string) : Prop :=
  ∀ a o, I a → I (set_attrs (<[n := o]> (attrs a)) a).

Definition event_stable (I : Annotator → Prop) : Prop :=
  ∀ a b ev, I a → I (set_event_state b ev a).

Definition object_stable (I : Annotator → Prop) : Prop :=
  ∀ a e, I a → I (set_object_field (Some e) a).

(** A method keeps the invariant, whether it returns or raises. *)
Definition keeps (I : Annotator → Prop) {A} (m : M A) : Prop :=
  ∀ a r a', I a → m a = (r, a') → I a'.

(** The class and the parameters other than [object] are written by no
    method; a second invariant fixes the [object] as well. *)
Definition framed (c : cls) (p : Params) (a : Annotator) : Prop :=
  a_cls a = c ∧ params a = p.

Definition framed_object (c : cls) (p : Params) (o : option Element)
    (a : Annotator) : Prop :=
  a_cls a = c ∧ params a = p ∧ object a = o.

(** An annotator is built by the constructor and then changed only by
    assignments to its parameters, by its own methods and by the user's
    drawing and selecting. *)
Inductive reachable : Annotator → Prop :=
| reach_init c name p o a :
    Annotator_init c name p o = (Ok tt, a) → reachable a
| reach_set_params a p :
    reachable a → reachable (set_params p a)
| reach_set_object a o :
    reachable a → reachable (set_object_field o a)
| reach_initialize a o r a' :
    reachable a → _initialize o a = (r, a') → reachable a'
| reach_update_element a r a' :
    reachable a → _update_element a = (r, a') → reachable a'
| reach_draw a d :
    reachable a → reachable (user_draw d a)
| reach_select a ix :
    reachable a → reachable (user_select ix a).

(** Worked instances: annotators built with the class defaults, the path
    annotator with [annotations=['label']]. *)
Definition path_labelled : Params :=
  with_annotations (SList ["label"]) (default_params PathAnnotator).

Definition fresh_path_annotator : Annotator :=
  (Annotator_init PathAnnotator "PathAnnotator" path_labelled None).2.

Definition fresh_point_annotator : Annotator :=
  (Annotator_init PointAnnotator "PointAnnotator" (default_params PointAnnotator) None).2.

Definition fresh_box_annotator : Annotator :=
  (Annotator_init BoxAnnotator "BoxAnnotator" (default_params BoxAnnotator) None).2.

(** The column [col] is on the element and holds [v] on every object. *)
Definition filled (col : string) (v : value) (e : Element) : Prop :=
  contains e col = true ∧ Forall (λ o, fields o !! col = Some (Scalar v)) (data e).

(** The element the loops start from: the given one when it is of the
    annotator's element class, a newly constructed one otherwise. *)
Definition initial_element (c : cls) (o : option Element) : Element :=
  let datatype :=
    match c with
    | PathAnnotator | PolyAnnotator =>
        ["dataframe"; "dictionary"; "dask"; "array"; "multitabular"]
    | PointAnnotator | BoxAnnotator => class_datatype (element_type c)
    end in
  match o with
  | Some e => if isinstance e (element_type c) then e
              else construct (element_type c) o datatype
  | None => construct (element_type c) o datatype
  end.

(** A points element with one point at the origin, and a path element with
    one path of two vertices. *)
Definition one_point : Element :=
  {| el_type := Points; interface_datatype := "dictionary";
     kdims := ["x"; "y"]; vdims := [];
     data := [DictData (<["x" := Scalar (VInt 0)]> {["y" := Scalar (VInt 0)]})];
     el_opts := ∅ |}.

Definition one_path (extra : list (string * cell)) : Element :=
  {| el_type := Path; interface_datatype := "multitabular";
     kdims := ["x"; "y"]; vdims := extra.*1;
     data := [DictData (<["x" := Array [VInt 0; VInt 1]]>
                          (<["y" := Array [VInt 0; VInt 2]]> (list_to_map extra)))];
     el_opts := ∅ |}.

(** The Python type [str] used as a factory: calling it returns [""]. *)
Definition py_str : value := VCallable (VStr "").

Definition label_by_factory (c : cls) : Params :=
  with_annotations (SDict [("label", py_str)]) (default_params c).

(** [PointAnnotator(one_point, annotations={'label': str})] up to the call of
    [_init_element]. *)
Definition point_before_init : Annotator :=
  (PaneBase_init PointAnnotator "PointAnnotator" (label_by_factory PointAnnotator)
     (Some one_point)).2.

(** The [label] column of the object a constructor call leaves, object by
    object. *)
Definition label_of (r : result unit * Annotator) : option (list (option cell)) :=
  (λ e, (λ o, fields o !! "label") <$> data e) <$> object r.2.

(** One path whose label differs between its two vertices, and one whose
    label is the same on both. *)
Definition varying_label : Element :=
  one_path [("label", Array [VStr "a"; VStr "b"])].

Definition constant_label : Element :=
  one_path [("label", Array [VStr "a"; VStr "a"])].

(** The class of the validation error, and the validation error itself,
    whatever columns it names. *)
Definition is_ValueError (e : exn) : bool :=
  match e with ValueError _ => true | _ => false end.

Definition is_validation_error (e : exn) : Prop :=
  ∃ validate, e = validation_error validate.

(** The instance as [_init_element] finds it in the constructor. *)
Definition path_before_init (object : Element) : Annotator :=
  (setattr "_selection" (OStream (new_stream Selection1D None None None None None))
     (setattr "editor" (OTabs [])
        (setattr "_tables" (OTables [])
           (PaneBase_init PathAnnotator "PathAnnotator" path_labelled (Some object)).2).2).2).2.

(** The same instance had [self.element] been the element under
    validation. *)
Definition with_element_attr (object : Element) : Annotator :=
  (setattr "element" (OElement object) (path_before_init object)).2.

(** One path with two declared columns of which one varies, so that their
    numbers of distinct values differ. *)
Definition two_columns : Element :=
  one_path [("label", Array [VStr "a"; VStr "b"]); ("kind", Scalar (VStr "k"))].

Definition two_columns_before_init : Annotator :=
  set_params (with_annotations (SList ["label"; "kind"]) (default_params PathAnnotator))
    (with_element_attr two_columns).

(** The state [_initialize] leaves on success: the object is of the
    annotator's element class and has every declared column. *)
Definition annotated (c : cls) (p : Params) (a : Annotator) : Prop :=
  a_cls a = c ∧ params a = p
  ∧ ∃ e, object a = Some e
         ∧ isinstance e (element_type c) = true
         ∧ Forall (λ col, contains e col = true) (columns_of (annotations p))
         ∧ Forall (λ col, contains e col = true) (columns_of (vertex_annotations p)).

(** ** Managers *)

(** Stores in which the two default lists are empty and no reference at or
    past [next_ref] is in use. *)
Definition wf (w : World) : Prop :=
  lists w !! layers_default_ref = Some []
  ∧ lists w !! init_default_ref = Some []
  ∧ ∀ k, next_ref w ≤ k → lists w !! k = None ∧ managers w !! k = None.

(** A manager as [__init__] leaves it when no layers are given. *)
Definition empty_overlay (opts : gmap string optval) : Overlay :=
  {| ov_items := []; ov_collated := false; ov_opts := opts ∪ ∅ |}.

Definition fresh_manager (l : nat) (opts table_opts : gmap string optval)
  : AnnotationManager :=
  {| m_layers := l; m_opts := opts; m_table_opts := table_opts;
     m_plot := Some (empty_overlay opts); m_editor := Some [];
     m_layout := Some ["plot"; "editor"] |}.

(** Layer lists that hold elements only, and their elements. *)
Definition elements_only (items : list Layer) : Prop :=
  Forall (λ l, match l with LElement _ => True | _ => False end) items.

Definition elements_of (items : list Layer) : list Element :=
  items ≫= λ l, match l with LElement e => [e] | _ => [] end.

(** The overlay [_get_plot] returns for a list of elements. *)
Definition overlay_of (items : list Element) (opts : gmap string optval) : Overlay :=
  {| ov_items := items; ov_collated := bool_decide (length items ≠ 0%nat);
     ov_opts := opts ∪ ∅ |}.

(** Two managers made in a program's first store, under references 3 and 5
    (their lists under 2 and 4), and an element added to the first. *)
Definition two_managers (validates : bool) (e : Element) : World :=
  let w1 := (AnnotationManager_init validates Default manager_default_opts
               manager_default_table_opts initial_world).2 in
  let w2 := (AnnotationManager_init validates Default manager_default_opts
               manager_default_table_opts w1).2 in
  (add_layer validates 3 (LElement e) w2).2.

(** The claim as stated: the two managers hold one list object, and the
    element added to the first is among the layers of the second. *)
Definition share_layers (w : World) (m1 m2 : nat) (e : Element) : Prop :=
  (∃ l, m_layers <$> managers w !! m1 = Some l
        ∧ m_layers <$> managers w !! m2 = Some l)
  ∧ ∃ items, layers_of w m2 = Some items ∧ LElement e ∈ items.

(** A point annotator in the store, under reference 2, and a manager made
    after it, under reference 4. *)
Definition annotator_world : World :=
  (new_annotator PointAnnotator "PointAnnotator" (default_params PointAnnotator)
     None initial_world).2.

Definition managed_world (validates : bool) : World :=
  (AnnotationManager_init validates Default manager_default_opts
     manager_default_table_opts annotator_world).2.

(** The element an annotator of the store holds, and data a user draws. *)
Definition object_of (w : World) (id : nat) : option Element :=
  annotators w !! id ≫= object.

Definition drawn_point : list object_data :=
  [DictData (<["x" := Scalar (VInt 7)]> {["y" := Scalar (VInt 7)]})].

(** ** Further notions: geometry *)

(** Exchanging the x and y columns of a geometry element. *)
Definition swap_xy {A} (element : Geometry.GeomElement A) : Geometry.GeomElement A :=
  match Geometry.columns element with
  | k0 :: k1 :: k2 :: k3 :: rest =>
      {| Geometry.columns := k1 :: k0 :: k3 :: k2 :: rest |}
  | _ => element
  end.

(** Row [i] of a result on [int64] corners describes the rectangle between
    the corners [(a0, b0)] and [(a1, b1)]: the width and the height are the
    absolute differences, and the centre stands for the midpoint, which is
    the mean of the smaller and the larger coordinate. *)
Definition rectangle_at (d : Geometry.RectanglesPlot.data Z) (i : nat)
    (a0 b0 a1 b1 : Z) : Prop :=
  ∃ cx cy w h qx qy,
    Geometry.RectanglesPlot.x d !! i = Some cx
    ∧ Geometry.RectanglesPlot.y d !! i = Some cy
    ∧ Geometry.RectanglesPlot.width d !! i = Some w
    ∧ Geometry.RectanglesPlot.height d !! i = Some h
    ∧ (w = Z.abs (a1 - a0) ∧ 0 ≤ w ∧ h = Z.abs (b1 - b0) ∧ 0 ≤ h)%Z
    ∧ Numpy.float64_value cx = Some qx ∧ Numpy.float64_value cy = Some qy
    ∧ (qx == (inject_Z (Z.min a0 a1) + inject_Z (Z.max a0 a1)) / 2
       ∧ qy == (inject_Z (Z.min b0 b1) + inject_Z (Z.max b0 b1)) / 2
       ∧ qx == (inject_Z a0 + inject_Z a1) / 2
       ∧ qy == (inject_Z b0 + inject_Z b1) / 2)%Q.

(** Row [i] of a result on [int64] corners covers the box between the
    corners: centre minus (plus) half the width is the smaller (the larger)
    x coordinate, likewise for y and the height. *)
Definition covers_at (d : Geometry.RectanglesPlot.data Z) (i : nat)
    (a0 b0 a1 b1 : Z) : Prop :=
  ∃ cx cy w h qx qy,
    Geometry.RectanglesPlot.x d !! i = Some cx
    ∧ Geometry.RectanglesPlot.y d !! i = Some cy
    ∧ Geometry.RectanglesPlot.width d !! i = Some w
    ∧ Geometry.RectanglesPlot.height d !! i = Some h
    ∧ Numpy.float64_value cx = Some qx ∧ Numpy.float64_value cy = Some qy
    ∧ (qx - inject_Z w / 2 == inject_Z (Z.min a0 a1)
       ∧ qx + inject_Z w / 2 == inject_Z (Z.max a0 a1)
       ∧ qy - inject_Z h / 2 == inject_Z (Z.min b0 b1)
       ∧ qy + inject_Z h / 2 == inject_Z (Z.max b0 b1))%Q.

(** Two floats that are the same up to the sign of a zero, and two results
    on [float64] corners that are the same, row by row, up to that. *)
Definition float64_same (a b : Numpy.float64) : Prop :=
  a = b ∨ ((∃ s, a = S754_zero s) ∧ (∃ s, b = S754_zero s)).

Definition rect_data_same (d d' : Geometry.RectanglesPlot.data Numpy.float64) : Prop :=
  Forall2 float64_same (Geometry.RectanglesPlot.x d) (Geometry.RectanglesPlot.x d')
  ∧ Forall2 float64_same (Geometry.RectanglesPlot.y d) (Geometry.RectanglesPlot.y d')
  ∧ Forall2 float64_same (Geometry.RectanglesPlot.width d)
      (Geometry.RectanglesPlot.width d')
  ∧ Forall2 float64_same (Geometry.RectanglesPlot.height d)
      (Geometry.RectanglesPlot.height d').

(** The floats nearest to 0.1 and to 0.2. *)
Definition tenth : Numpy.float64 :=
  Numpy.float64_divide (Numpy.float64_of_int64 1) (Numpy.float64_of_int64 10).

Definition fifth : Numpy.float64 :=
  Numpy.float64_divide (Numpy.float64_of_int64 2) (Numpy.float64_of_int64 10).

(** ** Further notions: annotators *)

(** Events are being batched. *)
Definition batching (a : Annotator) : Prop := batch_watch a = true.

(** The tables of the point annotator built with the class defaults. *)
Definition fresh_point_tables : list (string * Table) :=
  match attrs fresh_point_annotator !! "_tables" with
  | Some (OTables ts) => ts
  | _ => []
  end.

(** The value a table shows for column [c] of the object [o]: the first of
    the distinct values the column has on it. *)
Definition first_distinct (o : object_data) (c : string) (v : value) : Prop :=
  ∃ cell, fields o !! c = Some cell ∧ head (unique_values cell) = Some v.

(** The values of a column, object by object. *)
Definition column (e : Element) (c : string) : list (option cell) :=
  (λ o, fields o !! c) <$> data e.

(** Same class, key dimensions and number of objects, and the same values in
    every column of the first element. *)
Definition extends (e e' : Element) : Prop :=
  el_type e' = el_type e ∧ kdims e' = kdims e
  ∧ length (data e') = length (data e)
  ∧ ∀ c, contains e c = true → contains e' c = true ∧ column e' c = column e c.

(** [PathAnnotator(one_path, annotations={'label': str})] up to the call of
    [_init_element]. *)
Definition path_by_factory : Annotator :=
  (PaneBase_init PathAnnotator "PathAnnotator" (label_by_factory PathAnnotator)
     (Some (one_path []))).2.

(** A point annotator whose [opts] name [tools], up to the call of
    [_init_element]. *)
Definition point_with_tools : Annotator :=
  (PaneBase_init PointAnnotator "PointAnnotator"
     {| annotations := SList []; num_objects := None;
        opts := <["tools" := OTools ["hover"]]> (default_opts PointAnnotator);
        table_transforms := []; table_opts := {["editable" := OBool true]};
        edit_vertices := true; show_vertices := true;
        vertex_annotations := SList [];
        vertex_style := {["nonselection_alpha" := ONum (1 # 2)]};
        _tools := []; _extra_opts := ∅ |} None).2.

(** Two columns declared on a point annotator. *)
Definition two_annotations : Annotator :=
  set_params (with_annotations (SList ["first"; "second"]) (default_params PointAnnotator))
    point_before_init.

(** The value a list spec gives a new column, by class. *)
Definition list_default (c : cls) : value :=
  match c with
  | PathAnnotator | PolyAnnotator => VStr ""
  | PointAnnotator | BoxAnnotator => VNone
  end.

(** The options the point and box annotators put on their object:
    [dict(tools=tools, **self.opts)] updated with [self._extra_opts]. *)
Definition point_options (p : Params) : gmap string optval :=
  _extra_opts p ∪ (opts p ∪ list_to_map [("tools", OTools (_tools p))]).

(** An [object] argument the pane base class takes. *)
Definition accepted (c : cls) (o : option Element) : Prop :=
  match o with Some e => isinstance e (element_type c) = true | None => True end.

(** An object that [_init_element] of the point and box annotators stores
    again as it is: of the element class, with every declared column and
    with the annotator's options. *)
Definition settled (a : Annotator) (obj : Element) : Prop :=
  isinstance obj (element_type (a_cls a)) = true
  ∧ Forall (λ c, contains obj c = true) (columns_of (annotations (params a)))
  ∧ options obj (point_options (params a)) = obj.

(** The edit stream and the selection stream draw from the annotator's
    object, the edit stream calls [_update_element] and nothing else, and
    the editor shows the annotator's tables. *)
Definition wired (a : Annotator) : Prop :=
  ∃ stream sel tables,
    attrs a !! "_stream" = Some (OStream stream)
    ∧ s_source stream = object a
    ∧ s_subscribers stream = [UpdateElement]
    ∧ attrs a !! "_selection" = Some (OStream sel)
    ∧ s_source sel = object a
    ∧ attrs a !! "_tables" = Some (OTables tables)
    ∧ attrs a !! "editor" = Some (OTabs tables).

End Notions.

(* ===================================================================== *)
(** * Properties of the geometry adapters *)
(* ===================================================================== *)

Module GeometryFacts.
Import Numpy Geometry Notions.

Lemma unpack_dims_four {A} (inv : bool) (k0 k1 k2 k3 : list A) (rest : list (list A)) :
  unpack_dims inv {| columns := k0 :: k1 :: k2 :: k3 :: rest |} =
  Some (if inv then (k1, k0, k3, k2) else (k0, k1, k2, k3)).
Proof. by destruct inv. Qed.

(** C7.  For an element with four key dimensions, [SegmentPlot.get_data]
    with [invert_axes=True] returns [x0] from dimension 1, [y0] from
    dimension 0, [x1] from dimension 3 and [y1] from dimension 2, that is
    the result for [invert_axes=False] with the x and y arrays of each
    endpoint exchanged; the arrays themselves, the mapping and the style are
    passed through untouched. *)
Theorem SegmentPlot_get_data_invert_swaps {A Style}
    (k0 k1 k2 k3 : list A) (rest : list (list A)) (style : Style) :
  let element := {| columns := k0 :: k1 :: k2 :: k3 :: rest |} in
  ∃ d d',
    SegmentPlot.get_data false element style = Some (d, SegmentPlot.mapping, style)
    ∧ SegmentPlot.get_data true element style = Some (d', SegmentPlot.mapping, style)
    ∧ d = {| SegmentPlot.x0 := k0; SegmentPlot.x1 := k2;
             SegmentPlot.y0 := k1; SegmentPlot.y1 := k3 |}
    ∧ d' = {| SegmentPlot.x0 := k1; SegmentPlot.x1 := k3;
              SegmentPlot.y0 := k0; SegmentPlot.y1 := k2 |}
    ∧ SegmentPlot.x0 d' = SegmentPlot.y0 d ∧ SegmentPlot.y0 d' = SegmentPlot.x0 d
    ∧ SegmentPlot.x1 d' = SegmentPlot.y1 d ∧ SegmentPlot.y1 d' = SegmentPlot.x1 d.
Proof.
  intros element. unfold SegmentPlot.get_data, element.
  rewrite !unpack_dims_four. simpl. eexists _, _. by split_and!.
Qed.

(** ** Integers as floats *)
Section float_of_int.
Local Open Scope Z_scope.

Lemma wrap64_small (z : Z) : - 2 ^ 63 ≤ z < 2 ^ 63 → wrap64 z = z.
Proof. intros Hz. unfold wrap64. rewrite Z.mod_small; lia. Qed.

Lemma digits2_pos_iter_xO p k :
  Zpos (digits2_pos (Pos.iter xO p k)) = Zpos (digits2_pos p) + Zpos k.
Proof.
  induction k as [|k IH] using Pos.peano_ind.
  - simpl. lia.
  - rewrite Pos.iter_succ. simpl. lia.
Qed.

Lemma Zpos_iter_xO p k : Zpos (Pos.iter xO p k) = Zpos p * 2 ^ Zpos k.
Proof.
  induction k as [|k IH] using Pos.peano_ind.
  - simpl. lia.
  - rewrite Pos.iter_succ, Pos2Z.inj_xO, IH, Pos2Z.inj_succ, Z.pow_succ_r by lia. lia.
Qed.

Lemma digits2_pos_lower p : 2 ^ (Zpos (digits2_pos p) - 1) ≤ Zpos p.
Proof.
  induction p as [p IH|p IH|]; simpl digits2_pos.
  - rewrite Pos2Z.inj_succ.
    replace (Z.succ (Zpos (digits2_pos p)) - 1) with (Z.succ (Zpos (digits2_pos p) - 1)) by lia.
    rewrite Z.pow_succ_r by lia. lia.
  - rewrite Pos2Z.inj_succ.
    replace (Z.succ (Zpos (digits2_pos p)) - 1) with (Z.succ (Zpos (digits2_pos p) - 1)) by lia.
    rewrite Z.pow_succ_r by lia. lia.
  - simpl. lia.
Qed.

Lemma digits2_pos_small p : Zpos p < 2 ^ 53 → Zpos (digits2_pos p) ≤ 53.
Proof.
  intros Hp. destruct (Z_le_gt_dec (Zpos (digits2_pos p)) 53) as [|Hd]; [done|].
  pose proof (digits2_pos_lower p).
  assert (2 ^ 53 ≤ 2 ^ (Zpos (digits2_pos p) - 1)) by (apply Z.pow_le_mono_r; lia).
  lia.
Qed.

Lemma Qpower_two k : 0 ≤ k → (Qpower 2 k == inject_Z (2 ^ k))%Q.
Proof. intros Hk. by rewrite Zpower_Qpower. Qed.

Lemma Qpower_two_nonzero k : 0 ≤ k → ¬ (inject_Z (2 ^ k) == 0)%Q.
Proof.
  intros Hk. change 0%Q with (inject_Z 0). rewrite inject_Z_injective.
  pose proof (Z.pow_pos_nonneg 2 k). lia.
Qed.

(** A mantissa of 53 digits with an exponent in range is left as it is. *)
Lemma binary_round_aux_canonical s m e :
  Zpos (digits2_pos m) = 53 → (-1074 ≤ e ∧ e ≤ 971) →
  binary_round_aux 53 1024 s (Zpos m) e loc_Exact = S754_finite s m e.
Proof.
  intros Hd He. unfold binary_round_aux, shr_fexp. cbn [Zdigits2].
  rewrite Hd.
  assert (fexp 53 1024 (53 + e) - e = 0) as -> by (unfold fexp, emin; lia).
  cbn [shr shr_record_of_loc loc_of_shr_record shr_m round_nearest_even Zdigits2].
  rewrite Hd.
  assert (fexp 53 1024 (53 + e) - e = 0) as -> by (unfold fexp, emin; lia).
  cbn [shr shr_record_of_loc shr_m].
  assert ((e <=? 1024 - 53) = true) as -> by (apply Z.leb_le; lia).
  done.
Qed.

(** The float of a positive integer below [2^53] stands for that integer. *)
Lemma binary_round_small s p :
  Zpos p < 2 ^ 53 →
  ∃ m e, binary_round 53 1024 s p 0 = S754_finite s m e
         ∧ Zpos (digits2_pos m) = 53 ∧ (-52 ≤ e ∧ e ≤ 0)
         ∧ (inject_Z (Zpos m) * Qpower 2 e == inject_Z (Zpos p))%Q.
Proof.
  intros Hp. pose proof (digits2_pos_small p Hp) as Hd.
  unfold binary_round, shl_align.
  assert (fexp 53 1024 (Zpos (digits2_pos p) + 0) = Zpos (digits2_pos p) - 53) as ->
    by (unfold fexp, emin; lia).
  destruct (Zpos (digits2_pos p) - 53 - 0) as [|k|k] eqn:Hk; [|lia|].
  - exists p, 0. rewrite binary_round_aux_canonical by lia.
    split; [done|]. split; [lia|]. split; [lia|]. simpl. ring.
  - exists (Pos.iter xO p k), (Zpos (digits2_pos p) - 53).
    rewrite binary_round_aux_canonical; [|rewrite digits2_pos_iter_xO; lia|lia].
    split; [done|]. split; [rewrite digits2_pos_iter_xO; lia|]. split; [lia|].
    rewrite Zpos_iter_xO.
    assert (Zpos (digits2_pos p) - 53 = - Zpos k) as -> by lia.
    rewrite inject_Z_mult, Qpower_opp, (Qpower_two (Zpos k)) by lia.
    field. apply Qpower_two_nonzero. lia.
Qed.

Lemma two_eq : two = S754_finite false 4503599627370496 (-51).
Proof. reflexivity. Qed.

Lemma div_eucl_shift m : Z.div_eucl (Z.shiftl (Zpos m) 53) 4503599627370496 = (Zpos m~0, 0).
Proof.
  rewrite Z.shiftl_mul_pow2 by lia.
  pose proof (Z_div_mod (Zpos m * 2 ^ 53) 4503599627370496 ltac:(lia)) as H.
  destruct (Z.div_eucl (Zpos m * 2 ^ 53) 4503599627370496) as [q r].
  destruct H as [H1 H2].
  assert (q = Zpos m~0 ∧ r = 0) as [-> ->]; [|done].
  change (2 ^ 53) with (2 * 4503599627370496) in H1. lia.
Qed.

(** Halving a float whose exponent is far from the subnormal range is
    exact: the mantissa stays, the exponent goes down by one. *)
Lemma float64_divide_two s m e :
  Zpos (digits2_pos m) = 53 → (-52 ≤ e ∧ e ≤ 0) →
  float64_divide (S754_finite s m e) two = S754_finite s m (e - 1).
Proof.
  intros Hd He. rewrite two_eq. unfold float64_divide, SFdiv, SFdiv_core_binary.
  cbn [Zdigits2]. rewrite Hd.
  change (Zpos (digits2_pos 4503599627370496)) with 53.
  assert (Z.min (fexp 53 1024 (53 + e - (53 + -51))) (e - -51) = e - 2) as ->
    by (unfold fexp, emin; lia).
  assert (e - -51 - (e - 2) = 53) as -> by lia.
  rewrite div_eucl_shift.
  change (new_location 4503599627370496 0) with loc_Exact.
  unfold binary_round_aux, shr_fexp. cbn [Zdigits2 digits2_pos].
  rewrite Pos2Z.inj_succ, Hd.
  assert (fexp 53 1024 (Z.succ 53 + (e - 2)) - (e - 2) = 1) as ->
    by (unfold fexp, emin; lia).
  cbn [shr shr_record_of_loc SpecFloat.iter_pos shr_1 loc_of_shr_record shr_m
       round_nearest_even orb Zdigits2].
  rewrite Hd.
  assert (fexp 53 1024 (53 + (e - 2 + 1)) - (e - 2 + 1) = 0) as ->
    by (unfold fexp, emin; lia).
  cbn [shr shr_record_of_loc shr_m].
  assert ((e - 2 + 1 <=? 1024 - 53) = true) as -> by (apply Z.leb_le; lia).
  rewrite xorb_false_r. f_equal. lia.
Qed.

(** [n / 2.] is exact for an integer below [2^53] in absolute value. *)
Lemma half_of_int_exact (n : Z) :
  Z.abs n < 2 ^ 53 →
  ∃ q, float64_value (float64_divide (float64_of_int64 n) two) = Some q
       ∧ (q == inject_Z n / 2)%Q.
Proof.
  intros Hn. unfold float64_of_int64, binary_normalize.
  destruct n as [|p|p].
  - exists 0%Q. split; [done|]. reflexivity.
  - destruct (binary_round_small false p) as (m & e & -> & Hd & He & Hv); [lia|].
    rewrite float64_divide_two by done. eexists. split; [reflexivity|].
    simpl. rewrite <- Hv.
    assert (Qpower 2 (e - 1) == Qpower 2 e / 2)%Q as ->.
    { unfold Z.sub. rewrite Qpower_plus by done. reflexivity. }
    field.
  - destruct (binary_round_small true p) as (m & e & -> & Hd & He & Hv); [lia|].
    rewrite float64_divide_two by done. eexists. split; [reflexivity|].
    simpl.
    assert (inject_Z (Z.neg p) == - inject_Z (Zpos p))%Q as -> by reflexivity.
    rewrite <- Hv.
    assert (Qpower 2 (e - 1) == Qpower 2 e / 2)%Q as ->.
    { unfold Z.sub. rewrite Qpower_plus by done. reflexivity. }
    field.
Qed.

(** One pair of [int64] coordinates: the centre and the size computed from
    the larger and the smaller one. *)
Lemma half_sum_int64 (a b : Z) :
  Z.abs (a + b) < 2 ^ 53 → Z.abs (b - a) < 2 ^ 63 →
  ∃ q, float64_value (RectanglesPlot.half_sum (Z.max a b) (Z.min a b)) = Some q
       ∧ (q == (inject_Z a + inject_Z b) / 2)%Q.
Proof.
  intros Hs Hd. unfold RectanglesPlot.half_sum. cbn [np_add np_float64 int64].
  assert (Z.max a b + Z.min a b = a + b) as -> by lia.
  rewrite wrap64_small by lia.
  destruct (half_of_int_exact (a + b) Hs) as (q & Hq & Hv).
  exists q. split; [done|]. by rewrite Hv, inject_Z_plus.
Qed.

Lemma subtract_int64 (a b : Z) :
  Z.abs (b - a) < 2 ^ 63 →
  np_subtract (Z.max a b) (Z.min a b) = Z.abs (b - a).
Proof.
  intros Hd. cbn [np_subtract int64]. rewrite wrap64_small by lia. lia.
Qed.

Lemma min_plus_max (a b : Z) :
  ((inject_Z (Z.min a b) + inject_Z (Z.max a b)) / 2 == (inject_Z a + inject_Z b) / 2)%Q.
Proof.
  rewrite <- !inject_Z_plus.
  assert (Z.min a b + Z.max a b = a + b) as -> by lia. reflexivity.
Qed.

End float_of_int.

(** ** Rectangles on integer corners *)

Lemma rectangle_row (i : nat) (u0 v0 u1 v1 : list Z) (a0 b0 a1 b1 : Z) :
  u0 !! i = Some a0 → v0 !! i = Some b0 → u1 !! i = Some a1 → v1 !! i = Some b1 →
  (Z.abs (a1 - a0) < 2 ^ 63)%Z → (Z.abs (b1 - b0) < 2 ^ 63)%Z →
  (Z.abs (a0 + a1) < 2 ^ 53)%Z → (Z.abs (b0 + b1) < 2 ^ 53)%Z →
  rectangle_at
    {| RectanglesPlot.x := zip_with RectanglesPlot.half_sum
                             (RectanglesPlot.np_max u0 u1) (RectanglesPlot.np_min u0 u1);
       RectanglesPlot.y := zip_with RectanglesPlot.half_sum
                             (RectanglesPlot.np_max v0 v1) (RectanglesPlot.np_min v0 v1);
       RectanglesPlot.width := zip_with np_subtract
                                 (RectanglesPlot.np_max u0 u1) (RectanglesPlot.np_min u0 u1);
       RectanglesPlot.height := zip_with np_subtract
                                  (RectanglesPlot.np_max v0 v1) (RectanglesPlot.np_min v0 v1) |}
    i a0 b0 a1 b1.
Proof.
  intros Ha0 Hb0 Ha1 Hb1 Hw Hh Hx Hy.
  destruct (half_sum_int64 a0 a1 Hx Hw) as (qx & Hqx & Hvx).
  destruct (half_sum_int64 b0 b1 Hy Hh) as (qy & Hqy & Hvy).
  unfold rectangle_at, RectanglesPlot.np_min, RectanglesPlot.np_max.
  cbn [RectanglesPlot.x RectanglesPlot.y RectanglesPlot.width RectanglesPlot.height].
  rewrite !lookup_zip_with, Ha0, Hb0, Ha1, Hb1. cbn [mbind option_bind np_maximum np_minimum int64].
  eexists _, _, _, _, qx, qy. split_and!; try reflexivity; try done.
  - by apply subtract_int64.
  - rewrite subtract_int64 by done. lia.
  - by apply subtract_int64.
  - rewrite subtract_int64 by done. lia.
  - by rewrite min_plus_max.
  - by rewrite min_plus_max.
Qed.




Example RectanglesPlot_swapped_corners :
  RectanglesPlot.get_data false {| columns := [[4]; [5]; [1]; [1]]%Z |} tt =
  RectanglesPlot.get_data false {| columns := [[1]; [1]; [4]; [5]]%Z |} tt.
Proof. reflexivity. Qed.

(** On [float64] corners the sum is rounded before it is halved: between
    the floats nearest to 0.1 and 0.2 the centre is not the midpoint of the
    two. *)
Example RectanglesPlot_float64_centre_rounded :
  ∃ d cx qx q0 q1,
    RectanglesPlot.get_data false {| columns := [[tenth]; [tenth]; [fifth]; [fifth]] |} tt
      = Some (d, RectanglesPlot.mapping, tt)
    ∧ RectanglesPlot.x d !! 0%nat = Some cx
    ∧ float64_value cx = Some qx
    ∧ float64_value tenth = Some q0 ∧ float64_value fifth = Some q1
    ∧ ¬ (qx == (q0 + q1) / 2)%Q.
Proof.
  eexists _, _, _, _, _. split_and!; [vm_compute; reflexivity..|].
  intros H. vm_compute in H. discriminate H.
Qed.

(** ** Fewer than four dimensions *)

Lemma unpack_dims_is_Some {A} (inv : bool) (element : GeomElement A) :
  is_Some (unpack_dims inv element) ↔ (4 ≤ length (columns element))%nat.
Proof.
  destruct element as [cols]. unfold unpack_dims, dimension_values. cbn [columns].
  destruct cols as [|k0 [|k1 [|k2 [|k3 rest]]]]; destruct inv; simpl;
    split; intros H; try lia; try (by apply is_Some_None in H); eauto.
Qed.

(** X1.  Both [get_data] methods unpack exactly the element's dimensions
    0 to 3: they return a result exactly when the element has at least four
    dimensions, whatever [invert_axes] and the arrays' element type are;
    with fewer, the lookup of a missing dimension fails. *)
Theorem get_data_needs_four_dimensions {A Style} `{Dtype B} (invert_axes : bool)
    (segments : GeomElement A) (rectangles : GeomElement B) (style : Style) :
  (is_Some (SegmentPlot.get_data invert_axes segments style)
   ↔ (4 ≤ length (columns segments))%nat)
  ∧ (is_Some (RectanglesPlot.get_data invert_axes rectangles style)
     ↔ (4 ≤ length (columns rectangles))%nat).
Proof.
  split.
  - rewrite <- (unpack_dims_is_Some invert_axes). unfold SegmentPlot.get_data.
    destruct (unpack_dims invert_axes segments) as [[[[??]?]?]|]; simpl;
      split; intros Hs; eauto; by apply is_Some_None in Hs.
  - rewrite <- (unpack_dims_is_Some invert_axes). unfold RectanglesPlot.get_data.
    destruct (unpack_dims invert_axes rectangles) as [[[[??]?]?]|]; simpl;
      split; intros Hs; eauto; by apply is_Some_None in Hs.
Qed.

(** ** Inverted axes *)

Lemma unpack_dims_swap_xy {A} (inv : bool) (element : GeomElement A) :
  unpack_dims inv (swap_xy element) = unpack_dims (negb inv) element.
Proof.
  destruct element as [cols]. unfold swap_xy. cbn [columns].
  destruct cols as [|k0 [|k1 [|k2 [|k3 rest]]]]; by destruct inv.
Qed.

(** X2.  For both plots and every element type of the arrays,
    [invert_axes] is the same as exchanging the x and y column of each
    endpoint (or corner) in the element: [get_data] on the exchanged element
    equals [get_data] with the flag flipped on the original one, also when
    the element has too few dimensions.  Exchanging twice gives the element
    back. *)
Theorem invert_axes_is_swap_xy {A Style} `{Dtype B} (invert_axes : bool)
    (segments : GeomElement A) (rectangles : GeomElement B) (style : Style) :
  SegmentPlot.get_data invert_axes (swap_xy segments) style
    = SegmentPlot.get_data (negb invert_axes) segments style
  ∧ RectanglesPlot.get_data invert_axes (swap_xy rectangles) style
    = RectanglesPlot.get_data (negb invert_axes) rectangles style
  ∧ swap_xy (swap_xy segments) = segments.
Proof.
  split_and!.
  - unfold SegmentPlot.get_data. by rewrite unpack_dims_swap_xy.
  - unfold RectanglesPlot.get_data. by rewrite unpack_dims_swap_xy.
  - destruct segments as [cols]. unfold swap_xy. cbn [columns].
    by destruct cols as [|k0 [|k1 [|k2 [|k3 rest]]]].
Qed.

(** ** Order of the corners *)

Lemma min_max_comm {B} (g : Z → Z → B) (u v : list Z) :
  zip_with g (RectanglesPlot.np_max u v) (RectanglesPlot.np_min u v)
  = zip_with g (RectanglesPlot.np_max v u) (RectanglesPlot.np_min v u).
Proof.
  unfold RectanglesPlot.np_max, RectanglesPlot.np_min. cbn [np_maximum np_minimum int64].
  revert v. induction u as [|a u IH]; intros [|b v]; simpl; try done.
  by rewrite IH, (Z.max_comm a b), (Z.min_comm a b).
Qed.

(** The order of floats: comparing the other way round gives the opposite
    answer, only a NaN is not comparable, and equal floats are the same up
    to the sign of a zero. *)
Lemma SFcompare_antisym (a b : float64) c :
  SFcompare a b = Some c → SFcompare b a = Some (CompOpp c).
Proof.
  destruct a as [s|s| |s m e], b as [s'|s'| |s' m' e']; simpl; try done;
    try (intros [= <-]; by destruct s; try destruct s').
  intros [= <-]. f_equal.
  change (Pos.compare_cont Eq m' m) with (Pos.compare m' m).
  change (Pos.compare_cont Eq m m') with (Pos.compare m m').
  rewrite (Z.compare_antisym e e'), (Pos.compare_antisym m m').
  destruct s, s'; try done; destruct (e ?= e')%Z; simpl; try done;
    by destruct (m ?= m')%positive.
Qed.

Lemma SFcompare_Eq (a b : float64) : SFcompare a b = Some Eq → float64_same a b.
Proof.
  destruct a as [s|s| |s m e], b as [s'|s'| |s' m' e']; simpl; try done;
    try (intros _; right; by eauto);
    try (by destruct s; try destruct s'; intros [=]; left).
  change (Pos.compare_cont Eq m m') with (Pos.compare m m').
  intros [= H]. left.
  destruct s, s'; try done; destruct (Z.compare_spec e e') as [->| |]; try done.
  - destruct (Pos.compare_spec m m') as [->| |]; done.
  - destruct (Pos.compare_spec m m') as [->| |]; done.
Qed.

Lemma SFcompare_None (a b : float64) :
  SFcompare a b = None → a = S754_nan ∨ b = S754_nan.
Proof. destruct a, b; simpl; try done; auto. Qed.

Lemma float64_same_refl (a : float64) : float64_same a a.
Proof. by left. Qed.

(** The larger and the smaller of two floats, taken in either order. *)
Lemma float64_min_max_comm (g : float64 → float64 → float64) (a b : float64) :
  (∀ s s', float64_same (g (S754_zero s) (S754_zero s)) (g (S754_zero s') (S754_zero s'))) →
  float64_same (g (float64_maximum a b) (float64_minimum a b))
               (g (float64_maximum b a) (float64_minimum b a)).
Proof.
  intros Hzero. unfold float64_maximum, float64_minimum, SFleb.
  destruct (SFcompare a b) as [c|] eqn:Hab.
  - rewrite (SFcompare_antisym a b c Hab).
    assert (float64_isnan a = false ∧ float64_isnan b = false) as [-> ->].
    { destruct a, b; simpl in *; done. }
    destruct c; simpl; try apply float64_same_refl.
    destruct (SFcompare_Eq a b Hab) as [->|[[s ->] [s' ->]]];
      [apply float64_same_refl|apply Hzero].
  - assert (SFcompare b a = None) as ->.
    { destruct a, b; simpl in *; done. }
    apply SFcompare_None in Hab as [-> | ->]; simpl.
    + destruct b; simpl; apply float64_same_refl.
    + destruct a; simpl; apply float64_same_refl.
Qed.

Lemma float64_rows_comm (g : float64 → float64 → float64) (u v : list float64) :
  (∀ s s', float64_same (g (S754_zero s) (S754_zero s)) (g (S754_zero s') (S754_zero s'))) →
  Forall2 float64_same
    (zip_with g (RectanglesPlot.np_max u v) (RectanglesPlot.np_min u v))
    (zip_with g (RectanglesPlot.np_max v u) (RectanglesPlot.np_min v u)).
Proof.
  intros Hzero. unfold RectanglesPlot.np_max, RectanglesPlot.np_min.
  cbn [np_maximum np_minimum float64_dtype].
  revert v. induction u as [|a u IH]; intros [|b v]; simpl; try constructor.
  - by apply float64_min_max_comm.
  - apply IH.
Qed.

Lemma half_sum_zero (s s' : bool) :
  float64_same (RectanglesPlot.half_sum (S754_zero s) (S754_zero s))
               (RectanglesPlot.half_sum (S754_zero s') (S754_zero s')).
Proof. right. destruct s, s'; split; by eexists. Qed.

Lemma subtract_zero (s s' : bool) :
  float64_same (np_subtract (S754_zero s) (S754_zero s))
               (np_subtract (S754_zero s') (S754_zero s')).
Proof. left. by destruct s, s'. Qed.

Lemma Forall2_float64_same_refl (l : list float64) : Forall2 float64_same l l.
Proof. induction l; constructor; [apply float64_same_refl|done]. Qed.

(** X3.  The rectangle data does not depend on which two opposite corners
    the element lists, nor in which order: exchanging the two x columns, the
    two y columns, or both, gives on [int64] corners the same centres,
    widths and heights, and on [float64] corners the same up to the sign of
    a zero, row by row. *)
Theorem RectanglesPlot_corner_order {Style} (invert_axes : bool) (style : Style) :
  (∀ (k0 k1 k2 k3 : list Z) (rest : list (list Z)),
     ∃ d,
       RectanglesPlot.get_data invert_axes
         {| columns := k0 :: k1 :: k2 :: k3 :: rest |} style
         = Some (d, RectanglesPlot.mapping, style)
       ∧ RectanglesPlot.get_data invert_axes
           {| columns := k2 :: k1 :: k0 :: k3 :: rest |} style
         = Some (d, RectanglesPlot.mapping, style)
       ∧ RectanglesPlot.get_data invert_axes
           {| columns := k0 :: k3 :: k2 :: k1 :: rest |} style
         = Some (d, RectanglesPlot.mapping, style)
       ∧ RectanglesPlot.get_data invert_axes
           {| columns := k2 :: k3 :: k0 :: k1 :: rest |} style
         = Some (d, RectanglesPlot.mapping, style))
  ∧ (∀ (k0 k1 k2 k3 : list float64) (rest : list (list float64)),
       ∃ d dx dy dxy,
         RectanglesPlot.get_data invert_axes
           {| columns := k0 :: k1 :: k2 :: k3 :: rest |} style
           = Some (d, RectanglesPlot.mapping, style)
         ∧ RectanglesPlot.get_data invert_axes
             {| columns := k2 :: k1 :: k0 :: k3 :: rest |} style
           = Some (dx, RectanglesPlot.mapping, style)
         ∧ RectanglesPlot.get_data invert_axes
             {| columns := k0 :: k3 :: k2 :: k1 :: rest |} style
           = Some (dy, RectanglesPlot.mapping, style)
         ∧ RectanglesPlot.get_data invert_axes
             {| columns := k2 :: k3 :: k0 :: k1 :: rest |} style
           = Some (dxy, RectanglesPlot.mapping, style)
         ∧ rect_data_same d dx ∧ rect_data_same d dy ∧ rect_data_same d dxy).
Proof.
  split; intros k0 k1 k2 k3 rest.
  - unfold RectanglesPlot.get_data. rewrite !unpack_dims_four.
    destruct invert_axes; cbn [mbind option_bind]; eexists;
      (split; [reflexivity|]); split_and!; do 3 f_equal;
      first [ reflexivity
            | f_equal; apply min_max_comm
            | by rewrite !(min_max_comm _ k2 k0), ?(min_max_comm _ k3 k1) ].
  - unfold RectanglesPlot.get_data. rewrite !unpack_dims_four.
    destruct invert_axes; cbn [mbind option_bind]; eexists _, _, _, _;
      (split_and!; [reflexivity..| | |]); unfold rect_data_same;
      cbn [RectanglesPlot.x RectanglesPlot.y RectanglesPlot.width RectanglesPlot.height];
      split_and!;
      first [ apply Forall2_float64_same_refl
            | apply float64_rows_comm, half_sum_zero
            | apply float64_rows_comm, subtract_zero ].
Qed.

(** ** The corners from the centre and the size *)

Lemma abs_diff_min (a b : Z) :
  (inject_Z (Z.abs (b - a)) == inject_Z a + inject_Z b - 2 * inject_Z (Z.min a b))%Q.
Proof. unfold Qeq, Qminus, Qplus, Qmult, Qopp, inject_Z. simpl. lia. Qed.

Lemma abs_diff_max (a b : Z) :
  (inject_Z (Z.abs (b - a)) == 2 * inject_Z (Z.max a b) - (inject_Z a + inject_Z b))%Q.
Proof. unfold Qeq, Qminus, Qplus, Qmult, Qopp, inject_Z. simpl. lia. Qed.

Lemma covers_of_rectangle (d : RectanglesPlot.data Z) (i : nat) (a0 b0 a1 b1 : Z) :
  rectangle_at d i a0 b0 a1 b1 → covers_at d i a0 b0 a1 b1.
Proof.
  intros (cx & cy & w & h & qx & qy & Hx & Hy & Hw & Hh & (-> & _ & -> & _)
          & Hqx & Hqy & _ & _ & Hvx & Hvy).
  exists cx, cy, (Z.abs (a1 - a0)), (Z.abs (b1 - b0)), qx, qy.
  split_and!; try done; rewrite ?Hvx, ?Hvy.
  - rewrite (abs_diff_min a0 a1). field.
  - rewrite (abs_diff_max a0 a1). field.
  - rewrite (abs_diff_min b0 b1). field.
  - rewrite (abs_diff_max b0 b1). field.
Qed.

(** X4.  On [int64] corners whose differences are below [2^63] and whose
    sums are below [2^53] in absolute value, the glyph that
    [RectanglesPlot.get_data] describes covers exactly the box between the
    two corners: at row [i], centre minus half the width is the smaller x
    coordinate and centre plus half the width is the larger one, and
    likewise for y and the height. *)
Theorem RectanglesPlot_recovers_corners {Style} (invert_axes : bool)
    (k0 k1 k2 k3 : list Z) (rest : list (list Z)) (style : Style)
    (i : nat) (a0 b0 a1 b1 : Z) :
  let element := {| columns := k0 :: k1 :: k2 :: k3 :: rest |} in
  (corner_arrays invert_axes k0 k1 k2 k3).1.1.1 !! i = Some a0 →
  (corner_arrays invert_axes k0 k1 k2 k3).1.1.2 !! i = Some b0 →
  (corner_arrays invert_axes k0 k1 k2 k3).1.2 !! i = Some a1 →
  (corner_arrays invert_axes k0 k1 k2 k3).2 !! i = Some b1 →
  (Z.abs (a1 - a0) < 2 ^ 63)%Z → (Z.abs (b1 - b0) < 2 ^ 63)%Z →
  (Z.abs (a0 + a1) < 2 ^ 53)%Z → (Z.abs (b0 + b1) < 2 ^ 53)%Z →
  ∃ d, RectanglesPlot.get_data invert_axes element style
         = Some (d, RectanglesPlot.mapping, style)
       ∧ covers_at d i a0 b0 a1 b1.
Proof.
  intros element Ha0 Hb0 Ha1 Hb1 Hw Hh Hx Hy.
  unfold RectanglesPlot.get_data, element. rewrite unpack_dims_four.
  unfold corner_arrays in *.
  destruct invert_axes; cbn [fst snd] in *; cbn [mbind option_bind];
    (eexists; split; [reflexivity|]); by apply covers_of_rectangle, rectangle_row.
Qed.

Lemma RectanglesPlot_recovers_corners_witness :
  ∃ d, RectanglesPlot.get_data true {| columns := [[4]; [5]; [1]; [1]]%Z |} tt
         = Some (d, RectanglesPlot.mapping, tt)
       ∧ covers_at d 0 5 4 1 1.
Proof.
  apply (RectanglesPlot_recovers_corners true [4%Z] [5%Z] [1%Z] [1%Z] [] tt 0 5 4 1 1);
    first [reflexivity | simpl; lia].
Defined.

(** ** Number of rows *)

(** X5.  When the four corner columns have [n] rows each,
    [RectanglesPlot.get_data] returns [n] centres, widths and heights: one
    rectangle per row, whatever the arrays' element type is. *)
Theorem RectanglesPlot_row_count `{Dtype A} {Style} (invert_axes : bool)
    (k0 k1 k2 k3 : list A) (rest : list (list A)) (style : Style) (n : nat) :
  length k0 = n → length k1 = n → length k2 = n → length k3 = n →
  ∃ d, RectanglesPlot.get_data invert_axes
         {| columns := k0 :: k1 :: k2 :: k3 :: rest |} style
       = Some (d, RectanglesPlot.mapping, style)
       ∧ length (RectanglesPlot.x d) = n ∧ length (RectanglesPlot.y d) = n
       ∧ length (RectanglesPlot.width d) = n ∧ length (RectanglesPlot.height d) = n.
Proof.
  intros H0 H1 H2 H3.
  unfold RectanglesPlot.get_data. rewrite unpack_dims_four.
  destruct invert_axes; simpl; eexists; (split; [reflexivity|]); simpl;
    unfold RectanglesPlot.np_min, RectanglesPlot.np_max;
    rewrite !length_zip_with; lia.
Qed.

Lemma RectanglesPlot_row_count_witness :
  ∃ d, RectanglesPlot.get_data false
         {| columns := [[4; 0]; [5; 0]; [1; 2]; [1; 3]]%Z |} tt
       = Some (d, RectanglesPlot.mapping, tt)
       ∧ length (RectanglesPlot.x d) = 2%nat ∧ length (RectanglesPlot.y d) = 2%nat
       ∧ length (RectanglesPlot.width d) = 2%nat ∧ length (RectanglesPlot.height d) = 2%nat.
Proof.
  apply (RectanglesPlot_row_count false [4; 0]%Z [5; 0]%Z [1; 2]%Z [1; 3]%Z [] tt 2);
    reflexivity.
Defined.

End GeometryFacts.

(* ===================================================================== *)
(** * Properties of the annotators *)
(* ===================================================================== *)

Module AnnotFacts.
Import Py Elem Annot Notions.

(** ** The instance dictionary never holds four of the names it is asked for *)

Section keeps.

Context (I : Annotator → Prop).

Lemma keeps_ret {A} (x : A) : keeps I (ret x).
Proof. intros a r a' Ha [= <- <-]. done. Qed.

Lemma keeps_raise {A} e : keeps I (@raise A e).
Proof. intros a r a' Ha [= <- <-]. done. Qed.

Lemma keeps_lift {A} (x : result A) : keeps I (lift x).
Proof. intros a r a' Ha [= <- <-]. done. Qed.

Lemma keeps_get : keeps I get.
Proof. intros a r a' Ha [= <- <-]. done. Qed.

Lemma keeps_getattr n : keeps I (getattr n).
Proof.
  intros a r a' Ha. unfold getattr. destruct (attrs a !! n); intros [= <- <-]; done.
Qed.

Lemma keeps_poly_data validate : keeps I (poly_data validate).
Proof. intros a r a' Ha [= <- <-]. done. Qed.

Lemma keeps_bind {A B} (m : M A) (k : A → M B) :
  keeps I m → (∀ x, keeps I (k x)) → keeps I (bind m k).
Proof.
  intros Hm Hk a r a' Ha. unfold bind.
  destruct (m a) as [[x|e] a1] eqn:E.
  - intros Hr. eapply Hk; [|exact Hr]. eapply Hm; eauto.
  - intros [= <- <-]. eapply Hm; eauto.
Qed.

Lemma keeps_modify f : (∀ a, I a → I (f a)) → keeps I (modify f).
Proof. intros Hf a r a' Ha [= <- <-]. auto. Qed.

Lemma keeps_setattr n o : attr_stable I n → keeps I (setattr n o).
Proof. intros Hn a r a' Ha [= <- <-]. by apply Hn. Qed.

Lemma keeps_set_object e : event_stable I → object_stable I → keeps I (set_object e).
Proof. intros Hev Hob. apply keeps_modify. intros a Ha. by apply Hev, Hob. Qed.

Lemma keeps_discard_events {A} (m : M A) :
  event_stable I → keeps I m → keeps I (discard_events m).
Proof.
  intros Hev Hm a r a' Ha. unfold discard_events.
  destruct (m _) as [r1 a1] eqn:E. intros [= <- <-].
  apply Hev. eapply Hm; [|exact E]. by apply Hev.
Qed.

Lemma keeps_preprocess {A} (m : M A) :
  event_stable I → keeps I m → keeps I (preprocess m).
Proof.
  intros Hev Hm. unfold preprocess.
  apply keeps_bind; [apply keeps_modify; intros; by apply Hev|intros _].
  apply keeps_bind; [done|intros _]. apply keeps_modify. intros; by apply Hev.
Qed.

End keeps.

Lemma clean_attr_stable n : bool_decide (n ∈ unassigned) = false → attr_stable clean n.
Proof.
  intros Hn%bool_decide_eq_false a o Ha.
  unfold clean in *. rewrite Forall_forall in *. intros k Hk. simpl.
  rewrite lookup_insert_ne; [by apply Ha|]. by intros ->.
Qed.

Lemma clean_event_stable : event_stable clean.
Proof. by intros a b ev Ha. Qed.

Lemma clean_object_stable : object_stable clean.
Proof. by intros a e Ha. Qed.

Lemma framed_attr_stable c p n : attr_stable (framed c p) n.
Proof. by intros a o Ha. Qed.

Lemma framed_event_stable c p : event_stable (framed c p).
Proof. by intros a b ev Ha. Qed.

Lemma framed_object_stable c p : object_stable (framed c p).
Proof. by intros a e Ha. Qed.

Lemma framed_object_attr_stable c p o n : attr_stable (framed_object c p o) n.
Proof. by intros a o' Ha. Qed.

Lemma framed_object_event_stable c p o : event_stable (framed_object c p o).
Proof. by intros a b ev Ha. Qed.

Create HintDb keeps discriminated.
#[export] Hint Resolve keeps_ret keeps_raise keeps_lift keeps_get keeps_getattr
  keeps_poly_data clean_event_stable clean_object_stable
  framed_attr_stable framed_event_stable framed_object_stable
  framed_object_attr_stable framed_object_event_stable : keeps.
#[export] Hint Extern 1 (attr_stable clean _) =>
  apply clean_attr_stable; reflexivity : keeps.

(** Walks through a method body, one statement at a time. *)
Ltac keeps_step :=
  match goal with
  | |- keeps _ (bind _ _) => apply keeps_bind; [|intros ?]
  | |- keeps _ (setattr _ _) => apply keeps_setattr; solve [auto with keeps]
  | |- keeps _ (set_object _) => apply keeps_set_object; solve [auto with keeps]
  | |- keeps _ (discard_events _) => apply keeps_discard_events; [solve [auto with keeps]|]
  | |- keeps _ (preprocess _) => apply keeps_preprocess; [solve [auto with keeps]|]
  | |- keeps _ (match ?x with _ => _ end) => destruct x
  | |- keeps _ (if ?b then _ else _) => destruct b
  | |- keeps _ _ => solve [auto with keeps]
  end.

Lemma keeps_init_element_clean o : keeps clean (_init_element o).
Proof.
  unfold _init_element, BoxAnnotator_init_element, PathAnnotator_init_element,
    PointAnnotator_init_element.
  repeat keeps_step.
Qed.

Lemma keeps_init_element_framed c p o : keeps (framed c p) (_init_element o).
Proof.
  unfold _init_element, BoxAnnotator_init_element, PathAnnotator_init_element,
    PointAnnotator_init_element.
  repeat keeps_step.
Qed.

Section keeps_methods.

(** The methods below write attributes and the event state only, each
    attribute under a name the invariant is stable for. *)
Context (I : Annotator → Prop).
Context (I_attr : ∀ n, bool_decide (n ∈ unassigned) = false → attr_stable I n).
Context (I_event : event_stable I).

Local Hint Resolve I_event : keeps.
Local Hint Extern 1 (attr_stable I _) => apply I_attr; reflexivity : keeps.

Lemma keeps_table_data : keeps I _table_data.
Proof. unfold _table_data. repeat keeps_step. Qed.

Lemma keeps_object_attr n : keeps I (object_attr n).
Proof. unfold object_attr. repeat keeps_step. Qed.

Local Hint Resolve keeps_table_data keeps_object_attr : keeps.

Lemma keeps_init_table : keeps I _init_table.
Proof.
  unfold _init_table, PathAnnotator_init_table, PointAnnotator_init_table,
    BoxAnnotator_init_table.
  repeat keeps_step.
Qed.

Lemma keeps_selected : keeps I selected.
Proof.
  unfold selected, BoxAnnotator_selected, PathAnnotator_selected,
    PointAnnotator_selected.
  repeat keeps_step.
Qed.

Local Hint Resolve keeps_init_table : keeps.

(** What follows [_init_element] in [_initialize]. *)
Lemma keeps_initialize_after (o : option Element) :
  (∀ o', keeps I (_init_element o')) → keeps I (_initialize o).
Proof.
  intros Hinit. unfold _initialize, _initialize_body. repeat keeps_step.
Qed.

End keeps_methods.

Lemma keeps_initialize_clean o : keeps clean (_initialize o).
Proof.
  apply keeps_initialize_after; auto using clean_attr_stable, clean_event_stable,
    keeps_init_element_clean.
Qed.

Lemma keeps_initialize_framed c p o : keeps (framed c p) (_initialize o).
Proof.
  apply keeps_initialize_after; auto using keeps_init_element_framed with keeps.
Qed.

Lemma keeps_update_element_clean : keeps clean _update_element.
Proof.
  unfold _update_element, PathAnnotator_update_element, Annotator_update_element.
  repeat keeps_step.
Qed.

(** Construction leaves a clean dictionary, also when it raises half way. *)
Lemma Annotator_init_clean c name p o r a :
  Annotator_init c name p o = (r, a) → clean a.
Proof.
  unfold Annotator_init.
  destruct (PaneBase_init c name p o) as [[[]|e] a0] eqn:E.
  - assert (clean a0).
    { unfold PaneBase_init in E.
      repeat case_match; simplify_eq; by apply (bool_decide_unpack _). }
    clear E. revert a0 r a H.
    change (keeps clean (Annotator_init_body o)).
    pose proof keeps_initialize_clean.
    unfold Annotator_init_body. repeat keeps_step.
  - intros [= <- <-]. unfold PaneBase_init in E.
    repeat case_match; simplify_eq. by apply (bool_decide_unpack _).
Qed.

(** ** Instances that a program can hold *)

Lemma assigned_name n : bool_decide (n ∈ unassigned) = false → n ∉ unassigned.
Proof. intros H. by apply bool_decide_eq_false in H. Qed.

Lemma user_draw_clean d a : clean a → clean (user_draw d a).
Proof.
  unfold user_draw, clean. intros Ha. repeat case_match; try done.
  simpl. rewrite Forall_forall in *. intros k Hk.
  rewrite lookup_insert_ne; [by apply Ha|].
  intros <-. exact (assigned_name "_stream" eq_refl Hk).
Qed.

Lemma user_select_clean ix a : clean a → clean (user_select ix a).
Proof.
  unfold user_select, clean. intros Ha. repeat case_match; try done.
  simpl. rewrite Forall_forall in *. intros k Hk.
  rewrite lookup_insert_ne; [by apply Ha|].
  intros <-. exact (assigned_name "_selection" eq_refl Hk).
Qed.

Lemma reachable_clean a : reachable a → clean a.
Proof.
  induction 1 as [c name p o a Hinit| | |a o r a' _ IH Hrun|a r a' _ IH Hrun| |].
  - by eapply Annotator_init_clean.
  - done.
  - done.
  - by eapply keeps_initialize_clean.
  - by eapply keeps_update_element_clean.
  - by apply user_draw_clean.
  - by apply user_select_clean.
Qed.

Lemma clean_lookup a n :
  clean a → bool_decide (n ∈ unassigned) = true → attrs a !! n = None.
Proof.
  unfold clean. rewrite Forall_forall. intros Ha Hn%bool_decide_eq_true. auto.
Qed.

(** ** Worked instances *)

Lemma fresh_path_annotator_reachable : reachable fresh_path_annotator.
Proof.
  apply (reach_init PathAnnotator "PathAnnotator" path_labelled None).
  vm_compute. reflexivity.
Qed.

Lemma fresh_point_annotator_reachable : reachable fresh_point_annotator.
Proof.
  apply (reach_init PointAnnotator "PointAnnotator" (default_params PointAnnotator) None).
  vm_compute. reflexivity.
Qed.

Lemma fresh_box_annotator_reachable : reachable fresh_box_annotator.
Proof.
  apply (reach_init BoxAnnotator "BoxAnnotator" (default_params BoxAnnotator) None).
  vm_compute. reflexivity.
Qed.

(** ** [_update_element] of the path annotators *)

(** C6 (the code departs from the claim).  On every path or polygon
    annotator a program can hold, [_update_element] raises
    [AttributeError] for [_poly_stream], an attribute the file never
    assigns (the streams are stored as [_stream] and [_vertex_stream]); the
    snapshot is neither collapsed nor committed and the instance is left as
    it was. *)
Theorem PathAnnotator_update_element_raises (a : Annotator) :
  reachable a →
  a_cls a = PathAnnotator ∨ a_cls a = PolyAnnotator →
  _update_element a = (Raise (AttributeError "_poly_stream"), a).
Proof.
  intros Ha%reachable_clean Hcls.
  assert (attrs a !! "_poly_stream" = None) as Hnone.
  { by apply clean_lookup. }
  unfold _update_element, PathAnnotator_update_element, bind, get, getattr.
  destruct Hcls as [-> | ->]; by rewrite Hnone.
Qed.

Lemma PathAnnotator_update_element_raises_witness :
  _update_element fresh_path_annotator
  = (Raise (AttributeError "_poly_stream"), fresh_path_annotator).
Proof.
  apply PathAnnotator_update_element_raises.
  - apply (reach_init PathAnnotator "PathAnnotator" path_labelled None).
    vm_compute. reflexivity.
  - left. reflexivity.
Defined.

(** ** [selected] *)

(** C9 (the code departs from the claim).  On every annotator a program can
    hold, reading [selected] raises and returns no element: the path and box
    versions end in [self.output.clone(data)] and the point version indexes
    with [self._point_selection.index], and neither [output] nor
    [_point_selection] is ever assigned.  The instance is left as it was. *)
Theorem selected_raises (a : Annotator) :
  reachable a → ∃ e, selected a = (Raise e, a).
Proof.
  intros Ha%reachable_clean.
  assert (attrs a !! "output" = None) as Hout.
  { by apply clean_lookup. }
  assert (attrs a !! "_point_selection" = None) as Hps.
  { by apply clean_lookup. }
  unfold selected, BoxAnnotator_selected, PathAnnotator_selected,
    PointAnnotator_selected, object_attr, bind, get, getattr, lift, raise, Annot.ret.
  destruct (a_cls a); cbn beta; rewrite ?Hout, ?Hps;
    repeat case_match; simplify_eq; eauto.
Qed.

Lemma selected_raises_witness : ∃ e, selected fresh_point_annotator = (Raise e, fresh_point_annotator).
Proof.
  apply selected_raises.
  apply (reach_init PointAnnotator "PointAnnotator" (default_params PointAnnotator) None).
  vm_compute. reflexivity.
Defined.

(** The exceptions met on freshly built annotators of the three kinds. *)
Example selected_fresh_annotators :
  (selected fresh_path_annotator).1 = Raise (AttributeError "output")
  ∧ (selected fresh_point_annotator).1 = Raise (AttributeError "_point_selection")
  ∧ (selected fresh_box_annotator).1 = Raise (AttributeError "output").
Proof. by vm_compute. Qed.

(** ** The annotation columns added by [_init_element] *)

Lemma contains_with_dimension e col col' v :
  contains (with_dimension e col 0 v true) col'
  = bool_decide (col' = col) || contains e col'.
Proof.
  unfold contains, with_dimension, insert_at. simpl.
  apply eq_true_iff_eq.
  rewrite orb_true_iff, !bool_decide_eq_true, !elem_of_app, elem_of_cons. tauto.
Qed.

Lemma fields_map_fields f o : fields (map_fields f o) = f (fields o).
Proof. by destruct o. Qed.

(** When [add_dimension] returns, it returns the copy; the name was not
    empty, and on the multitabular format the value was a scalar. *)
Lemma add_dimension_Ok e col pos v vd e' :
  add_dimension e col pos v vd = Ok e' →
  e' = with_dimension e col pos v vd ∧ col ≠ ""
  ∧ (interface_datatype e = "multitabular" → is_scalar v = true).
Proof.
  unfold add_dimension. destruct (decide (col = "")); [done|].
  destruct (bool_decide _ && _) eqn:E; [done|]. intros [= <-]. split_and!; try done.
  intros Hm. rewrite bool_decide_eq_true_2 in E by done. by apply negb_false_iff.
Qed.

(** One more column in a loop: the call either raises, which ends the loop,
    or returns the copy. *)
Ltac add_column :=
  match goal with
  | |- context [add_dimension ?e ?c ?p ?v ?b] =>
      let E := fresh "Hadd" in
      let e' := fresh "e" in
      let Hn := fresh "Hname" in
      let Hs := fresh "Hscalar" in
      destruct (add_dimension e c p v b) as [e'|] eqn:E; simpl; [|done];
      apply add_dimension_Ok in E as (-> & Hn & Hs)
  end.

Lemma filled_add_same e col v : filled col v (with_dimension e col 0 v true).
Proof.
  split.
  - rewrite contains_with_dimension. by rewrite bool_decide_eq_true_2.
  - simpl. rewrite Forall_fmap. apply Forall_true. intros o. simpl.
    rewrite fields_map_fields. apply lookup_insert_eq.
Qed.

Lemma filled_add_other e col v col' v' :
  contains e col' = false → filled col v e →
  filled col v (with_dimension e col' 0 v' true).
Proof.
  intros Hnot [Hin Hall]. split.
  - rewrite contains_with_dimension, Hin. apply orb_true_r.
  - simpl. rewrite Forall_fmap. eapply Forall_impl; [exact Hall|].
    intros o Ho. simpl. rewrite fields_map_fields, lookup_insert_ne; [done|].
    intros ->. congruence.
Qed.

Lemma filled_options col v e kw : filled col v e → filled col v (options e kw).
Proof. by intros [??]. Qed.

(** The point and box loop keeps a filled column as it is ... *)
Lemma point_add_annotations_keeps s cols col v : ∀ e e',
  filled col v e → point_add_annotations s cols e = Ok e' → filled col v e'.
Proof.
  induction cols as [|c cols IH]; intros e e' Hf; simpl.
  - by intros [= <-].
  - destruct (contains e c) eqn:Hc; [by apply IH|].
    destruct (if is_dict_spec s then spec_getitem s c else Ok VNone) as [init|] eqn:Hi;
      simpl; [|done].
    add_column. apply IH. by apply filled_add_other.
Qed.

(** ... and fills a missing column of a dict spec with the dict's value for
    it, which is the factory itself. *)
Lemma point_add_annotations_fill items cols col f : ∀ e e',
  col ∈ cols → contains e col = false → assoc col items = Some f →
  point_add_annotations (SDict items) cols e = Ok e' → filled col f e'.
Proof.
  induction cols as [|c cols IH]; intros e e' Hin Hnot Hf; simpl.
  - by apply elem_of_nil in Hin.
  - destruct (decide (c = col)) as [->|Hne].
    + rewrite Hnot, Hf. simpl. add_column.
      apply point_add_annotations_keeps, filled_add_same.
    + apply elem_of_cons in Hin as [?|Hin]; [congruence|].
      destruct (contains e c) eqn:Hc; [by apply IH|].
      destruct (assoc c items) as [init|] eqn:Hi; simpl; [|done].
      add_column. apply IH; [done| |done].
      rewrite contains_with_dimension, Hnot. by rewrite bool_decide_eq_false_2.
Qed.

(** The path loops keep a filled column ... *)
Lemma path_add_annotations_keeps s cols col v : ∀ e validate e' validate',
  filled col v e →
  path_add_annotations s cols e validate = Ok (e', validate') → filled col v e'.
Proof.
  induction cols as [|c cols IH]; intros e validate e' validate' Hf; simpl.
  - by intros [= <- <-].
  - destruct (contains e c) eqn:Hc; [by apply IH|].
    destruct (if is_dict_spec s then spec_getitem s c ≫= call else Ok (VStr ""))
      as [init|] eqn:Hi; simpl; [|done].
    add_column. apply IH. by apply filled_add_other.
Qed.

Lemma path_add_vertex_annotations_keeps s cols col v : ∀ e e',
  filled col v e → path_add_vertex_annotations s cols e = Ok e' → filled col v e'.
Proof.
  induction cols as [|c cols IH]; intros e e' Hf; simpl.
  - by intros [= <-].
  - destruct (contains e c) eqn:Hc; [by apply IH|].
    destruct (if is_dict_spec s then spec_getitem s c ≫= call else Ok (VStr ""))
      as [init|] eqn:Hi; simpl; [|done].
    add_column. apply IH. by apply filled_add_other.
Qed.

(** ... and fill a missing column of a dict spec with what its factory
    returns. *)
Lemma path_add_annotations_fill items cols col f r : ∀ e validate e' validate',
  col ∈ cols → contains e col = false → assoc col items = Some f → call f = Ok r →
  path_add_annotations (SDict items) cols e validate = Ok (e', validate') →
  filled col r e'.
Proof.
  induction cols as [|c cols IH]; intros e validate e' validate' Hin Hnot Hf Hr; simpl.
  - by apply elem_of_nil in Hin.
  - destruct (decide (c = col)) as [->|Hne].
    + rewrite Hnot, Hf. simpl. rewrite Hr. simpl. add_column.
      apply path_add_annotations_keeps, filled_add_same.
    + apply elem_of_cons in Hin as [?|Hin]; [congruence|].
      destruct (contains e c) eqn:Hc; [by apply IH|].
      match goal with
      | |- (?m ≫= _) = _ → _ => destruct m as [init|] eqn:Hi; simpl; [|done]
      end.
      add_column. apply IH; [done| |done|done].
      rewrite contains_with_dimension, Hnot. by rewrite bool_decide_eq_false_2.
Qed.

(** Calling a factory never returns the factory. *)
Lemma call_not_self f r : call f = Ok r → r ≠ f.
Proof.
  destruct f; simpl; try done. intros [= ->] Heq.
  induction r as [| | | |r IH]; by simplify_eq.
Qed.

(** ** What a successful [_init_element] leaves behind *)

Lemma bind_Ok {A B} (m : M A) (k : A → M B) a y a' :
  bind m k a = (Ok y, a') → ∃ x a1, m a = (Ok x, a1) ∧ k x a1 = (Ok y, a').
Proof. unfold bind. destruct (m a) as [[x|e] a1]; [eauto|done]. Qed.

(** The element the loops start from is of the annotator's element class. *)
Lemma initial_element_isinstance c o :
  isinstance (initial_element c o) (element_type c) = true.
Proof.
  unfold initial_element. destruct o as [e|].
  - destruct (isinstance e (element_type c)) eqn:E; [done|]. by destruct c.
  - by destruct c.
Qed.

Ltac run_method H Hc :=
  cbv [bind get lift ret raise modify] in H; cbv beta iota in H;
  rewrite ?Hc in H; cbv beta iota in H;
  repeat (case_match; simplify_eq).

Lemma point_init_element_Ok a o a' :
  a_cls a = PointAnnotator ∨ a_cls a = BoxAnnotator →
  _init_element o a = (Ok tt, a') →
  ∃ e kw,
    point_add_annotations (annotations (params a))
      (columns_of (annotations (params a))) (initial_element (a_cls a) o) = Ok e
    ∧ object a' = Some (options e kw)
    ∧ attrs a' = attrs a ∧ params a' = params a ∧ a_cls a' = a_cls a.
Proof.
  intros Hcls Hrun.
  unfold _init_element, BoxAnnotator_init_element, PointAnnotator_init_element,
    set_object in Hrun.
  unfold initial_element.
  destruct Hcls as [Hc|Hc]; rewrite Hc; run_method Hrun Hc;
    (eexists _, _; split; [reflexivity|]; simpl; by rewrite ?Hc).
Qed.

Lemma poly_data_state validate a r a' : poly_data validate a = (r, a') → a' = a.
Proof. by intros [= _ <-]. Qed.

Lemma path_init_element_Ok a o a' :
  a_cls a = PathAnnotator ∨ a_cls a = PolyAnnotator →
  _init_element o a = (Ok tt, a') →
  ∃ e1 validate e2 pd kw,
    path_add_annotations (annotations (params a))
      (columns_of (annotations (params a))) (initial_element (a_cls a) o) []
      = Ok (e1, validate)
    ∧ path_add_vertex_annotations (vertex_annotations (params a))
        (columns_of (vertex_annotations (params a))) e1 = Ok e2
    ∧ poly_data validate a = (Ok pd, a)
    ∧ validation_fails validate pd = false
    ∧ object a' = Some (options e2 kw)
    ∧ attrs a' = attrs a ∧ params a' = params a ∧ a_cls a' = a_cls a.
Proof.
  intros Hcls Hrun.
  unfold _init_element, PathAnnotator_init_element, set_object in Hrun.
  unfold initial_element.
  destruct Hcls as [Hc|Hc]; rewrite Hc; run_method Hrun Hc;
    match goal with
    | H : poly_data _ _ = (_, _) |- _ => pose proof (poly_data_state _ _ _ _ H); subst
    end;
    match goal with p : Element * list string |- _ => destruct p end;
    try match goal with
        | H : list_remove _ _ = Ok _ |- _ => vm_compute in H; simplify_eq
        end;
    (eexists _, _, _, _, _; split_and!; try eassumption; try reflexivity;
     simpl; by rewrite ?Hc).
Qed.

Lemma assoc_Some_elem {V} col (items : list (string * V)) v :
  assoc col items = Some v → col ∈ items.*1.
Proof.
  induction items as [|[k w] items IH]; simpl; [done|].
  destruct (decide (col = k)) as [->|]; [intros _; apply elem_of_cons; by left|].
  intros H. apply elem_of_cons. right. by apply IH.
Qed.

Lemma filled_unique col v w e : data e ≠ [] → filled col v e → filled col w e → v = w.
Proof.
  intros Hne [_ Hv] [_ Hw]. destruct (data e) as [|o os]; [done|].
  apply Forall_cons in Hv as [Hv _]. apply Forall_cons in Hw as [Hw _]. congruence.
Qed.

(** The sibling path: on a path or polygon annotator a missing column of a
    dict spec is filled with what the factory returns. *)
Lemma path_fill_is_factory_result (a : Annotator) (o : option Element) (a' : Annotator)
    (items : list (string * value)) (col : string) (f r : value) :
  a_cls a = PathAnnotator ∨ a_cls a = PolyAnnotator →
  annotations (params a) = SDict items →
  assoc col items = Some f → call f = Ok r →
  contains (initial_element (a_cls a) o) col = false →
  _init_element o a = (Ok tt, a') →
  ∃ e', object a' = Some e' ∧ filled col r e'.
Proof.
  intros Hcls Hspec Hf Hr Hnot Hrun.
  destruct (path_init_element_Ok _ _ _ Hcls Hrun)
    as (e1 & validate & e2 & pd & kw & H1 & H2 & _ & _ & Hobj & _).
  rewrite Hspec in H1. simpl in H1.
  eexists. split; [exact Hobj|].
  apply filled_options. eapply path_add_vertex_annotations_keeps; [|exact H2].
  eapply path_add_annotations_fill; [| |exact Hf|exact Hr|exact H1]; [|done].
  by eapply assoc_Some_elem.
Qed.

Lemma path_fill_is_factory_result_example :
  ∃ a e', Annotator_init PathAnnotator "PathAnnotator" (label_by_factory PathAnnotator)
            (Some (one_path [])) = (Ok tt, a)
          ∧ object a = Some e' ∧ filled "label" (VStr "") e'.
Proof.
  eexists _, _. split; [by vm_compute|]. split; [by vm_compute|].
  split; [by vm_compute|]. vm_compute. repeat constructor.
Qed.

(** C4 (the code departs from the claim).  On a point or box annotator whose
    annotations are a dict from column name to factory, a declared column
    that is missing from the element is added, but with the factory object
    itself as its value on every point or box: [_init_element] takes
    [self.annotations[col]] and does not call it, unlike the path annotator.
    On an element with at least one object the column therefore does not
    hold the value the factory returns. *)
Theorem point_box_fill_is_factory_itself (a : Annotator) (o : option Element)
    (a' : Annotator) (items : list (string * value)) (col : string) (f r : value) :
  a_cls a = PointAnnotator ∨ a_cls a = BoxAnnotator →
  annotations (params a) = SDict items →
  assoc col items = Some f → call f = Ok r →
  contains (initial_element (a_cls a) o) col = false →
  _init_element o a = (Ok tt, a') →
  ∃ e', object a' = Some e' ∧ filled col f e'
        ∧ (data e' ≠ [] → ¬ filled col r e').
Proof.
  intros Hcls Hspec Hf Hr Hnot Hrun.
  destruct (point_init_element_Ok _ _ _ Hcls Hrun)
    as (e & kw & H1 & Hobj & _).
  rewrite Hspec in H1. simpl in H1.
  assert (filled col f (options e kw)) as Hfilled.
  { apply filled_options.
    eapply point_add_annotations_fill; [| |exact Hf|exact H1]; [|done].
    by eapply assoc_Some_elem. }
  eexists. split; [exact Hobj|]. split; [done|].
  intros Hne Hr'. apply (call_not_self _ _ Hr).
  by eapply filled_unique.
Qed.

Lemma point_box_fill_is_factory_itself_witness :
  ∃ e', object (_init_element (Some one_point) point_before_init).2 = Some e'
        ∧ filled "label" py_str e'
        ∧ (data e' ≠ [] → ¬ filled "label" (VStr "") e').
Proof.
  apply (point_box_fill_is_factory_itself point_before_init (Some one_point) _
           [("label", py_str)] "label" py_str (VStr "")).
  - left. reflexivity.
  - reflexivity.
  - reflexivity.
  - reflexivity.
  - reflexivity.
  - by vm_compute.
Defined.

(** The same input through the constructors of the three classes: the label
    of the one point is [str] itself, that of the one path is [""]; the box
    annotator's path is stored in the multitabular format, where adding
    [str] as a value raises. *)
Example factory_fill_by_class :
  label_of (Annotator_init PointAnnotator "PointAnnotator"
              (label_by_factory PointAnnotator) (Some one_point))
    = Some [Some (Scalar py_str)]
  ∧ (∃ msg, (Annotator_init BoxAnnotator "BoxAnnotator"
               (label_by_factory BoxAnnotator) (Some (one_path []))).1
            = Raise (TypeError msg))
  ∧ label_of (Annotator_init PathAnnotator "PathAnnotator"
                (label_by_factory PathAnnotator) (Some (one_path [])))
    = Some [Some (Scalar (VStr ""))].
Proof. split_and!; [by vm_compute|eexists; by vm_compute|by vm_compute]. Qed.

(** ** Validation *)

Lemma validation_fails_nil pd : validation_fails [] pd = false.
Proof. done. Qed.

Lemma validation_fails_single c v : validation_fails [c] [(c, v)] = false.
Proof.
  unfold validation_fails, length_set.
  change (length <$> [(c, v)].*2) with [length v].
  rewrite list_to_set_cons, list_to_set_nil, union_empty_r_L, size_singleton.
  rewrite (bool_decide_eq_false_2 (1%nat ≠ 1%nat)); [|by intros ?].
  apply andb_false_r.
Qed.

Lemma poly_data_single c a pd a' :
  poly_data [c] a = (Ok pd, a') → ∃ v, pd = [(c, v)].
Proof.
  unfold poly_data. simpl. intros [= H _]. revert H.
  destruct (attrs a !! "element") as [p|]; [|done].
  destruct (as_element p "dimension_values") as [e|]; [|done]. simpl.
  destruct (dimension_values_unexpanded e c) as [v|]; [|done]. simpl.
  intros [= <-]. by exists v.
Qed.

Lemma path_add_annotations_single s c e e1 validate :
  path_add_annotations s [c] e [] = Ok (e1, validate) →
  validate = [] ∨ validate = [c].
Proof.
  simpl. destruct (contains e c); [intros [= <- <-]; by right|].
  match goal with |- (?m ≫= _) = _ → _ => destruct m; simpl; [|done] end.
  add_column. intros [= <- <-]. by left.
Qed.

(** With one declared column the check has one length to compare. *)
Lemma single_column_passes s c e a p pd a' :
  path_add_annotations s [c] e [] = Ok p →
  poly_data p.2 a = (Ok pd, a') →
  validation_fails p.2 pd = false.
Proof.
  destruct p as [e1 validate]. simpl.
  intros [-> | ->]%path_add_annotations_single Hpd.
  - apply validation_fails_nil.
  - apply poly_data_single in Hpd as [v ->]. apply validation_fails_single.
Qed.

(** Apart from the validation itself, nothing in [_init_element] of the
    path annotators raises the validation error. *)
Lemma for_each_Raise {A B} (f : A → result B) l x :
  for_each f l = Raise x → ∃ a, a ∈ l ∧ f a = Raise x.
Proof.
  induction l as [|a l IH]; simpl; [done|].
  destruct (f a) as [b|y] eqn:Hfa; simpl.
  - destruct (for_each f l) as [bs|y]; simpl; [done|].
    intros [= ->]. destruct IH as (a' & Hin & Hf); [done|].
    exists a'. split; [by apply elem_of_cons; right|done].
  - intros [= ->]. exists a. split; [by apply elem_of_cons; left|done].
Qed.

Lemma not_ValueError_not_validation x : is_ValueError x = false → ¬ is_validation_error x.
Proof. by intros Hx [validate ->]. Qed.

Lemma add_dimension_not_validation e col pos v vd x :
  add_dimension e col pos v vd = Raise x → ¬ is_validation_error x.
Proof.
  unfold add_dimension. repeat case_match; intros [= <-] [validate Hv]; discriminate Hv.
Qed.

Lemma init_value_not_ValueError (s : spec) (c : string) x :
  (if is_dict_spec s then spec_getitem s c ≫= call else Ok (VStr "")) = Raise x →
  is_ValueError x = false.
Proof.
  destruct s as [cols|items]; simpl; [done|].
  destruct (assoc c items) as [f|]; simpl; [|by intros [= <-]].
  destruct f; simpl; try done; by intros [= <-].
Qed.

Lemma path_add_annotations_not_validation s cols : ∀ e validate x,
  path_add_annotations s cols e validate = Raise x → ¬ is_validation_error x.
Proof.
  induction cols as [|c cols IH]; intros e validate x; simpl; [done|].
  destruct (contains e c); [by apply IH|].
  destruct (if is_dict_spec s then spec_getitem s c ≫= call else Ok (VStr ""))
    as [init|y] eqn:Hinit; simpl.
  - destruct (add_dimension e c 0 init true) as [e'|y] eqn:Hadd; simpl; [by apply IH|].
    intros [= <-]. by eapply add_dimension_not_validation.
  - intros [= <-]. by eapply not_ValueError_not_validation, init_value_not_ValueError.
Qed.

Lemma path_add_vertex_annotations_not_validation s cols : ∀ e x,
  path_add_vertex_annotations s cols e = Raise x → ¬ is_validation_error x.
Proof.
  induction cols as [|c cols IH]; intros e x; simpl; [done|].
  destruct (contains e c); [by apply IH|].
  destruct (if is_dict_spec s then spec_getitem s c ≫= call else Ok (VStr ""))
    as [init|y] eqn:Hinit; simpl.
  - destruct (add_dimension e c 0 init true) as [e'|y] eqn:Hadd; simpl; [by apply IH|].
    intros [= <-]. by eapply add_dimension_not_validation.
  - intros [= <-]. by eapply not_ValueError_not_validation, init_value_not_ValueError.
Qed.

Lemma dimension_values_not_ValueError e c x :
  dimension_values_unexpanded e c = Raise x → is_ValueError x = false.
Proof.
  unfold dimension_values_unexpanded. destruct (contains e c); [|by intros [= <-]].
  destruct (for_each _ (data e)) as [vs|y] eqn:Hfe; simpl; [done|].
  intros [= <-]. apply for_each_Raise in Hfe as (o & _ & Ho).
  destruct (fields o !! c); by simplify_eq.
Qed.

Lemma poly_data_not_validation validate a x a' :
  poly_data validate a = (Raise x, a') → ¬ is_validation_error x.
Proof.
  intros H. apply not_ValueError_not_validation. revert H.
  unfold poly_data. intros [= H _]. revert H.
  destruct (for_each _ validate) as [vs|y] eqn:Hfe; simpl; [done|].
  intros [= <-]. apply for_each_Raise in Hfe as (c & _ & Hc).
  destruct (attrs a !! "element") as [p|]; [|by simplify_eq].
  destruct p; simpl in Hc; try by simplify_eq.
  destruct (dimension_values_unexpanded e c) as [v|z] eqn:Hdv; simpl in Hc; [done|].
  simplify_eq. by eapply dimension_values_not_ValueError.
Qed.

Lemma dict_kwargs_not_validation fixed kw x :
  dict_kwargs fixed kw = Raise x → ¬ is_validation_error x.
Proof.
  intros H. apply not_ValueError_not_validation. revert H.
  unfold dict_kwargs. case_match; [done|]. by intros [= <-].
Qed.

(** A path annotator that declares one annotation column never raises the
    validation error, whatever the element holds in that column. *)
Lemma single_column_never_rejected (a : Annotator) (o : option Element)
    (c : string) (x : exn) :
  a_cls a = PathAnnotator ∨ a_cls a = PolyAnnotator →
  columns_of (annotations (params a)) = [c] →
  (_init_element o a).1 = Raise x → ¬ is_validation_error x.
Proof.
  intros Hcls Hcols.
  unfold _init_element, PathAnnotator_init_element, set_object.
  cbv [bind get lift ret raise modify].
  destruct Hcls as [Hc|Hc]; rewrite Hc; cbv beta iota; rewrite ?Hc, Hcols.
  all: repeat (case_match; simplify_eq); simpl; try done; intros [= <-];
    eauto using path_add_annotations_not_validation,
      path_add_vertex_annotations_not_validation, poly_data_not_validation,
      dict_kwargs_not_validation.
  all: match goal with
       | H : path_add_annotations _ _ _ _ = Ok _, H' : poly_data _ _ = _,
         H'' : validation_fails _ _ = true |- _ =>
           rewrite (single_column_passes _ _ _ _ _ _ _ H H') in H''; discriminate
       end.
Qed.

(** The two worked paths: two distinct labels on the first, one on the
    second. *)
Example varying_label_varies :
  dimension_values_unexpanded varying_label "label" = Ok [VStr "a"; VStr "b"]
  ∧ dimension_values_unexpanded constant_label "label" = Ok [VStr "a"].
Proof. by vm_compute. Qed.

(** What the check does catch: two declared columns whose numbers of
    distinct values differ. *)
Example validation_compares_columns :
  (_init_element (Some two_columns) two_columns_before_init).1
  = Raise (ValueError "annotations must refer to value dimensions which vary per path while at least one of ['label', 'kind'] varies by vertex.").
Proof. by vm_compute. Qed.

(** C1 (the code departs from the claim).  [PathAnnotator] with
    [annotations=['label']] on an element that already has the column: when
    the label varies between the vertices of a path no validation error is
    raised, and when it is constant the constructor does not succeed.  In
    both cases [_init_element] stops at [self.element], an attribute that is
    never assigned (the element under validation is the local [element]),
    with an [AttributeError]; and had [self.element] been that element, the
    varying column would have passed, because the check only compares the
    numbers of distinct values between the declared columns. *)
Theorem validation_misses_varying_column :
  (Annotator_init PathAnnotator "PathAnnotator" path_labelled (Some varying_label)).1
    = Raise (AttributeError "element")
  ∧ (Annotator_init PathAnnotator "PathAnnotator" path_labelled (Some constant_label)).1
    = Raise (AttributeError "element")
  ∧ (_init_element (Some varying_label) (path_before_init varying_label)).1
    = Raise (AttributeError "element")
  ∧ (_init_element (Some varying_label) (with_element_attr varying_label)).1 = Ok tt.
Proof. by vm_compute. Qed.

(** ** Running [_initialize] a second time *)

Lemma isinstance_el_type e e' t :
  el_type e' = el_type e → isinstance e' t = isinstance e t.
Proof. unfold isinstance. by intros ->. Qed.

Lemma contains_with_dimension_mono e col v c :
  contains e c = true → contains (with_dimension e col 0 v true) c = true.
Proof. intros H. rewrite contains_with_dimension, H. apply orb_true_r. Qed.

(** The loops keep the class and the columns of the element and leave every
    declared column on it. *)
Lemma path_add_annotations_post s cols : ∀ e validate e' validate',
  path_add_annotations s cols e validate = Ok (e', validate') →
  el_type e' = el_type e
  ∧ (∀ c, contains e c = true → contains e' c = true)
  ∧ Forall (λ c, contains e' c = true) cols.
Proof.
  induction cols as [|c cols IH]; intros e validate e' validate'; simpl.
  - intros [= <- <-]. by split_and!.
  - destruct (contains e c) eqn:Hc.
    + intros (Ht & Hmono & Hall)%IH. split_and!; [done|done|].
      constructor; [by apply Hmono|done].
    + match goal with |- (?m ≫= _) = _ → _ => destruct m as [init|]; simpl; [|done] end.
      add_column. intros (Ht & Hmono & Hall)%IH. split_and!; [done| |].
      * intros c' Hc'. by apply Hmono, contains_with_dimension_mono.
      * constructor; [|done]. apply Hmono. rewrite contains_with_dimension.
        by rewrite bool_decide_eq_true_2.
Qed.

Lemma path_add_vertex_annotations_post s cols : ∀ e e',
  path_add_vertex_annotations s cols e = Ok e' →
  el_type e' = el_type e
  ∧ (∀ c, contains e c = true → contains e' c = true)
  ∧ Forall (λ c, contains e' c = true) cols.
Proof.
  induction cols as [|c cols IH]; intros e e'; simpl.
  - intros [= <-]. by split_and!.
  - destruct (contains e c) eqn:Hc.
    + intros (Ht & Hmono & Hall)%IH. split_and!; [done|done|].
      constructor; [by apply Hmono|done].
    + match goal with |- (?m ≫= _) = _ → _ => destruct m as [init|]; simpl; [|done] end.
      add_column. intros (Ht & Hmono & Hall)%IH. split_and!; [done| |].
      * intros c' Hc'. by apply Hmono, contains_with_dimension_mono.
      * constructor; [|done]. apply Hmono. rewrite contains_with_dimension.
        by rewrite bool_decide_eq_true_2.
Qed.

(** On an element that has every declared column the loops add nothing and
    queue every annotation column for validation. *)
Lemma path_add_annotations_all_present s cols : ∀ e validate,
  Forall (λ c, contains e c = true) cols →
  path_add_annotations s cols e validate = Ok (e, validate ++ cols).
Proof.
  induction cols as [|c cols IH]; intros e validate Hall; simpl.
  - by rewrite app_nil_r.
  - apply Forall_cons in Hall as [-> Hall]. rewrite IH by done.
    by rewrite <- app_assoc.
Qed.

Lemma path_add_vertex_annotations_all_present s cols e :
  Forall (λ c, contains e c = true) cols →
  path_add_vertex_annotations s cols e = Ok e.
Proof.
  induction cols as [|c cols IH]; intros Hall; simpl; [done|].
  apply Forall_cons in Hall as [-> Hall]. by apply IH.
Qed.

Lemma poly_data_raises validate a :
  attrs a !! "element" = None → validate ≠ [] →
  poly_data validate a = (Raise (AttributeError "element"), a).
Proof.
  intros Hnone Hne. unfold poly_data. destruct validate as [|c validate]; [done|].
  simpl. by rewrite Hnone.
Qed.

Lemma annotated_attr_stable c p n : attr_stable (annotated c p) n.
Proof. by intros a o Ha. Qed.

Lemma annotated_event_stable c p : event_stable (annotated c p).
Proof. by intros a b ev Ha. Qed.

Lemma path_init_element_annotated c p o a a' :
  c = PathAnnotator ∨ c = PolyAnnotator →
  framed c p a → _init_element o a = (Ok tt, a') → annotated c p a'.
Proof.
  intros Hc [Hcls Hp] Hrun.
  destruct (path_init_element_Ok a o a') as
    (e1 & validate & e2 & pd & kw & H1 & H2 & _ & _ & Hobj & _ & Hp' & Hcls');
    [by rewrite Hcls|done|].
  rewrite Hp, Hcls in *.
  apply path_add_annotations_post in H1 as (Ht1 & Hmono1 & Hall1).
  apply path_add_vertex_annotations_post in H2 as (Ht2 & Hmono2 & Hall2).
  split_and!; [done|done|].
  exists (options e2 kw). split_and!; [done| | |].
  - rewrite <- (initial_element_isinstance c o).
    apply isinstance_el_type. simpl. congruence.
  - eapply Forall_impl; [exact Hall1|]. intros col Hcol. by apply Hmono2.
  - done.
Qed.

#[export] Hint Resolve annotated_attr_stable annotated_event_stable : keeps.

Lemma modify_Ok f a x a' : modify f a = (Ok x, a') → a' = f a.
Proof. by intros [= _ <-]. Qed.

Lemma initialize_annotated c p o a a' :
  c = PathAnnotator ∨ c = PolyAnnotator →
  framed c p a → _initialize o a = (Ok tt, a') → annotated c p a'.
Proof.
  intros Hc Hframed Hrun.
  unfold _initialize, preprocess in Hrun.
  apply bind_Ok in Hrun as (? & a1 & ->%modify_Ok & Hrun).
  apply bind_Ok in Hrun as (? & a2 & Hbody & ->%modify_Ok).
  apply annotated_event_stable.
  unfold _initialize_body in Hbody.
  apply bind_Ok in Hbody as (? & ? & [= <- <-] & Hbody).
  apply bind_Ok in Hbody as ([] & a3 & Hinit & Hrest).
  apply path_init_element_annotated with (c := c) (p := p) in Hinit; [|done|done].
  pose proof (keeps_init_table (annotated c p)
                (λ n _, annotated_attr_stable c p n)).
  match type of Hrest with
  | ?m a3 = _ => assert (keeps (annotated c p) m) as K by repeat keeps_step
  end.
  by eapply K.
Qed.

Lemma setattr_Ok n v a x a' :
  setattr n v a = (Ok x, a') → a' = set_attrs (<[n := v]> (attrs a)) a.
Proof. by intros [= _ <-]. Qed.

Lemma Annotator_init_annotated c name p o a :
  c = PathAnnotator ∨ c = PolyAnnotator →
  Annotator_init c name p o = (Ok tt, a) → annotated c p a.
Proof.
  intros Hc. unfold Annotator_init.
  destruct (PaneBase_init c name p o) as [[[]|e] a0] eqn:E; [|done].
  assert (framed c p a0) as Hframed.
  { unfold PaneBase_init in E. repeat case_match; by simplify_eq. }
  clear E. unfold Annotator_init_body. intros Hrun.
  apply bind_Ok in Hrun as (? & ? & ->%setattr_Ok & Hrun).
  apply bind_Ok in Hrun as (? & ? & ->%setattr_Ok & Hrun).
  apply bind_Ok in Hrun as (? & ? & ->%setattr_Ok & Hrun).
  apply bind_Ok in Hrun as ([] & a2 & Hinit & Hrest).
  apply initialize_annotated with (c := c) (p := p) in Hinit; [|done|done].
  match type of Hrest with
  | ?m a2 = _ => assert (keeps (annotated c p) m) as K by repeat keeps_step
  end.
  by eapply K.
Qed.

Lemma path_init_element_raises c p a :
  c = PathAnnotator ∨ c = PolyAnnotator →
  annotated c p a → attrs a !! "element" = None →
  columns_of (annotations p) ≠ [] →
  _init_element (object a) a = (Raise (AttributeError "element"), a).
Proof.
  intros Hc (Hcls & Hp & e & Hobj & Hinst & Hall & Hvall) Hnone Hne.
  unfold _init_element, PathAnnotator_init_element.
  cbv [bind get lift ret raise]. cbv beta.
  rewrite Hcls.
  destruct Hc as [-> | ->]; cbv beta iota; rewrite Hobj, Hcls, Hinst, Hp;
    rewrite path_add_annotations_all_present by done;
    cbn [fst snd];
    rewrite path_add_vertex_annotations_all_present by done;
    rewrite poly_data_raises; done.
Qed.

Lemma initialize_body_raises c p a :
  c = PathAnnotator ∨ c = PolyAnnotator →
  annotated c p a → attrs a !! "element" = None →
  columns_of (annotations p) ≠ [] →
  _initialize_body None a = (Raise (AttributeError "element"), a).
Proof.
  intros Hc Ha Hnone Hne. unfold _initialize_body.
  unfold bind at 1. unfold get at 1. cbv beta iota.
  unfold bind at 1. by erewrite path_init_element_raises.
Qed.

(** C8 (the code departs from the claim).  Every path or polygon annotator
    that declares at least one annotation column and was constructed without
    error raises [AttributeError] when [_initialize] runs again with no
    parameter changed: the columns added by the first run are now on the
    object, so they are all queued for validation and the validation reads
    [self.element], which is never assigned.  The second run commits
    nothing; it leaves the instance as it was except for [_BATCH_WATCH],
    which [preprocess] set and, because of the exception, never reset. *)
Theorem reinitialize_raises (c : cls) (name : string) (p : Params)
    (o : option Element) (a : Annotator) :
  c = PathAnnotator ∨ c = PolyAnnotator →
  columns_of (annotations p) ≠ [] →
  Annotator_init c name p o = (Ok tt, a) →
  _initialize None a
  = (Raise (AttributeError "element"), set_event_state true (events a) a).
Proof.
  intros Hc Hne Hinit.
  pose proof (Annotator_init_clean _ _ _ _ _ _ Hinit) as Hclean.
  apply Annotator_init_annotated in Hinit; [|done].
  assert (attrs a !! "element" = None) as Hnone by by apply clean_lookup.
  unfold _initialize, preprocess.
  unfold bind at 1. unfold modify at 1. cbv beta iota.
  unfold bind at 1.
  by erewrite (initialize_body_raises c p);
    [|done|by apply annotated_event_stable|done|done].
Qed.

Lemma reinitialize_raises_witness :
  _initialize None fresh_path_annotator
  = (Raise (AttributeError "element"),
     set_event_state true (events fresh_path_annotator) fresh_path_annotator).
Proof.
  apply (reinitialize_raises PathAnnotator "PathAnnotator" path_labelled None).
  - left. reflexivity.
  - discriminate.
  - vm_compute. reflexivity.
Defined.

(** The point and box annotators, and a path annotator without annotation
    columns, do come back to the same state. *)
Example reinitialize_same_state :
  _initialize None fresh_point_annotator = (Ok tt, fresh_point_annotator)
  ∧ _initialize None fresh_box_annotator = (Ok tt, fresh_box_annotator)
  ∧ (let a := (Annotator_init PathAnnotator "PathAnnotator"
                 (default_params PathAnnotator) None).2 in
     _initialize None a = (Ok tt, a))
  ∧ (let a := (Annotator_init PointAnnotator "PointAnnotator"
                 (label_by_factory PointAnnotator) (Some one_point)).2 in
     _initialize None a = (Ok tt, a)).
Proof. split_and!; vm_compute; reflexivity. Qed.

(** ** Running a method body on an instance *)

(** One statement at a time. *)
Section steps.
Context {B : Type}.

Lemma step_bind {A A'} (m : M A) (f : A → M A') (g : A' → M B) a :
  bind (bind m f) g a = bind m (λ x, bind (f x) g) a.
Proof. unfold bind. by destruct (m a) as [[x|e] a']. Qed.

Lemma step_Ok {A} (m : M A) (k : A → M B) a x a1 :
  m a = (Ok x, a1) → bind m k a = k x a1.
Proof. intros H. unfold bind. by rewrite H. Qed.

Lemma step_Raise {A} (m : M A) (k : A → M B) a x a1 :
  m a = (Raise x, a1) → bind m k a = (Raise x, a1).
Proof. intros H. unfold bind. by rewrite H. Qed.

Lemma step_ret {A} (x : A) (k : A → M B) a : bind (ret x) k a = k x a.
Proof. done. Qed.

Lemma step_get (k : Annotator → M B) a : bind get k a = k a a.
Proof. done. Qed.

Lemma step_lift {A} (x : A) (k : A → M B) a : bind (lift (Ok x)) k a = k x a.
Proof. done. Qed.

Lemma step_setattr n v (k : unit → M B) a :
  bind (setattr n v) k a = k tt (set_attrs (<[n := v]> (attrs a)) a).
Proof. done. Qed.

Lemma step_getattr n v (k : pyobj → M B) a :
  attrs a !! n = Some v → bind (getattr n) k a = k v a.
Proof. intros H. unfold bind, getattr. by rewrite H. Qed.

Lemma step_table_data (k : option Element → M B) a :
  bind _table_data k a
  = k (foldl (λ o transform, transform <$> o) (object a) (table_transforms (params a))) a.
Proof. done. Qed.
End steps.

Lemma initialize_unfold o a :
  _initialize o a
  = match _initialize_body o (set_event_state true (events a) a) with
    | (Ok _, a1) => (Ok tt, set_event_state false [] a1)
    | (Raise e, a1) => (Raise e, a1)
    end.
Proof. reflexivity. Qed.

Lemma attrs_set_attrs d a : attrs (set_attrs d a) = d.
Proof. done. Qed.

Lemma object_set_attrs d a : object (set_attrs d a) = object a.
Proof. done. Qed.

Lemma params_set_attrs d a : params (set_attrs d a) = params a.
Proof. done. Qed.

(** Looking an attribute up through the assignments made so far. *)
Ltac attr_lookup :=
  cbn [attrs set_attrs set_event_state set_object_field];
  first [ eassumption
        | rewrite lookup_insert_eq; reflexivity
        | rewrite lookup_singleton_eq; reflexivity
        | rewrite lookup_insert_ne by done; attr_lookup ].

Ltac attr_through :=
  repeat first [ rewrite attrs_set_attrs
               | rewrite lookup_insert_ne by done ].

(** Equality of instance dictionaries built by assignments to named
    attributes. *)
Ltac attrs_eq :=
  apply map_eq; intros ?;
  rewrite !lookup_insert, ?lookup_singleton;
  repeat (case_decide; [subst; reflexivity|]);
  reflexivity.

Ltac norm_state :=
  cbv [set_attrs set_event_state set_object_field];
  cbn [a_cls a_name params object batch_watch events watchers attrs as_stream].

Ltac run_step :=
  norm_state;
  first [ rewrite step_bind
        | rewrite step_ret
        | rewrite step_get
        | rewrite step_lift
        | rewrite step_setattr
        | rewrite step_table_data
        | erewrite step_getattr by attr_lookup ].

(** ** Event state around [_initialize] *)

Lemma batching_attr_stable n : attr_stable batching n.
Proof. by intros a o Ha. Qed.

Lemma keeps_batching_set_object e : keeps batching (set_object e).
Proof. unfold set_object. apply keeps_modify. by intros a Ha. Qed.

Ltac keeps_batching_step :=
  first [ apply keeps_batching_set_object
        | apply keeps_setattr, batching_attr_stable
        | keeps_step ].

Lemma keeps_batching_init_element o : keeps batching (_init_element o).
Proof.
  unfold _init_element, BoxAnnotator_init_element, PathAnnotator_init_element,
    PointAnnotator_init_element.
  repeat keeps_batching_step.
Qed.

Lemma keeps_batching_initialize_body o : keeps batching (_initialize_body o).
Proof.
  pose proof keeps_batching_init_element.
  pose proof (keeps_init_table batching (λ n _, batching_attr_stable n)).
  unfold _initialize_body. repeat keeps_batching_step.
Qed.

(** X6.  [_initialize] is wrapped in [preprocess]: when it returns, events
    are no longer batched and the queue of events is empty; when its body
    raises, the resets are not reached and the instance is left batching
    events, whatever its event state was before the call. *)
Theorem initialize_event_state (o : option Element) (a : Annotator) :
  match (_initialize o a).1 with
  | Ok _ => batch_watch (_initialize o a).2 = false ∧ events (_initialize o a).2 = []
  | Raise _ => batch_watch (_initialize o a).2 = true
  end.
Proof.
  rewrite initialize_unfold.
  destruct (_initialize_body o (set_event_state true (events a) a))
    as [[[]|e] a1] eqn:Hbody.
  - by cbn.
  - cbn. eapply keeps_batching_initialize_body; [|exact Hbody]. done.
Qed.


(** ** The base [_update_element] *)

(** X7.  [_update_element] of the point and box annotators either stores
    the element of the edit stream as the new [object] and changes nothing
    else but the queue of events, or raises and leaves the instance
    untouched.  The change is made under [discard_events]: [_BATCH_WATCH] is
    as before, but the events the assignment queued stay queued, and each of
    them is a change of [object]. *)
Theorem base_update_element_commits (a : Annotator) :
  a_cls a = PointAnnotator ∨ a_cls a = BoxAnnotator →
  (∃ s e queued,
      attrs a !! "_stream" = Some (OStream s) ∧ stream_element s = Ok e
      ∧ Forall (λ n, n = "object") queued
      ∧ _update_element a
        = (Ok tt, set_event_state (batch_watch a) (events a ++ queued)
                    (set_object_field (Some e) a)))
  ∨ (∃ x, _update_element a = (Raise x, a)).
Proof.
  intros Hcls.
  assert (_update_element a = Annotator_update_element a) as ->.
  { unfold _update_element, bind, get. by destruct Hcls as [-> | ->]. }
  clear Hcls. destruct a as [c n p ob bw ev ws ats].
  unfold Annotator_update_element, discard_events, bind, getattr, lift, set_object,
    modify.
  cbn [attrs set_event_state set_object_field batch_watch events a_cls a_name params
       object watchers].
  destruct (ats !! "_stream") as [[]|] eqn:Hs; cbn; try (right; by eexists).
  match goal with |- context [stream_element ?s] =>
    destruct (stream_element s) as [e|x] eqn:He; cbn;
    [left; exists s, e, ["object"]; split_and!; [done|done|by repeat constructor|done]
    |right; by eexists]
  end.
Qed.

Lemma base_update_element_commits_witness :
  (∃ s e queued,
      attrs fresh_point_annotator !! "_stream" = Some (OStream s)
      ∧ stream_element s = Ok e
      ∧ Forall (λ n, n = "object") queued
      ∧ _update_element fresh_point_annotator
        = (Ok tt, set_event_state (batch_watch fresh_point_annotator)
                    (events fresh_point_annotator ++ queued)
                    (set_object_field (Some e) fresh_point_annotator)))
  ∨ (∃ x, _update_element fresh_point_annotator = (Raise x, fresh_point_annotator)).
Proof.
  apply base_update_element_commits. left. reflexivity.
Defined.

(** The events stay: after an edit of the fresh point annotator the change
    of [object] is in the queue, with [_BATCH_WATCH] off. *)
Example update_element_leaves_event :
  "object" ∈ events (_update_element fresh_point_annotator).2
  ∧ batch_watch (_update_element fresh_point_annotator).2 = false.
Proof. split; [|by vm_compute]. vm_compute. apply elem_of_cons. by left. Qed.

(** ** What [_init_element] leaves as it was *)

Lemma extends_refl e : extends e e.
Proof. by split_and!. Qed.

Lemma extends_trans e1 e2 e3 : extends e1 e2 → extends e2 e3 → extends e1 e3.
Proof.
  intros (Ht & Hk & Hl & Hc) (Ht' & Hk' & Hl' & Hc'). split_and!; try congruence.
  intros c Hin. destruct (Hc c Hin) as [Hin2 Heq]. destruct (Hc' c Hin2) as [Hin3 Heq'].
  split; [done|congruence].
Qed.

Lemma extends_with_dimension e col v :
  contains e col = false → extends e (with_dimension e col 0 v true).
Proof.
  intros Hnot. split_and!; try done.
  - simpl. by rewrite length_fmap.
  - intros c Hc. split; [by apply contains_with_dimension_mono|].
    unfold column. simpl. rewrite <- list_fmap_compose. apply list_fmap_ext.
    intros i o _. simpl. rewrite fields_map_fields, lookup_insert_ne; [done|].
    intros ->. congruence.
Qed.

Lemma extends_options e kw : extends e (options e kw).
Proof. by split_and!. Qed.

Lemma point_add_annotations_extends s cols : ∀ e e',
  point_add_annotations s cols e = Ok e' → extends e e'.
Proof.
  induction cols as [|c cols IH]; intros e e'; simpl.
  - intros [= <-]. apply extends_refl.
  - destruct (contains e c) eqn:Hc; [by apply IH|].
    destruct (if is_dict_spec s then spec_getitem s c else Ok VNone) as [init|];
      simpl; [|done].
    add_column. intros H%IH. eapply extends_trans; [|exact H].
    by apply extends_with_dimension.
Qed.

Lemma path_add_annotations_extends s cols : ∀ e validate e' validate',
  path_add_annotations s cols e validate = Ok (e', validate') → extends e e'.
Proof.
  induction cols as [|c cols IH]; intros e validate e' validate'; simpl.
  - intros [= <- <-]. apply extends_refl.
  - destruct (contains e c) eqn:Hc; [by apply IH|].
    match goal with |- (?m ≫= _) = _ → _ => destruct m as [init|]; simpl; [|done] end.
    add_column. intros H%IH. eapply extends_trans; [|exact H].
    by apply extends_with_dimension.
Qed.

Lemma path_add_vertex_annotations_extends s cols : ∀ e e',
  path_add_vertex_annotations s cols e = Ok e' → extends e e'.
Proof.
  induction cols as [|c cols IH]; intros e e'; simpl.
  - intros [= <-]. apply extends_refl.
  - destruct (contains e c) eqn:Hc; [by apply IH|].
    match goal with |- (?m ≫= _) = _ → _ => destruct m as [init|]; simpl; [|done] end.
    add_column. intros H%IH. eapply extends_trans; [|exact H].
    by apply extends_with_dimension.
Qed.

(** X9.  [_init_element] only adds: when it succeeds, the new [object] has
    the class, the key dimensions and the number of objects of the element
    the method started from, every column of that element is still there
    with the same values on every object, and neither the instance
    dictionary nor the parameters other than [object] have changed. *)
Theorem init_element_extends (a : Annotator) (o : option Element) (a' : Annotator) :
  _init_element o a = (Ok tt, a') →
  ∃ e', object a' = Some e' ∧ extends (initial_element (a_cls a) o) e'
        ∧ attrs a' = attrs a ∧ params a' = params a.
Proof.
  intros Hrun.
  destruct (a_cls a) eqn:Hc.
  1,2: destruct (path_init_element_Ok a o a') as
         (e1 & validate & e2 & pd & kw & H1 & H2 & _ & _ & Hobj & Hat & Hp & _);
       [rewrite Hc; auto|done|];
       rewrite Hc in H1;
       (eexists; split_and!; [exact Hobj| |done|done]);
       eapply extends_trans; [by eapply path_add_annotations_extends|];
       eapply extends_trans; [by eapply path_add_vertex_annotations_extends|];
       apply extends_options.
  1,2: destruct (point_init_element_Ok a o a') as (e & kw & H1 & Hobj & Hat & Hp & _);
       [rewrite Hc; auto|done|];
       rewrite Hc in H1;
       (eexists; split_and!; [exact Hobj| |done|done]);
       eapply extends_trans; [by eapply point_add_annotations_extends|];
       apply extends_options.
Qed.

Lemma init_element_extends_witness :
  ∃ e', object (_init_element (Some one_point) point_before_init).2 = Some e'
        ∧ extends (initial_element (a_cls point_before_init) (Some one_point)) e'
        ∧ attrs (_init_element (Some one_point) point_before_init).2
          = attrs point_before_init
        ∧ params (_init_element (Some one_point) point_before_init).2
          = params point_before_init.
Proof.
  apply init_element_extends. vm_compute. reflexivity.
Defined.

(** ** Order of the added value dimensions *)

Lemma filter_missing_with_dimension e col v (cols : list string) :
  col ∉ cols →
  filter (λ c, contains (with_dimension e col 0 v true) c = false) cols
  = filter (λ c, contains e c = false) cols.
Proof.
  induction cols as [|c cols IH]; intros Hnot; [done|].
  apply not_elem_of_cons in Hnot as [Hne Hnot].
  assert (contains (with_dimension e col 0 v true) c = contains e c) as Hc.
  { rewrite contains_with_dimension. by rewrite bool_decide_eq_false_2. }
  destruct (contains e c) eqn:Hin.
  - rewrite !filter_cons_False by (rewrite ?Hc, ?Hin; done). by apply IH.
  - rewrite !filter_cons_True by (rewrite ?Hc, ?Hin; done). f_equal. by apply IH.
Qed.

Lemma point_add_annotations_vdims s cols : ∀ e e',
  NoDup cols → point_add_annotations s cols e = Ok e' →
  vdims e' = reverse (filter (λ c, contains e c = false) cols) ++ vdims e.
Proof.
  induction cols as [|c cols IH]; intros e e' Hnd; simpl.
  - by intros [= <-].
  - apply NoDup_cons in Hnd as [Hc Hnd].
    destruct (contains e c) eqn:Hin.
    + rewrite filter_cons_False by (rewrite Hin; done). by apply IH.
    + rewrite filter_cons_True by done.
      destruct (if is_dict_spec s then spec_getitem s c else Ok VNone) as [init|];
        simpl; [|done].
      add_column. intros H%IH; [|done].
      rewrite H, filter_missing_with_dimension by done.
      rewrite reverse_cons, <- app_assoc. done.
Qed.

(** X11.  The point and box annotators add each missing column with
    [add_dimension(col, 0, ...)], in front of the value dimensions: after
    [_init_element] the added columns come first and in the reverse of the
    order in which the spec lists them. *)
Theorem point_init_element_vdims (a : Annotator) (o : option Element) (a' : Annotator) :
  a_cls a = PointAnnotator ∨ a_cls a = BoxAnnotator →
  NoDup (columns_of (annotations (params a))) →
  _init_element o a = (Ok tt, a') →
  ∃ e', object a' = Some e'
        ∧ vdims e'
          = reverse (filter (λ c, contains (initial_element (a_cls a) o) c = false)
                       (columns_of (annotations (params a))))
            ++ vdims (initial_element (a_cls a) o).
Proof.
  intros Hcls Hnd Hrun.
  destruct (point_init_element_Ok a o a' Hcls Hrun) as (e & kw & H1 & Hobj & _).
  eexists. split; [exact Hobj|]. simpl. by eapply point_add_annotations_vdims.
Qed.

Lemma point_init_element_vdims_witness :
  ∃ e', object (_init_element (Some one_point) two_annotations).2 = Some e'
        ∧ vdims e'
          = reverse (filter (λ c, contains (initial_element (a_cls two_annotations)
                                              (Some one_point)) c = false)
                       (columns_of (annotations (params two_annotations))))
            ++ vdims (initial_element (a_cls two_annotations) (Some one_point)).
Proof.
  apply point_init_element_vdims.
  - left. reflexivity.
  - apply (bool_decide_unpack _). vm_compute. reflexivity.
  - vm_compute. reflexivity.
Defined.

Example added_dimensions_reversed :
  vdims <$> object (_init_element (Some one_point) two_annotations).2
  = Some ["second"; "first"].
Proof. vm_compute. reflexivity. Qed.

(** ** Defaults of a list spec *)

Lemma point_add_annotations_fill_list l cols col : ∀ e e',
  col ∈ cols → contains e col = false →
  point_add_annotations (SList l) cols e = Ok e' → filled col VNone e'.
Proof.
  induction cols as [|c cols IH]; intros e e' Hin Hnot; simpl.
  - by apply elem_of_nil in Hin.
  - destruct (decide (c = col)) as [->|Hne].
    + rewrite Hnot. simpl. add_column.
      apply point_add_annotations_keeps, filled_add_same.
    + apply elem_of_cons in Hin as [?|Hin]; [congruence|].
      destruct (contains e c) eqn:Hc; [by apply IH|].
      simpl. add_column. apply IH; [done|].
      rewrite contains_with_dimension, Hnot. by rewrite bool_decide_eq_false_2.
Qed.

Lemma path_add_annotations_fill_list l cols col : ∀ e validate e' validate',
  col ∈ cols → contains e col = false →
  path_add_annotations (SList l) cols e validate = Ok (e', validate') →
  filled col (VStr "") e'.
Proof.
  induction cols as [|c cols IH]; intros e validate e' validate' Hin Hnot; simpl.
  - by apply elem_of_nil in Hin.
  - destruct (decide (c = col)) as [->|Hne].
    + rewrite Hnot. simpl. add_column.
      apply path_add_annotations_keeps, filled_add_same.
    + apply elem_of_cons in Hin as [?|Hin]; [congruence|].
      destruct (contains e c) eqn:Hc; [by apply IH|].
      simpl. add_column. apply IH; [done|].
      rewrite contains_with_dimension, Hnot. by rewrite bool_decide_eq_false_2.
Qed.

(** X10.  With a list spec, a declared column that the element does not
    have yet is filled, on every object, with the empty string by the path
    and polygon annotators and with [None] by the point and box
    annotators. *)
Theorem list_spec_default (a : Annotator) (o : option Element) (a' : Annotator)
    (cols : list string) (col : string) :
  annotations (params a) = SList cols → col ∈ cols →
  contains (initial_element (a_cls a) o) col = false →
  _init_element o a = (Ok tt, a') →
  ∃ e', object a' = Some e' ∧ filled col (list_default (a_cls a)) e'.
Proof.
  intros Hspec Hin Hnot Hrun.
  destruct (a_cls a) eqn:Hc.
  1,2: destruct (path_init_element_Ok a o a') as
         (e1 & validate & e2 & pd & kw & H1 & H2 & _ & _ & Hobj & _);
       [rewrite Hc; auto|done|];
       rewrite Hc, Hspec in H1; simpl in H1;
       (eexists; split; [exact Hobj|]);
       apply filled_options;
       (eapply path_add_vertex_annotations_keeps; [|exact H2]);
       by eapply path_add_annotations_fill_list.
  1,2: destruct (point_init_element_Ok a o a') as (e & kw & H1 & Hobj & _);
       [rewrite Hc; auto|done|];
       rewrite Hc, Hspec in H1; simpl in H1;
       (eexists; split; [exact Hobj|]);
       apply filled_options; by eapply point_add_annotations_fill_list.
Qed.

Lemma list_spec_default_witness :
  ∃ e', object (_init_element (Some one_point) two_annotations).2 = Some e'
        ∧ filled "second" (list_default (a_cls two_annotations)) e'.
Proof.
  apply (list_spec_default two_annotations (Some one_point) _ ["first"; "second"]).
  - reflexivity.
  - apply (bool_decide_unpack _). vm_compute. reflexivity.
  - reflexivity.
  - vm_compute. reflexivity.
Defined.
(** ** Factories of a dict spec on the path annotators *)

(** X21, the sibling of C4 stated before it: a path or polygon annotator
    calls the factory of a dict spec and fills a missing column with what
    it returns.  Here with [str] as the factory of [label]. *)
Lemma path_fill_is_factory_result_witness :
  ∃ e', object (_init_element (Some (one_path [])) path_by_factory).2 = Some e'
        ∧ filled "label" (VStr "") e'.
Proof.
  apply (path_fill_is_factory_result path_by_factory (Some (one_path [])) _
           [("label", py_str)] "label" py_str (VStr "")).
  - left. reflexivity.
  - reflexivity.
  - reflexivity.
  - reflexivity.
  - vm_compute. reflexivity.
  - vm_compute. reflexivity.
Defined.

(** ** Keywords that [_init_element] cannot take from [opts] *)

Lemma dict_kwargs_tools t kw :
  dict_kwargs [("tools", t)] kw
  = if decide (kw !! "tools" = None)
    then Ok (kw ∪ list_to_map [("tools", t)])
    else Raise (TypeError "dict() got multiple values for keyword argument").
Proof.
  unfold dict_kwargs. cbn [fmap list_fmap fst].
  destruct (decide (kw !! "tools" = None)) as [H|H].
  - rewrite bool_decide_eq_true_2; [done|]. by repeat constructor.
  - rewrite bool_decide_eq_false_2; [done|]. by intros [? _]%Forall_cons.
Qed.

Lemma dict_kwargs_Ok fixed kw kw' :
  dict_kwargs fixed kw = Ok kw' → Forall (λ k, kw !! k = None) fixed.*1.
Proof. unfold dict_kwargs. case_bool_decide; [done|]. by intros. Qed.

(** [_init_element] of the point and box annotators, from the element its
    loop starts from. *)
Lemma point_init_element_cases a o :
  a_cls a = PointAnnotator ∨ a_cls a = BoxAnnotator →
  _init_element o a
  = match point_add_annotations (annotations (params a))
            (columns_of (annotations (params a))) (initial_element (a_cls a) o) with
    | Raise x => (Raise x, a)
    | Ok e' =>
        if decide (opts (params a) !! "tools" = None)
        then set_object (options e' (point_options (params a))) a
        else (Raise (TypeError "dict() got multiple values for keyword argument"), a)
    end.
Proof.
  intros Hcls.
  assert (_init_element o a = PointAnnotator_init_element o a) as ->.
  { unfold _init_element, BoxAnnotator_init_element, bind, get.
    by destruct Hcls as [-> | ->]. }
  unfold PointAnnotator_init_element, bind, get, lift.
  assert (match o with
          | Some e => if isinstance e (element_type (a_cls a)) then e
                      else construct (element_type (a_cls a)) o
                             (class_datatype (element_type (a_cls a)))
          | None => construct (element_type (a_cls a)) o
                      (class_datatype (element_type (a_cls a)))
          end = initial_element (a_cls a) o) as ->.
  { unfold initial_element. by destruct Hcls as [-> | ->]. }
  destruct (point_add_annotations _ _ _) as [e'|x]; [|done].
  rewrite dict_kwargs_tools.
  by destruct (decide (opts (params a) !! "tools" = None)).
Qed.

Lemma path_datatype_remove c :
  c = Path ∨ c = Polygons →
  list_remove "multitabular" (class_datatype c)
  = Ok ["dataframe"; "dictionary"; "dask"; "array"].
Proof. by intros [->| ->]; vm_compute. Qed.

(** [_init_element] of the path annotators, from the element its loops
    start from. *)
Lemma path_init_element_from_initial a o :
  a_cls a = PathAnnotator ∨ a_cls a = PolyAnnotator →
  _init_element o a
  = match path_add_annotations (annotations (params a))
            (columns_of (annotations (params a)))
            (initial_element (a_cls a) o) [] with
    | Raise x => (Raise x, a)
    | Ok ev =>
        match path_add_vertex_annotations (vertex_annotations (params a))
                (columns_of (vertex_annotations (params a))) ev.1 with
        | Raise x => (Raise x, a)
        | Ok element =>
            match poly_data ev.2 a with
            | (Raise x, a1) => (Raise x, a1)
            | (Ok pd, a1) =>
                if validation_fails ev.2 pd then (Raise (validation_error ev.2), a1)
                else match dict_kwargs [("tools", OTools (_tools (params a)));
                                        ("color_index", ONone)] (opts (params a)) with
                     | Raise x => (Raise x, a1)
                     | Ok kw => set_object (options element (_extra_opts (params a) ∪ kw)) a1
                     end
            end
        end
    end.
Proof.
  intros Hcls.
  unfold _init_element, PathAnnotator_init_element, initial_element.
  cbv [bind get lift ret raise].
  destruct Hcls as [Hc|Hc]; rewrite Hc; cbv beta iota; rewrite ?Hc;
    destruct o as [e|]; cbv beta iota;
    try destruct (isinstance e _) eqn:Hi;
    cbn [element_type];
    rewrite ?(path_datatype_remove Path), ?(path_datatype_remove Polygons) by tauto;
    cbn [app];
    (destruct (path_add_annotations _ _ _ _) as [[e1 v1]|]; [|reflexivity]);
    cbn [fst snd];
    (destruct (path_add_vertex_annotations _ _ _); [|reflexivity]);
    (destruct (poly_data v1 a) as [[pd|] a1]; [|reflexivity]);
    (destruct (validation_fails v1 pd); reflexivity).
Qed.

(** X12.  [_init_element] builds the options of the object with
    [dict(tools=tools, **self.opts)], the path and polygon annotators with
    [dict(tools=tools, color_index=None, **self.opts)].  When [opts] has an
    entry for a keyword that the call already gives, [_init_element] raises,
    there or before, and stores nothing: the instance is left as it was,
    whatever the object and the annotation spec are. *)
Theorem init_element_needs_free_keywords (a : Annotator) (o : option Element) :
  opts (params a) !! "tools" ≠ None
  ∨ ((a_cls a = PathAnnotator ∨ a_cls a = PolyAnnotator)
     ∧ opts (params a) !! "color_index" ≠ None) →
  ∃ x, _init_element o a = (Raise x, a).
Proof.
  intros Hkw.
  assert (a_cls a = PathAnnotator ∨ a_cls a = PolyAnnotator
          ∨ a_cls a = PointAnnotator ∨ a_cls a = BoxAnnotator) as Hcls.
  { destruct (a_cls a); tauto. }
  destruct Hcls as [Hc|[Hc|Hcls]].
  1, 2: rewrite path_init_element_from_initial by tauto;
    destruct (path_add_annotations _ _ _ _) as [ev|]; [|by eexists];
    destruct (path_add_vertex_annotations _ _ _) as [element|]; [|by eexists];
    destruct (poly_data ev.2 a) as [[pd|] a1] eqn:Hpd;
    apply poly_data_state in Hpd as ->; [|by eexists];
    destruct (validation_fails ev.2 pd); [by eexists|];
    destruct (dict_kwargs _ _) as [kw|] eqn:Hd; [|by eexists];
    apply dict_kwargs_Ok in Hd;
    apply Forall_cons in Hd as [Ht Hd]; apply Forall_cons in Hd as [Hci _];
    simpl in Ht, Hci; tauto.
  rewrite point_init_element_cases by done.
  destruct (point_add_annotations _ _ _) as [e'|]; [|by eexists].
  destruct Hkw as [Ht|[[Hc|Hc] _]].
  - rewrite decide_False by done. by eexists.
  - destruct Hcls; congruence.
  - destruct Hcls; congruence.
Qed.

Lemma init_element_needs_free_keywords_witness :
  ∃ x, _init_element None point_with_tools = (Raise x, point_with_tools).
Proof.
  apply init_element_needs_free_keywords. left. by vm_compute.
Defined.

(** ** Columns that [_init_element] of the path annotators cannot take *)

Lemma contains_with_dimension_false e col v c :
  contains (with_dimension e col 0 v true) c = false ↔ c ≠ col ∧ contains e c = false.
Proof.
  rewrite contains_with_dimension, orb_false_iff, bool_decide_eq_false. tauto.
Qed.

(** Nothing is queued for validation exactly when the columns are distinct
    and none of them is on the element. *)
Lemma path_add_annotations_validate s cols : ∀ e validate e' validate',
  path_add_annotations s cols e validate = Ok (e', validate') →
  validate' = [] ↔
  validate = [] ∧ NoDup cols ∧ Forall (λ c, contains e c = false) cols.
Proof.
  induction cols as [|c cols IH]; intros e validate e' validate'; simpl.
  - intros [= <- <-]. split; [intros ->|by intros [-> _]].
    split_and!; [done|constructor|constructor].
  - destruct (contains e c) eqn:Hc.
    + intros Hiff%IH. rewrite Hiff. split.
      * intros [Hnil _]. by destruct validate.
      * intros (_ & _ & Hall). apply Forall_cons in Hall as [? _]. congruence.
    + match goal with |- (?m ≫= _) = _ → _ => destruct m as [init|]; simpl; [|done] end.
      add_column. intros Hiff%IH. rewrite Hiff.
      rewrite NoDup_cons, Forall_cons.
      assert (Forall (λ c0, contains (with_dimension e c 0 init true) c0 = false) cols
              ↔ (c ∉ cols) ∧ Forall (λ c0, contains e c0 = false) cols) as ->.
      { rewrite !Forall_forall. split.
        - intros H. split.
          + intros Hin. apply H, contains_with_dimension_false in Hin as [? _]. done.
          + intros x Hx. by apply (contains_with_dimension_false e c init), H.
        - intros [Hnot H] x Hx. apply contains_with_dimension_false.
          split; [by intros ->|by apply H]. }
      tauto.
Qed.

(** X13.  A path or polygon annotator cannot be given a column that is
    already there.  On an instance without the attribute [element], which
    the file never assigns, [_init_element] succeeds only if the declared
    annotation columns are distinct and none of them is on the element the
    method starts from, and [opts] names neither [tools] nor [color_index]:
    a column that is already on the element is queued for validation, and
    the validation reads [self.element]. *)
Theorem path_init_element_success_needs (a : Annotator) (o : option Element)
    (a' : Annotator) :
  a_cls a = PathAnnotator ∨ a_cls a = PolyAnnotator →
  attrs a !! "element" = None →
  _init_element o a = (Ok tt, a') →
  NoDup (columns_of (annotations (params a)))
  ∧ Forall (λ c, contains (initial_element (a_cls a) o) c = false)
      (columns_of (annotations (params a)))
  ∧ opts (params a) !! "tools" = None
  ∧ opts (params a) !! "color_index" = None.
Proof.
  intros Hcls Hnone. rewrite path_init_element_from_initial by done.
  destruct (path_add_annotations _ _ _ _) as [[e1 validate]|] eqn:H1; [|done].
  cbn [fst snd].
  destruct (path_add_vertex_annotations _ _ _) as [e2|]; [|done].
  destruct validate as [|c validate].
  - apply path_add_annotations_validate in H1.
    destruct (proj1 H1 eq_refl) as (_ & Hnd & Hall).
    assert (poly_data [] a = (Ok [], a)) as -> by reflexivity.
    cbn [validation_fails bool_decide andb decide_rel]. rewrite validation_fails_nil.
    destruct (dict_kwargs _ _) as [kw|] eqn:Hd; [|done].
    apply dict_kwargs_Ok in Hd.
    apply Forall_cons in Hd as [Ht Hd]. apply Forall_cons in Hd as [Hci _].
    by intros _.
  - by rewrite (poly_data_raises (c :: validate) a Hnone).
Qed.

Lemma path_init_element_success_needs_witness :
  NoDup (columns_of (annotations (params (path_before_init (one_path [])))))
  ∧ Forall (λ c, contains (initial_element (a_cls (path_before_init (one_path [])))
                             (Some (one_path []))) c = false)
      (columns_of (annotations (params (path_before_init (one_path [])))))
  ∧ opts (params (path_before_init (one_path []))) !! "tools" = None
  ∧ opts (params (path_before_init (one_path []))) !! "color_index" = None.
Proof.
  apply (path_init_element_success_needs (path_before_init (one_path []))
           (Some (one_path []))
           (_init_element (Some (one_path [])) (path_before_init (one_path []))).2).
  - left. reflexivity.
  - by vm_compute.
  - by vm_compute.
Defined.

(** The other way round, on the worked path that has the label already. *)
Example present_column_raises :
  (_init_element (Some constant_label) (path_before_init constant_label)).1
  = Raise (AttributeError "element").
Proof. by vm_compute. Qed.

(** ** What the constructor of the point and box annotators needs *)

Lemma box_table_Ok d s t : box_table d s = Ok t → is_dict_spec s = false.
Proof. by destruct s. Qed.

Lemma box_init_table_Ok a a' :
  a_cls a = BoxAnnotator → _init_table a = (Ok tt, a') →
  is_dict_spec (annotations (params a)) = false.
Proof.
  intros Hc H.
  unfold _init_table, BoxAnnotator_init_table, _table_data, setattr in H.
  run_method H Hc.
  match goal with H : box_table _ _ = Ok _ |- _ => apply box_table_Ok in H; exact H end.
Qed.

(** X14.  The constructor of a point or box annotator returns only if the
    [object] argument is [None] or of the annotator's element class and
    [opts] has no [tools] entry; that of a box annotator, moreover, only if
    the annotations are a list: [_init_table] passes them to [Table] as the
    value dimensions, which does not take a dict of defaults. *)
Theorem point_constructor_success_needs (c : cls) (name : string) (p : Params)
    (o : option Element) (a : Annotator) :
  c = PointAnnotator ∨ c = BoxAnnotator →
  Annotator_init c name p o = (Ok tt, a) →
  accepted c o ∧ opts p !! "tools" = None
  ∧ (c = BoxAnnotator → is_dict_spec (annotations p) = false).
Proof.
  intros Hc. unfold Annotator_init.
  destruct (PaneBase_init c name p o) as [[[]|e] a0] eqn:E; [|done].
  assert (accepted c o ∧ framed c p a0) as [Hacc Hframed].
  { unfold PaneBase_init, accepted in *. repeat case_match; by simplify_eq. }
  clear E. unfold Annotator_init_body. intros Hrun.
  apply bind_Ok in Hrun as (? & ? & ->%setattr_Ok & Hrun).
  apply bind_Ok in Hrun as (? & ? & ->%setattr_Ok & Hrun).
  apply bind_Ok in Hrun as (? & ? & ->%setattr_Ok & Hrun).
  apply bind_Ok in Hrun as ([] & a2 & Hinit & _).
  unfold _initialize, preprocess in Hinit.
  apply bind_Ok in Hinit as (? & a1 & ->%modify_Ok & Hinit).
  apply bind_Ok in Hinit as (? & a3 & Hbody & _).
  unfold _initialize_body in Hbody.
  apply bind_Ok in Hbody as (? & ? & [= <- <-] & Hbody).
  apply bind_Ok in Hbody as ([] & a4 & Hel & Hrest).
  apply bind_Ok in Hrest as ([] & a5 & Htab & _).
  destruct Hframed as [Hcls Hp].
  split; [done|].
  assert (a_cls a4 = c ∧ params a4 = p) as [Hcls4 Hp4].
  { apply point_init_element_Ok in Hel as (? & ? & _ & _ & _ & -> & ->);
      [done|cbn; rewrite Hcls; tauto]. }
  split.
  - rewrite point_init_element_cases in Hel by (cbn; rewrite Hcls; tauto).
    destruct (point_add_annotations _ _ _); [|done].
    cbn [params set_event_state set_attrs] in Hel. rewrite Hp in Hel.
    by destruct (decide (opts p !! "tools" = None)).
  - intros ->. rewrite <- Hp4. by eapply box_init_table_Ok.
Qed.

Lemma point_constructor_success_needs_witness :
  accepted BoxAnnotator None
  ∧ opts (default_params BoxAnnotator) !! "tools" = None
  ∧ (BoxAnnotator = BoxAnnotator
     → is_dict_spec (annotations (default_params BoxAnnotator)) = false).
Proof.
  apply (point_constructor_success_needs BoxAnnotator "BoxAnnotator"
           (default_params BoxAnnotator) None fresh_box_annotator).
  - right. reflexivity.
  - by vm_compute.
Defined.

(** A box annotator with a dict of defaults, none of them a factory: the
    columns are added, and the constructor stops at the table. *)
Example box_with_dict_raises :
  ∃ x, (Annotator_init BoxAnnotator "BoxAnnotator"
          (with_annotations (SDict [("label", VStr "")]) (default_params BoxAnnotator))
          None).1 = Raise x.
Proof. eexists. by vm_compute. Qed.

(** ** Running [_initialize] again on a point or box annotator *)

Lemma point_add_annotations_present s cols : ∀ e e',
  point_add_annotations s cols e = Ok e' →
  el_type e' = el_type e ∧ (∀ c, contains e c = true → contains e' c = true)
  ∧ Forall (λ c, contains e' c = true) cols.
Proof.
  induction cols as [|c cols IH]; intros e e' H; simpl in H.
  - by simplify_eq.
  - destruct (contains e c) eqn:Hc.
    + apply IH in H as (Ht & Hmono & Hall). split_and!; [done|done|].
      constructor; [by apply Hmono|done].
    + destruct (if is_dict_spec s then spec_getitem s c else Ok VNone) as [v|x];
        [|done].
      simpl in H. destruct (add_dimension e c 0 v true) as [e1|] eqn:Hadd; [|done].
      apply add_dimension_Ok in Hadd as (-> & _ & _).
      simpl in H. apply IH in H as (Ht & Hmono & Hall). split_and!; [done| |].
      * intros c' Hc'. by apply Hmono, contains_with_dimension_mono.
      * constructor; [|done]. apply Hmono. rewrite contains_with_dimension.
        by rewrite bool_decide_eq_true_2.
Qed.

Lemma point_add_annotations_all_present s cols e :
  Forall (λ c, contains e c = true) cols → point_add_annotations s cols e = Ok e.
Proof.
  induction 1 as [|c cols Hc _ IH]; simpl; [done|]. by rewrite Hc.
Qed.

Lemma options_idemp e kw : options (options e kw) kw = options e kw.
Proof.
  unfold options. cbn. f_equal.
  by rewrite (assoc_L (∪)), (idemp_L (∪)).
Qed.

Lemma initial_element_given c e :
  isinstance e (element_type c) = true → initial_element c (Some e) = e.
Proof. intros H. unfold initial_element. by rewrite H. Qed.


(** A first run that returns had no [tools] among the [opts] and stored a
    settled object. *)
Lemma point_init_element_first a o a' :
  a_cls a = PointAnnotator ∨ a_cls a = BoxAnnotator →
  _init_element o a = (Ok tt, a') →
  opts (params a) !! "tools" = None
  ∧ ∃ obj, _init_element o a = set_object obj a ∧ settled a obj.
Proof.
  intros Hcls. rewrite (point_init_element_cases a o Hcls).
  destruct (point_add_annotations _ _ _) as [e|] eqn:He; [|done].
  destruct (decide (opts (params a) !! "tools" = None)) as [Ht|]; [|done].
  intros _. split; [done|]. eexists. split; [done|].
  apply point_add_annotations_present in He as (Hty & _ & Hall).
  split_and!; [|done|apply options_idemp].
  rewrite <- (initial_element_isinstance (a_cls a) o).
  by apply isinstance_el_type.
Qed.

Lemma point_init_element_again a obj :
  a_cls a = PointAnnotator ∨ a_cls a = BoxAnnotator →
  opts (params a) !! "tools" = None →
  settled a obj →
  _init_element (Some obj) a = set_object obj a.
Proof.
  intros Hcls Ht (Hinst & Hall & Hopt).
  rewrite (point_init_element_cases a (Some obj) Hcls).
  rewrite initial_element_given, point_add_annotations_all_present by done.
  rewrite decide_True by done. by rewrite Hopt.
Qed.

Lemma step_lift_Raise {A B} x (k : A → M B) a : bind (lift (Raise x)) k a = (Raise x, a).
Proof. done. Qed.

(** X15.  A point or box annotator can be initialized again: on an
    instance the constructor has just returned, [_initialize] with no
    argument succeeds and leaves the instance equal, value by value, to what
    it was (the columns are all present, the options are merged once more
    to the same effect, and the stream, the table and the links are rebuilt
    from the same inputs).  The path annotators differ, see C8. *)
Theorem point_reinitialize_same (c : cls) (name : string) (p : Params)
    (o : option Element) (a : Annotator) :
  c = PointAnnotator ∨ c = BoxAnnotator →
  Annotator_init c name p o = (Ok tt, a) →
  _initialize None a = (Ok tt, a).
Proof.
  intros Hc Hinit.
  unfold Annotator_init, PaneBase_init in Hinit.
  set (a0 := {| a_cls := c; a_name := name; params := p; object := o;
                batch_watch := false; events := []; watchers := [];
                attrs := {["layout" := ORow []]} |}) in Hinit.
  assert (Annotator_init_body o a0 = (Ok tt, a)) as Hbody.
  { destruct o as [e|]; [destruct (isinstance e (element_type c))|]; done. }
  clear Hinit. revert Hbody. subst a0.
  unfold Annotator_init_body. repeat run_step.
  norm_state.
  match goal with
  | |- context [bind (_initialize o) ?k ?a] => set (a3 := a)
  end.
  set (a4 := set_event_state true (events a3) a3).
  destruct (_init_element (match o with None => object a4 | Some _ => o end) a4)
    as [[[]|x] a5] eqn:Hel; cycle 1.
  { assert (_initialize o a3 = (Raise x, a5)) as Hi.
    { rewrite initialize_unfold. fold a4. unfold _initialize_body.
      rewrite step_get. by erewrite step_Raise by exact Hel. }
    by erewrite step_Raise by exact Hi. }
  destruct (point_init_element_first a4 _ a5 Hc Hel) as (Ht & obj & Hfirst & Hsettled).
  clear Hel. cbn in Ht.
  destruct Hc as [-> | ->]; [|destruct (annotations p) as [cols|items] eqn:Hann].
  3: { eassert (_initialize o a3 = (Raise _, _)) as Hi.
       { rewrite initialize_unfold; fold a4; unfold _initialize_body.
         rewrite step_get. erewrite step_Ok by exact Hfirst.
         subst a4 a3.
         unfold _init_table, BoxAnnotator_init_table, set_object, modify.
         repeat run_step. rewrite Hann. cbn [box_table].
         rewrite step_lift_Raise. reflexivity. }
       by erewrite step_Raise by exact Hi. }
  all: eassert (_initialize o a3 = (Ok tt, _)) as Hi.
  1, 3: rewrite initialize_unfold; fold a4; unfold _initialize_body;
    rewrite step_get; erewrite step_Ok by exact Hfirst;
    subst a4 a3;
    unfold _init_table, PointAnnotator_init_table, BoxAnnotator_init_table,
      set_object, modify;
    repeat run_step; rewrite ?Hann; cbn [box_table];
    repeat run_step; unfold setattr, modify; norm_state; reflexivity.
  all: erewrite step_Ok by exact Hi; clear Hi Hfirst.
  all: repeat run_step; unfold setattr, modify; norm_state; intros [= <-].
  all: rewrite initialize_unfold; unfold _initialize_body; rewrite step_get;
    norm_state.
  all: erewrite step_Ok;
    [|apply point_init_element_again; [first [by left|by right]|done|exact Hsettled]].
  all: unfold _init_table, PointAnnotator_init_table, BoxAnnotator_init_table,
    set_object, modify.
  all: norm_state; rewrite step_bind; repeat run_step.
  all: rewrite ?Hann; cbn [box_table]; repeat run_step.
  all: unfold setattr, modify; norm_state.
  all: do 2 f_equal; attrs_eq.
Qed.

Lemma point_reinitialize_same_witness :
  _initialize None fresh_point_annotator = (Ok tt, fresh_point_annotator).
Proof.
  apply (point_reinitialize_same PointAnnotator "PointAnnotator"
           (default_params PointAnnotator) None).
  - left. reflexivity.
  - vm_compute. reflexivity.
Defined.

(** ** What a successful [_initialize] leaves wired *)

Lemma init_table_post a a' :
  _init_table a = (Ok tt, a') →
  object a' = object a
  ∧ (∀ n, n = "_selection" ∨ n = "editor" → attrs a' !! n = attrs a !! n)
  ∧ ∃ stream tables,
      attrs a' !! "_stream" = Some (OStream stream)
      ∧ s_source stream = object a
      ∧ s_subscribers stream = []
      ∧ attrs a' !! "_tables" = Some (OTables tables).
Proof.
  intros H.
  unfold _init_table, PathAnnotator_init_table, PointAnnotator_init_table,
    BoxAnnotator_init_table, _table_data, object_attr, setattr in H.
  destruct (a_cls a) eqn:Hc; run_method H Hc; simplify_eq.
  all: (split; [by rewrite !object_set_attrs|]).
  all: (split; [intros n [-> | ->]; by attr_through|]).
  all: eexists _, _; split_and!;
    [ attr_through; apply lookup_insert_eq
    | reflexivity | reflexivity
    | attr_through; apply lookup_insert_eq ].
Qed.

(** X16.  Whenever [_initialize] succeeds, for every class and from every
    state: the edit stream is a new one whose source is the annotator's
    [object] and whose only subscriber is [_update_element]; the selection
    stream has the same [object] as its source; and the editor shows exactly
    the tables in [_tables]. *)
Theorem initialize_wires (o : option Element) (a a' : Annotator) :
  _initialize o a = (Ok tt, a') → wired a'.
Proof.
  intros H. rewrite initialize_unfold in H.
  destruct (_initialize_body o (set_event_state true (events a) a))
    as [[[]|x] a2] eqn:Hb; [|done].
  injection H as <-.
  unfold _initialize_body, getattr, setattr in Hb.
  cbv [bind get lift ret raise modify] in Hb; cbv beta iota in Hb.
  repeat (case_match; simplify_eq).
  all: repeat match goal with u : unit |- _ => destruct u end.
  all: match goal with H : _init_table _ = _ |- _ =>
         apply init_table_post in H
           as (Hobj & Hsame & stream & tables & Hst & Hsrc & Hsub & Hts)
       end.
  all: repeat match goal with
         | H : as_stream ?o _ = Ok _ |- _ => destruct o; simplify_eq/=
         | H : attrs (set_attrs _ _) !! _ = _ |- _ =>
             revert H; attr_through; intros H
         | H : <[_ := _]> _ !! _ = _ |- _ =>
             revert H; attr_through; intros H
         end.
  all: simplify_eq.
  all: eexists _, _, _; cbn [attrs object set_event_state set_attrs].
  all: split_and!;
    [ apply lookup_insert_eq
    | simpl; congruence
    | simpl; by rewrite Hsub
    | rewrite !lookup_insert_ne by done; apply lookup_insert_eq
    | reflexivity
    | by rewrite !lookup_insert_ne by done
    | rewrite lookup_insert_ne by done; apply lookup_insert_eq ].
Qed.

Lemma initialize_wires_witness : wired fresh_point_annotator.
Proof.
  apply (initialize_wires None fresh_point_annotator).
  vm_compute. reflexivity.
Defined.

(** ** The annotation table of the path annotators *)

Lemma for_each_Ok {A B} (f : A → result B) l r :
  for_each f l = Ok r → Forall2 (λ x y, f x = Ok y) l r.
Proof.
  revert r. induction l as [|x l IH]; intros r H; simpl in H.
  - simplify_eq. constructor.
  - destruct (f x) as [y|] eqn:Hx; [|done]. simpl in H.
    destruct (for_each f l) as [ys|] eqn:Hl; [|done]. simpl in H. simplify_eq.
    constructor; [done|]. by apply IH.
Qed.

Lemma dict_set_Forall {V} (P : string * V → Prop) k v d :
  P (k, v) → Forall P d → Forall P (dict_set k v d).
Proof.
  intros Hkv. induction 1 as [|[k' v'] d Hx Hd IH]; simpl.
  - by constructor.
  - destruct (decide (k = k')); constructor; auto.
Qed.

Lemma dict_of_items_Forall {V} (P : string * V → Prop) items :
  Forall P items → Forall P (dict_of_items items).
Proof.
  unfold dict_of_items. intros H.
  assert (∀ acc, Forall P acc → Forall P (foldl (λ d kv, dict_set kv.1 kv.2 d) acc items))
    as Hgen.
  { induction H as [|[k v] items Hx Hitems IH]; intros acc Hacc; simpl; [done|].
    apply IH. by apply dict_set_Forall. }
  apply Hgen. constructor.
Qed.

(** Assigning to a key of an insertion-ordered dictionary keeps the keys in
    place and appends a new one. *)
Lemma dict_set_keys {V} k (v : V) d :
  (dict_set k v d).*1 = if decide (k ∈ d.*1) then d.*1 else d.*1 ++ [k].
Proof.
  induction d as [|[k' v'] d IH]; [done|].
  cbn [dict_set]. rewrite (fmap_cons fst (k', v') d). cbn [fst].
  destruct (decide (k = k')) as [->|Hne].
  - rewrite fmap_cons. cbn [fst]. rewrite decide_True; [done|]. apply elem_of_cons. by left.
  - rewrite fmap_cons, IH. cbn [fst]. destruct (decide (k ∈ d.*1)) as [Hin|Hnot].
    + rewrite decide_True; [done|]. apply elem_of_cons. by right.
    + rewrite decide_False; [done|]. intros [?|?]%elem_of_cons; done.
Qed.

Lemma dict_of_items_keys {V} (items : list (string * V)) :
  NoDup (dict_of_items items).*1
  ∧ ∀ k, k ∈ (dict_of_items items).*1 ↔ k ∈ items.*1.
Proof.
  unfold dict_of_items.
  assert (∀ acc : list (string * V), NoDup acc.*1 →
            NoDup (foldl (λ d kv, dict_set kv.1 kv.2 d) acc items).*1
            ∧ ∀ k, k ∈ (foldl (λ d kv, dict_set kv.1 kv.2 d) acc items).*1
                   ↔ k ∈ acc.*1 ∨ k ∈ items.*1) as Hgen.
  { induction items as [|[k v] items IH]; intros acc Hacc; simpl.
    - split; [done|]. intros k. rewrite elem_of_nil. tauto.
    - destruct (IH (dict_set k v acc)) as [Hnd Hin].
      + rewrite dict_set_keys. destruct (decide (k ∈ acc.*1)); [done|].
        apply NoDup_app. split_and!; [done| |apply NoDup_singleton].
        intros x Hx ->%list_elem_of_singleton. done.
      + split; [done|]. intros x. rewrite Hin, dict_set_keys, elem_of_cons.
        destruct (decide (k ∈ acc.*1)) as [Hk|Hk].
        * split; [tauto|]. intros [?|[->|?]]; tauto.
        * rewrite elem_of_app, list_elem_of_singleton. tauto. }
  destruct (Hgen [] (NoDup_nil_2)) as [Hnd Hin]. split; [done|].
  intros k. rewrite Hin, elem_of_nil. tauto.
Qed.

(** The entry of one path in one column of the table. *)
Lemma first_value_of_split e o c v :
  dimension_values_unexpanded (with_data e [o]) c ≫= first_value = Ok v →
  first_distinct o c v.
Proof.
  unfold dimension_values_unexpanded. destruct (contains _ c); [|done].
  cbn [data with_data for_each]. destruct (fields o !! c) as [cell|] eqn:Hc; [|done].
  simpl. rewrite app_nil_r. intros H. exists cell. split; [done|].
  destruct (unique_values cell); simpl in *; by simplify_eq.
Qed.

Lemma table_rows_one_per_path e cols items :
  Forall2 (λ c cv,
             for_each (λ d, dimension_values_unexpanded d c ≫= first_value) (split e)
             ≫= (λ vs, Ok (c, vs)) = Ok cv) cols items →
  items.*1 = cols
  ∧ Forall (λ cv, Forall2 (λ o v, first_distinct o cv.1 v) (data e) cv.2) items.
Proof.
  induction 1 as [|c cv cols items Hcv _ [IHk IH]]; [by split|].
  destruct (for_each _ (split e)) as [vs|] eqn:E; simpl in Hcv; simplify_eq.
  split; [by cbn|]. constructor; [|done]. cbn.
  apply for_each_Ok in E. unfold split in E. apply Forall2_fmap_l in E.
  eapply Forall2_impl; [exact E|]. intros o v Hv. by apply (first_value_of_split e).
Qed.

(** X17.  When [_init_table] of a path or polygon annotator succeeds (no
    table transforms), the annotation table it builds has the declared
    annotation columns as key dimensions, no value dimensions, and one row
    per path of the object: its columns are the declared columns, each once,
    and a column holds, path by path, the first of the distinct values the
    path has in that column. *)
Theorem path_table_rows (a a' : Annotator) (e : Element) :
  a_cls a = PathAnnotator ∨ a_cls a = PolyAnnotator →
  object a = Some e →
  table_transforms (params a) = [] →
  _init_table a = (Ok tt, a') →
  ∃ t rows,
    attrs a' !! "_table" = Some (OTable t)
    ∧ t_data t = Columns rows
    ∧ t_kdims t = Some (columns_of (annotations (params a)))
    ∧ t_vdims t = Some []
    ∧ NoDup rows.*1
    ∧ (∀ c, c ∈ rows.*1 ↔ c ∈ columns_of (annotations (params a)))
    ∧ Forall (λ cv, Forall2 (λ o v, first_distinct o cv.1 v) (data e) cv.2) rows.
Proof.
  intros Hcls Hobj Htr H.
  unfold _init_table, PathAnnotator_init_table, _table_data, object_attr, setattr in H.
  destruct Hcls as [Hc|Hc]; run_method H Hc; simplify_eq.
  all: repeat match goal with
         | H : context [object (set_attrs _ _)] |- _ => rewrite object_set_attrs in H
         | H : context [params (set_attrs _ _)] |- _ => rewrite params_set_attrs in H
         end.
  all: match goal with
       | H : foldl _ _ _ = Some _ |- _ => rewrite Htr, Hobj in H; simpl in H
       end; simplify_eq.
  all: match goal with
       | H : dict_of_items <$> ?m = Ok _ |- _ =>
           destruct m as [items|] eqn:Hitems; [|done]; simpl in H
       end; simplify_eq.
  all: apply for_each_Ok, table_rows_one_per_path in Hitems as [Hkeys Hrows].
  all: destruct (dict_of_items_keys items) as [Hnd Hin].
  all: eexists _, _; split_and!;
    [ attr_through; apply lookup_insert_eq
    | reflexivity | reflexivity | reflexivity
    | exact Hnd
    | intros c; by rewrite Hin, Hkeys
    | by apply dict_of_items_Forall ].
Qed.

Lemma path_table_rows_witness :
  ∃ t rows,
    attrs (_init_table (path_before_init constant_label)).2 !! "_table" = Some (OTable t)
    ∧ t_data t = Columns rows
    ∧ t_kdims t = Some (columns_of (annotations (params (path_before_init constant_label))))
    ∧ t_vdims t = Some []
    ∧ NoDup rows.*1
    ∧ (∀ c, c ∈ rows.*1
            ↔ c ∈ columns_of (annotations (params (path_before_init constant_label))))
    ∧ Forall (λ cv, Forall2 (λ o v, first_distinct o cv.1 v) (data constant_label) cv.2)
        rows.
Proof.
  apply (path_table_rows (path_before_init constant_label)
           (_init_table (path_before_init constant_label)).2 constant_label).
  - left. reflexivity.
  - vm_compute. reflexivity.
  - reflexivity.
  - vm_compute. reflexivity.
Defined.

(** The table of the worked path: one column, one row, the label. *)
Example path_table_of_constant_label :
  ∃ t, attrs (_init_table (path_before_init constant_label)).2 !! "_table"
       = Some (OTable t)
       ∧ t_data t = Columns [("label", [VStr "a"])].
Proof. eexists. split; by vm_compute. Qed.

End AnnotFacts.

(* ===================================================================== *)
(** * Properties of the manager *)
(* ===================================================================== *)

Module ManagerFacts.
Import Py Elem Annot Manager Notions AnnotFacts.

(** ** Rejected layers *)

(** C5.  For an object that is neither an annotator nor an element,
    [add_layer] raises the error that reports the wrong type of layer (a
    [ValueError] in Python's classes) before it touches anything: the store,
    and with it the manager's list of layers, is after the call what it was
    before. *)
Theorem add_layer_rejects_other (validates : bool) (m : nat) (v : value) (w : World) :
  add_layer validates m (LOther v) w
  = (Raise (ValueError "Annotator layer must be a Annotator subclass or a HoloViews/GeoViews element."), w)
  ∧ layers_of (add_layer validates m (LOther v) w).2 m = layers_of w m.
Proof. split; reflexivity. Qed.

(** ** Each manager has its own list of layers *)

Lemma wf_fresh w : wf w → lists w !! next_ref w = None ∧ managers w !! S (next_ref w) = None
  ∧ next_ref w ≠ layers_default_ref ∧ next_ref w ≠ init_default_ref.
Proof.
  intros (H0 & H1 & Hfresh). split_and!.
  - apply Hfresh. lia.
  - apply Hfresh. lia.
  - intros Heq. destruct (Hfresh layers_default_ref) as [? _]; [lia|congruence].
  - intros Heq. destruct (Hfresh init_default_ref) as [? _]; [lia|congruence].
Qed.

(** Running the primitives of the store, one at a time. *)
Section run.
Context {B : Type}.

Lemma run_bind {A A'} (m : W A) (f : A → W A') (g : A' → W B) w :
  bind (bind m f) g w = bind m (λ x, bind (f x) g) w.
Proof. unfold bind. by destruct (m w) as [[x|e] w']. Qed.

Lemma run_ret {A} (x : A) (k : A → W B) w : bind (ret x) k w = k x w.
Proof. done. Qed.

Lemma run_get_list l items (k : list Layer → W B) w :
  lists w !! l = Some items → bind (get_list l) k w = k items w.
Proof. intros H. unfold bind, get_list. by rewrite H. Qed.

Lemma run_get_manager m mg (k : AnnotationManager → W B) w :
  managers w !! m = Some mg → bind (get_manager m) k w = k mg w.
Proof. intros H. unfold bind, get_manager. by rewrite H. Qed.

Lemma run_new_ref (k : nat → W B) w :
  bind new_ref k w
  = k (next_ref w) {| lists := lists w; annotators := annotators w;
                      managers := managers w; next_ref := S (next_ref w) |}.
Proof. done. Qed.

Lemma run_put_list l items (k : unit → W B) w :
  bind (put_list l items) k w
  = k tt {| lists := <[l := items]> (lists w); annotators := annotators w;
            managers := managers w; next_ref := next_ref w |}.
Proof. done. Qed.

Lemma run_put_manager m mg (k : unit → W B) w :
  bind (put_manager m mg) k w
  = k tt {| lists := lists w; annotators := annotators w;
            managers := <[m := mg]> (managers w); next_ref := next_ref w |}.
Proof. done. Qed.
End run.

Ltac store_lookup :=
  cbn [lists managers next_ref annotators m_layers];
  first [ eassumption
        | rewrite lookup_insert_eq; reflexivity
        | rewrite lookup_insert_ne by (done || lia); store_lookup ].

Ltac world_step :=
  cbn [lists managers next_ref annotators for_ m_layers m_plot m_editor m_layout
       m_opts m_table_opts set_plot set_editor set_layout];
  first [ rewrite run_bind
        | rewrite run_ret
        | rewrite run_new_ref
        | rewrite run_put_list
        | rewrite run_put_manager
        | erewrite run_get_list by store_lookup
        | erewrite run_get_manager by store_lookup ].

(** The constructor without a [layers] argument, run on a well-formed
    store: a new list, a new manager, nothing else touched. *)
Lemma AnnotationManager_init_default validates opts table_opts w :
  wf w →
  AnnotationManager_init validates Default opts table_opts w
  = (Ok (S (next_ref w)),
     {| lists := <[next_ref w := []]> (lists w);
        annotators := annotators w;
        managers := <[S (next_ref w) := fresh_manager (next_ref w) opts table_opts]>
                      (managers w);
        next_ref := S (S (next_ref w)) |}).
Proof.
  intros Hwf. destruct (wf_fresh w Hwf) as (Hl & Hm & Hn0 & Hn1).
  destruct Hwf as (H0 & H1 & _).
  destruct w as [ls an ms n]. cbn [lists managers next_ref annotators] in *.
  unfold AnnotationManager_init, instantiate_param, layers_param.
  cbn [instantiate default_ref].
  repeat world_step.
  unfold _get_plot. repeat world_step.
  unfold _update_editor. repeat world_step.
  unfold ret. cbn [lists managers next_ref annotators].
  rewrite !insert_insert_eq. reflexivity.
Qed.

Lemma wf_after_init w opts table_opts :
  wf w →
  wf {| lists := <[next_ref w := []]> (lists w);
        annotators := annotators w;
        managers := <[S (next_ref w) := fresh_manager (next_ref w) opts table_opts]>
                      (managers w);
        next_ref := S (S (next_ref w)) |}.
Proof.
  intros Hwf. destruct (wf_fresh w Hwf) as (Hl & Hm & Hn0 & Hn1).
  destruct Hwf as (H0 & H1 & Hfresh). split_and!; cbn [lists managers next_ref].
  - by rewrite lookup_insert_ne.
  - by rewrite lookup_insert_ne.
  - intros k Hk. destruct (Hfresh k) as [??]; [lia|].
    rewrite !lookup_insert_ne by lia. done.
Qed.

Lemma initial_world_wf : wf initial_world.
Proof.
  split_and!; [done|done|]. intros k Hk. simpl in Hk. split; [|done].
  unfold initial_world. cbn [lists].
  rewrite lookup_insert_ne by (unfold layers_default_ref; lia).
  apply lookup_singleton_ne. unfold init_default_ref. lia.
Qed.

Lemma get_plot_loop_elements {B} items : ∀ acc (k : list Element → W B) w,
  elements_only items →
  bind ((fix loop (todo : list Layer) (layers : list Element) : W (list Element) :=
           match todo with
           | [] => ret layers
           | LAnnotator id :: todo' =>
               bind (on_annotator id (getattr "element"))
                 (λ o, match o with
                       | OElement e => loop todo' (layers ++ [e])
                       | _ => raise (TypeError "layer is not an element")
                       end)
           | LElement e :: todo' => loop todo' (layers ++ [e])
           | LOther _ :: todo' => raise (TypeError "layer is not an element")
           end) items acc) k w
  = k (acc ++ elements_of items) w.
Proof.
  induction items as [|[id|e|v] items IH]; intros acc k w Hel.
  - cbn. by rewrite app_nil_r.
  - by apply Forall_cons in Hel as [[] _].
  - apply Forall_cons in Hel as [_ Hel]. rewrite IH by done.
    unfold elements_of. cbn. by rewrite <- app_assoc.
  - by apply Forall_cons in Hel as [[] _].
Qed.

Lemma update_editor_loop_elements {B} items table_opts :
  ∀ acc (k : list (string * Table) → W B) w,
  elements_only items →
  bind ((fix loop (todo : list Layer) (tables : list (string * Table))
           : W (list (string * Table)) :=
           match todo with
           | [] => ret tables
           | LAnnotator id :: todo' =>
               bind (on_annotator id (getattr "_tables"))
                 (λ o, match o with
                       | OTables ts =>
                           loop todo' (tables ++ ((λ nt, (nt.1, table_opts_apply nt.2 table_opts)) <$> ts))
                       | _ => raise (TypeError "object is not iterable")
                       end)
           | _ :: todo' => loop todo' tables
           end) items acc) k w
  = k acc w.
Proof.
  induction items as [|[id|e|v] items IH]; intros acc k w Hel.
  - done.
  - by apply Forall_cons in Hel as [[] _].
  - apply Forall_cons in Hel as [_ Hel]. by rewrite IH.
  - by apply Forall_cons in Hel as [[] _].
Qed.

(** [add_layer] with an element, on a manager that holds elements only. *)
Lemma add_layer_element validates m mg items ed ov e w :
  managers w !! m = Some mg →
  lists w !! m_layers mg = Some items →
  elements_only items →
  m_editor mg = Some ed → m_plot mg = Some ov →
  add_layer validates m (LElement e) w
  = (Ok tt,
     {| lists := <[m_layers mg := items ++ [LElement e]]> (lists w);
        annotators := annotators w;
        managers := <[m := set_plot (overlay_of (elements_of (items ++ [LElement e]))
                                       (m_opts mg))
                             (set_editor [] mg)]> (managers w);
        next_ref := next_ref w |}).
Proof.
  intros Hm Hl Hel Hed Hplot.
  assert (elements_only (items ++ [LElement e])) as Hel'.
  { apply Forall_app. split; [done|]. by constructor. }
  destruct w as [ls an ms n]. cbn [lists managers next_ref annotators] in *.
  unfold add_layer. repeat world_step.
  unfold trigger_layers, _update_editor. repeat world_step.
  rewrite update_editor_loop_elements by done. repeat world_step.
  rewrite Hed. repeat world_step.
  cbn [m_plot set_editor]. rewrite Hplot. unfold _get_plot. repeat world_step.
  rewrite get_plot_loop_elements by done. repeat world_step.
  unfold put_manager. cbn [lists managers next_ref annotators].
  rewrite !insert_insert_eq. f_equal. f_equal. f_equal.
  unfold overlay_of, set_plot, set_editor. cbn. f_equal.
  by destruct (bool_decide _).
Qed.

Lemma own_layers_explicit validates o1 t1 o2 t2 e w :
  wf w →
  let n := next_ref w in
  ∃ w1 w2 w3,
    AnnotationManager_init validates Default o1 t1 w = (Ok (S n), w1)
    ∧ AnnotationManager_init validates Default o2 t2 w1 = (Ok (S (S (S n))), w2)
    ∧ add_layer validates (S n) (LElement e) w2 = (Ok tt, w3)
    ∧ m_layers <$> managers w3 !! S n = Some n
    ∧ m_layers <$> managers w3 !! S (S (S n)) = Some (S (S n))
    ∧ layers_of w3 (S n) = Some [LElement e]
    ∧ layers_of w3 (S (S (S n))) = Some []
    ∧ lists w3 !! layers_default_ref = Some []
    ∧ lists w3 !! init_default_ref = Some [].
Proof.
  intros Hwf n.
  pose proof (wf_after_init w o1 t1 Hwf) as Hwf1.
  destruct (wf_fresh w Hwf) as (Hl & Hm & Hn0 & Hn1).
  destruct Hwf as (H0 & H1 & Hfresh).
  eexists _, _, _. split; [by apply AnnotationManager_init_default|].
  split; [by rewrite AnnotationManager_init_default|].
  cbn [next_ref].
  split.
  { rewrite (add_layer_element validates (S n) (fresh_manager n o1 t1) [] []
               (empty_overlay o1) e).
    - reflexivity.
    - cbn [managers]. rewrite lookup_insert_ne by lia. apply lookup_insert_eq.
    - cbn [lists m_layers fresh_manager]. rewrite lookup_insert_ne by lia.
      apply lookup_insert_eq.
    - constructor.
    - reflexivity.
    - reflexivity. }
  fold n. unfold layers_of. cbn [lists managers m_layers fresh_manager].
  rewrite lookup_insert_eq.
  rewrite (lookup_insert_ne _ (S n) (S (S (S n)))) by lia.
  rewrite lookup_insert_eq.
  cbn [fmap option_fmap option_map mbind option_bind m_layers set_plot set_editor
       fresh_manager].
  rewrite lookup_insert_eq.
  rewrite (lookup_insert_ne _ n (S (S n))) by lia. rewrite lookup_insert_eq.
  rewrite !(lookup_insert_ne _ n layers_default_ref) by done.
  rewrite !(lookup_insert_ne _ n init_default_ref) by done.
  rewrite !(lookup_insert_ne _ (S (S n)) layers_default_ref)
    by (unfold layers_default_ref; lia).
  rewrite !(lookup_insert_ne _ (S (S n)) init_default_ref)
    by (unfold init_default_ref; lia).
  subst n. split_and!; try done; by rewrite lookup_insert_ne.
Qed.

(** C10 (amended).  From any store in which the two default lists are still
    empty, two managers constructed without a [layers] argument hold two
    different list objects, neither of them the default of the parameter:
    the declaration [param.List(default=[])] instantiates the default per
    instance.  After [add_layer(e)] on the first manager with an element
    [e], the first manager's layers are [[e]], the second manager's layers
    are still empty, and so are both default lists. *)
Theorem managers_have_own_layers (validates : bool)
    (o1 t1 o2 t2 : gmap string optval) (e : Element) (w : World) :
  wf w →
  ∃ m1 m2 l1 l2 w1 w2 w3,
    AnnotationManager_init validates Default o1 t1 w = (Ok m1, w1)
    ∧ AnnotationManager_init validates Default o2 t2 w1 = (Ok m2, w2)
    ∧ add_layer validates m1 (LElement e) w2 = (Ok tt, w3)
    ∧ m_layers <$> managers w3 !! m1 = Some l1
    ∧ m_layers <$> managers w3 !! m2 = Some l2
    ∧ l1 ≠ l2 ∧ l1 ≠ layers_default_ref ∧ l2 ≠ layers_default_ref
    ∧ layers_of w3 m1 = Some [LElement e]
    ∧ layers_of w3 m2 = Some []
    ∧ lists w3 !! layers_default_ref = Some []
    ∧ lists w3 !! init_default_ref = Some [].
Proof.
  intros Hwf.
  destruct (own_layers_explicit validates o1 t1 o2 t2 e w Hwf)
    as (w1 & w2 & w3 & H1 & H2 & H3 & H4 & H5 & H6 & H7 & H8 & H9).
  destruct (wf_fresh w Hwf) as (_ & _ & Hn0 & _).
  exists (S (next_ref w)), (S (S (S (next_ref w)))), (next_ref w),
    (S (S (next_ref w))), w1, w2, w3.
  split_and!; try done; unfold layers_default_ref; lia.
Qed.

Lemma managers_have_own_layers_witness :
  ∃ m1 m2 l1 l2 w1 w2 w3,
    AnnotationManager_init true Default manager_default_opts
      manager_default_table_opts initial_world = (Ok m1, w1)
    ∧ AnnotationManager_init true Default manager_default_opts
        manager_default_table_opts w1 = (Ok m2, w2)
    ∧ add_layer true m1 (LElement one_point) w2 = (Ok tt, w3)
    ∧ m_layers <$> managers w3 !! m1 = Some l1
    ∧ m_layers <$> managers w3 !! m2 = Some l2
    ∧ l1 ≠ l2 ∧ l1 ≠ layers_default_ref ∧ l2 ≠ layers_default_ref
    ∧ layers_of w3 m1 = Some [LElement one_point]
    ∧ layers_of w3 m2 = Some []
    ∧ lists w3 !! layers_default_ref = Some []
    ∧ lists w3 !! init_default_ref = Some [].
Proof.
  apply (managers_have_own_layers true manager_default_opts manager_default_table_opts
           manager_default_opts manager_default_table_opts one_point initial_world).
  exact initial_world_wf.
Defined.

Example two_managers_references :
  let r1 := AnnotationManager_init true Default manager_default_opts
              manager_default_table_opts initial_world in
  let r2 := AnnotationManager_init true Default manager_default_opts
              manager_default_table_opts r1.2 in
  r1.1 = Ok 3%nat ∧ r2.1 = Ok 5%nat
  ∧ (add_layer true 3 (LElement one_point) r2.2).1 = Ok tt
  ∧ layers_of (two_managers true one_point) 3 = Some [LElement one_point]
  ∧ layers_of (two_managers true one_point) 5 = Some [].
Proof. split_and!; vm_compute; reflexivity. Qed.

Lemma managers_share_layers_counterexample :
  ¬ share_layers (two_managers true one_point) 3 5 one_point.
Proof.
  intros [_ (items & Hitems & Hin)].
  vm_compute in Hitems. injection Hitems as <-. by apply elem_of_nil in Hin.
Qed.

(** ** Annotator layers *)

(** [add_layer] registers its callback under the name [element]; the
    watchers registered for [object], the parameter that holds the element,
    are what they were. *)
Lemma param_watch_element_not_object validates cb a r a' :
  param_watch validates cb "element" a = (r, a') →
  filter (λ w, w_name w = "object") (watchers a')
  = filter (λ w, w_name w = "object") (watchers a).
Proof.
  unfold param_watch. case_match; intros [= <- <-]; [done|].
  cbn [watchers set_watchers]. rewrite filter_app.
  rewrite filter_cons_False by done. rewrite filter_nil. apply app_nil_r.
Qed.

(** C2 (the code departs from the claim).  [add_layer] with an annotator on a
    newly made manager does not succeed, and the subscription it makes is
    never served.  It watches a parameter named [element], while the
    annotator keeps its element in [object]: a framework that checks the
    name raises before the layer is appended; one that does not appends the
    layer, and the recomputation of the plot then raises on
    [layer.element].  In the second case a later replacement of the
    annotator's element, by the edit stream or by an assignment to [object],
    leaves the manager's plot and editor as they were. *)
Theorem add_layer_annotator_not_notified :
  (* a framework that checks the watched name *)
  (add_layer true 4 (LAnnotator 2) (managed_world true)).1
    = Raise (ValueError "element parameter was not found in list of parameters of class")
  ∧ layers_of (add_layer true 4 (LAnnotator 2) (managed_world true)).2 4 = Some []
  (* a framework that does not *)
  ∧ let added := add_layer false 4 (LAnnotator 2) (managed_world false) in
    added.1 = Raise (AttributeError "element")
    ∧ layers_of added.2 4 = Some [LAnnotator 2]
    ∧ watchers <$> annotators added.2 !! 2%nat
      = Some [{| w_name := "element"; w_callback := TriggerLayers 4 |}]
    ∧ (let edited := stream_edit 2 drawn_point added.2 in
       edited.1 = Ok tt
       ∧ object_of edited.2 2 ≠ object_of added.2 2
       ∧ managers edited.2 = managers added.2)
    ∧ (let assigned := assign_object 2 one_point added.2 in
       assigned.1 = Ok tt
       ∧ object_of assigned.2 2 ≠ object_of added.2 2
       ∧ managers assigned.2 = managers added.2).
Proof.
  split_and!; try (vm_compute; reflexivity); by vm_compute.
Qed.

(** ** Adding several elements *)

Lemma elements_of_app items items' :
  elements_of (items ++ items') = elements_of items ++ elements_of items'.
Proof. unfold elements_of. by rewrite bind_app. Qed.

Lemma elements_of_elements es : elements_of (LElement <$> es) = es.
Proof.
  induction es as [|e es IH]; [done|]. unfold elements_of in *. cbn. by rewrite IH.
Qed.

Lemma elements_only_elements es : elements_only (LElement <$> es).
Proof. induction es; by constructor. Qed.

(** X18.  Adding elements one after another to a manager that holds
    elements only: they are appended to [layers] in the order of the calls,
    the plot becomes the collated overlay of all the elements in that order
    with the manager's options, the editor is empty, and no other list,
    manager or annotator of the store is touched. *)
Theorem add_layer_elements (validates : bool) (m : nat) (mg : AnnotationManager)
    (items : list Layer) (ed : list (string * Table)) (ov : Overlay)
    (es : list Element) (w : World) :
  managers w !! m = Some mg →
  lists w !! m_layers mg = Some items →
  elements_only items →
  m_editor mg = Some ed → m_plot mg = Some ov →
  es ≠ [] →
  for_ (LElement <$> es) (add_layer validates m) w
  = (Ok tt,
     {| lists := <[m_layers mg := items ++ (LElement <$> es)]> (lists w);
        annotators := annotators w;
        managers := <[m := set_plot (overlay_of (elements_of items ++ es) (m_opts mg))
                             (set_editor [] mg)]> (managers w);
        next_ref := next_ref w |}).
Proof.
  revert mg items ed ov w.
  induction es as [|e es IH]; intros mg items ed ov w Hm Hl Hel Hed Hplot Hne; [done|].
  cbn [fmap list_fmap for_].
  unfold bind at 1.
  rewrite (add_layer_element validates m mg items ed ov e w) by done.
  destruct es as [|e' es].
  - cbn. unfold ret. do 2 f_equal.
    by rewrite elements_of_app.
  - rewrite (IH (set_plot (overlay_of (elements_of (items ++ [LElement e])) (m_opts mg))
                     (set_editor [] mg))
               (items ++ [LElement e]) []
               (overlay_of (elements_of (items ++ [LElement e])) (m_opts mg))).
    + cbn [lists annotators managers next_ref set_plot set_editor m_layers m_opts].
      rewrite !insert_insert_eq. do 2 f_equal.
      * f_equal. by rewrite <- app_assoc.
      * f_equal. unfold set_plot, set_editor. cbn. do 2 f_equal.
        rewrite elements_of_app, <- app_assoc. done.
    + cbn [managers]. apply lookup_insert_eq.
    + cbn [lists set_plot set_editor m_layers]. apply lookup_insert_eq.
    + apply Forall_app. split; [done|]. by constructor.
    + done.
    + done.
    + done.
Qed.

Lemma add_layer_elements_witness :
  layers_of
    (for_ (LElement <$> [one_point; one_point]) (add_layer false 3)
       (AnnotationManager_init false Default manager_default_opts
          manager_default_table_opts initial_world).2).2 3
  = Some [LElement one_point; LElement one_point].
Proof.
  rewrite (add_layer_elements false 3
             (fresh_manager 2 manager_default_opts manager_default_table_opts)
             [] [] (empty_overlay manager_default_opts) [one_point; one_point]).
  - vm_compute. reflexivity.
  - vm_compute. reflexivity.
  - vm_compute. reflexivity.
  - constructor.
  - reflexivity.
  - reflexivity.
  - discriminate.
Defined.

(** ** The [layers] argument of the constructor *)

Section run_more.
Context {B : Type}.

Lemma run_raise {A} x (k : A → W B) w : bind (raise x) k w = (Raise x, w).
Proof. done. Qed.

Lemma run_get_annotator id a (k : Annotator → W B) w :
  annotators w !! id = Some a → bind (get_annotator id) k w = k a w.
Proof. intros H. unfold bind, get_annotator. by rewrite H. Qed.

Lemma run_get_annotator_None id (k : Annotator → W B) w :
  annotators w !! id = None → bind (get_annotator id) k w = (Raise (ReferenceError id), w).
Proof. intros H. unfold bind, get_annotator. by rewrite H. Qed.

Lemma run_put_annotator id a (k : unit → W B) w :
  bind (put_annotator id a) k w
  = k tt {| lists := lists w; annotators := <[id := a]> (annotators w);
            managers := managers w; next_ref := next_ref w |}.
Proof. done. Qed.
End run_more.

(** X19.  The [layers] argument of the constructor.  An empty list behaves
    as no argument.  A non-empty one never gets through: [__init__] calls
    [add_layer] for the first layer before it has assigned [self.editor],
    and [add_layer] triggers [_update_editor], which writes to
    [self.editor]; so an element raises [AttributeError], an object that is
    neither an element nor an annotator raises the [ValueError] of
    [add_layer], and an annotator raises one way or another. *)
Theorem init_with_layers (validates : bool) (layers : list Layer)
    (opts table_opts : gmap string optval) (w : World) :
  wf w →
  match layers with
  | [] =>
      AnnotationManager_init validates (Given []) opts table_opts w
      = AnnotationManager_init validates Default opts table_opts w
  | LElement _ :: _ =>
      (AnnotationManager_init validates (Given layers) opts table_opts w).1
      = Raise (AttributeError "editor")
  | LOther _ :: _ =>
      (AnnotationManager_init validates (Given layers) opts table_opts w).1
      = Raise (ValueError "Annotator layer must be a Annotator subclass or a HoloViews/GeoViews element.")
  | LAnnotator _ :: _ =>
      ∃ x, (AnnotationManager_init validates (Given layers) opts table_opts w).1 = Raise x
  end.
Proof.
  intros Hwf. destruct (wf_fresh w Hwf) as (Hl & Hm & Hn0 & Hn1).
  destruct Hwf as (H0 & H1 & _).
  destruct w as [ls an ms n]. cbn [lists managers next_ref annotators] in *.
  destruct layers as [|[id|e|v] rest].
  - unfold AnnotationManager_init, instantiate_param, layers_param.
    cbn [instantiate default_ref].
    repeat world_step. reflexivity.
  - unfold AnnotationManager_init, instantiate_param, layers_param.
    cbn [instantiate default_ref].
    repeat world_step.
    unfold add_layer, on_annotator. repeat world_step.
    destruct (an !! id) as [a|] eqn:Ha; cycle 1.
    { rewrite run_get_annotator_None by done. by eexists. }
    erewrite run_get_annotator by done.
    destruct (param_watch validates (TriggerLayers (S n)) "element" a)
      as [[[]|x] a'] eqn:Hwatch; cycle 1.
    { repeat world_step. rewrite run_put_annotator. rewrite run_raise. by eexists. }
    repeat world_step. rewrite run_put_annotator. repeat world_step.
    unfold trigger_layers, _update_editor. repeat world_step.
    cbn [app]. unfold on_annotator. repeat world_step.
    erewrite run_get_annotator by store_lookup.
    unfold getattr.
    destruct (attrs a' !! "_tables") as [tables|]; cycle 1.
    { repeat world_step. rewrite run_put_annotator, !run_raise. by eexists. }
    repeat world_step. rewrite run_put_annotator. repeat world_step.
    destruct tables; try (rewrite !run_raise; by eexists).
    repeat world_step. cbn [m_editor]. rewrite !run_raise. by eexists.
  - unfold AnnotationManager_init, instantiate_param, layers_param.
    cbn [instantiate default_ref].
    repeat world_step.
    unfold add_layer. repeat world_step.
    unfold trigger_layers, _update_editor. repeat world_step.
    rewrite update_editor_loop_elements by (by repeat constructor).
    repeat world_step. cbn [m_editor].
    by rewrite run_raise.
  - unfold AnnotationManager_init, instantiate_param, layers_param.
    cbn [instantiate default_ref].
    repeat world_step.
    unfold add_layer. repeat world_step. rewrite !run_raise. done.
Qed.

Lemma init_with_layers_witness :
  (AnnotationManager_init false (Given [LElement one_point]) manager_default_opts
     manager_default_table_opts initial_world).1
  = Raise (AttributeError "editor").
Proof.
  apply (init_with_layers false [LElement one_point] manager_default_opts
           manager_default_table_opts initial_world).
  exact initial_world_wf.
Defined.

(** ** Annotators as layers, in any store *)

Lemma get_plot_loop_prefix {B} items rest : ∀ acc (k : list Element → W B) w,
  elements_only items →
  bind ((fix loop (todo : list Layer) (layers : list Element) : W (list Element) :=
           match todo with
           | [] => ret layers
           | LAnnotator id :: todo' =>
               bind (on_annotator id (getattr "element"))
                 (λ o, match o with
                       | OElement e => loop todo' (layers ++ [e])
                       | _ => raise (TypeError "layer is not an element")
                       end)
           | LElement e :: todo' => loop todo' (layers ++ [e])
           | LOther _ :: todo' => raise (TypeError "layer is not an element")
           end) (items ++ rest) acc) k w
  = bind ((fix loop (todo : list Layer) (layers : list Element) : W (list Element) :=
           match todo with
           | [] => ret layers
           | LAnnotator id :: todo' =>
               bind (on_annotator id (getattr "element"))
                 (λ o, match o with
                       | OElement e => loop todo' (layers ++ [e])
                       | _ => raise (TypeError "layer is not an element")
                       end)
           | LElement e :: todo' => loop todo' (layers ++ [e])
           | LOther _ :: todo' => raise (TypeError "layer is not an element")
           end) rest (acc ++ elements_of items)) k w.
Proof.
  induction items as [|[id|e|v] items IH]; intros acc k w Hel.
  - cbn. by rewrite app_nil_r.
  - by apply Forall_cons in Hel as [[] _].
  - apply Forall_cons in Hel as [_ Hel]. cbn [app]. rewrite IH by done.
    unfold elements_of. cbn. by rewrite <- app_assoc.
  - by apply Forall_cons in Hel as [[] _].
Qed.

Lemma update_editor_loop_prefix {B} items rest table_opts :
  ∀ acc (k : list (string * Table) → W B) w,
  elements_only items →
  bind ((fix loop (todo : list Layer) (tables : list (string * Table))
           : W (list (string * Table)) :=
           match todo with
           | [] => ret tables
           | LAnnotator id :: todo' =>
               bind (on_annotator id (getattr "_tables"))
                 (λ o, match o with
                       | OTables ts =>
                           loop todo' (tables ++ ((λ nt, (nt.1, table_opts_apply nt.2 table_opts)) <$> ts))
                       | _ => raise (TypeError "object is not iterable")
                       end)
           | _ :: todo' => loop todo' tables
           end) (items ++ rest) acc) k w
  = bind ((fix loop (todo : list Layer) (tables : list (string * Table))
           : W (list (string * Table)) :=
           match todo with
           | [] => ret tables
           | LAnnotator id :: todo' =>
               bind (on_annotator id (getattr "_tables"))
                 (λ o, match o with
                       | OTables ts =>
                           loop todo' (tables ++ ((λ nt, (nt.1, table_opts_apply nt.2 table_opts)) <$> ts))
                       | _ => raise (TypeError "object is not iterable")
                       end)
           | _ :: todo' => loop todo' tables
           end) rest acc) k w.
Proof.
  induction items as [|[id|e|v] items IH]; intros acc k w Hel.
  - done.
  - by apply Forall_cons in Hel as [[] _].
  - apply Forall_cons in Hel as [_ Hel]. cbn [app]. by rewrite IH.
  - by apply Forall_cons in Hel as [[] _].
Qed.

Lemma element_not_declared c : bool_decide ("element" ∈ declared_params c) = false.
Proof. by destruct c; vm_compute. Qed.

Ltac annotator_step :=
  first [ world_step
        | rewrite run_put_annotator
        | rewrite run_raise
        | erewrite run_get_annotator by store_lookup ].

(** X20.  [add_layer] with an annotator, in any store, on a manager that
    holds elements only.  A framework that checks the watched name raises
    [ValueError] and leaves the store exactly as it was.  One that does not
    registers the callback under [element], appends the annotator, shows its
    tables in the editor, and then raises [AttributeError] when [_get_plot]
    reads [layer.element]; the plot stays the overlay it was before. *)
Theorem add_layer_annotator_fails (validates : bool) (m id : nat) (a : Annotator)
    (mg : AnnotationManager) (items : list Layer) (ed ts : list (string * Table))
    (ov : Overlay) (w : World) :
  annotators w !! id = Some a →
  managers w !! m = Some mg →
  lists w !! m_layers mg = Some items →
  elements_only items →
  m_editor mg = Some ed → m_plot mg = Some ov →
  attrs a !! "element" = None →
  attrs a !! "_tables" = Some (OTables ts) →
  let r := add_layer validates m (LAnnotator id) w in
  if validates then
    r = (Raise (ValueError "element parameter was not found in list of parameters of class"), w)
  else
    r.1 = Raise (AttributeError "element")
    ∧ layers_of r.2 m = Some (items ++ [LAnnotator id])
    ∧ watchers <$> annotators r.2 !! id
      = Some (watchers a ++ [{| w_name := "element"; w_callback := TriggerLayers m |}])
    ∧ m_plot <$> managers r.2 !! m = Some (Some ov)
    ∧ m_editor <$> managers r.2 !! m
      = Some (Some ((λ nt, (nt.1, table_opts_apply nt.2 (m_table_opts mg))) <$> ts)).
Proof.
  intros Ha Hm Hl Hel Hed Hplot Helement Htables.
  destruct w as [ls an ms n]. cbn [lists managers next_ref annotators] in *.
  destruct validates; cbn zeta.
  - unfold add_layer, on_annotator. repeat world_step.
    erewrite run_get_annotator by done.
    unfold param_watch. rewrite element_not_declared. cbn [andb negb].
    repeat annotator_step.
    cbn [lists managers next_ref annotators]. by rewrite insert_id.
  - eassert (add_layer false m (LAnnotator id)
               {| lists := ls; annotators := an; managers := ms; next_ref := n |}
             = (Raise (AttributeError "element"), _)) as ->.
    { unfold add_layer, on_annotator. repeat world_step.
      erewrite run_get_annotator by done.
      unfold param_watch. cbn [andb].
      repeat annotator_step.
      unfold trigger_layers, _update_editor. repeat annotator_step.
      rewrite update_editor_loop_prefix by done.
      unfold on_annotator. repeat annotator_step.
      unfold getattr at 1. cbn [attrs set_watchers]. rewrite Htables.
      repeat annotator_step.
      rewrite Hed. repeat annotator_step.
      cbn [m_plot set_editor]. rewrite Hplot. unfold _get_plot. repeat annotator_step.
      rewrite get_plot_loop_prefix by done.
      unfold on_annotator. repeat annotator_step.
      unfold getattr at 1. cbn [attrs set_watchers]. rewrite Helement.
      repeat annotator_step. reflexivity. }
    unfold layers_of. cbn [fst snd lists managers annotators].
    rewrite !lookup_insert_eq. cbn. rewrite lookup_insert_eq.
    by rewrite Hplot.
Qed.

Lemma add_layer_annotator_fails_witness :
  add_layer true 4 (LAnnotator 2) (managed_world true)
  = (Raise (ValueError "element parameter was not found in list of parameters of class"),
     managed_world true).
Proof.
  apply (add_layer_annotator_fails true 4 2 fresh_point_annotator
           (fresh_manager 3 manager_default_opts manager_default_table_opts)
           [] [] fresh_point_tables (empty_overlay manager_default_opts)
           (managed_world true)).
  - vm_compute. reflexivity.
  - vm_compute. reflexivity.
  - vm_compute. reflexivity.
  - constructor.
  - reflexivity.
  - reflexivity.
  - vm_compute. reflexivity.
  - vm_compute. reflexivity.
Defined.

End ManagerFacts.
